(** * Persistence subsystem of the mesh node (settings.c, binary store format)

    A shallow embedding of [src/bt/blehost/nimble/host/mesh/src/settings.c]
    as it is compiled with [BASE64_ENCODE_VALUE == 0]: the record decoders
    ([*_set_bin]), the dirty tracker and its single deferred flush
    ([schedule_store], [store_pending]), the pending key/node update tables,
    the boot-time loader ([conf_load], [bt_mesh_settings_load]) and the commit
    phase ([mesh_commit]).

    Integers are [Z] with the C width written out where it matters, byte
    buffers are [list Z], the global [bt_mesh] object together with the
    file's statics is one record threaded through every function, and every
    call that leaves the file (flash store, timers, network layer) is
    recorded in a trace. *)

From Stdlib Require Import ZArith Lia Bool Ascii String.
From stdpp Require Import base tactics option list.

Local Open Scope Z_scope.

(** ** Bytes and little-endian fields *)

Definition bytes := list Z.

Definition is_byte (b : Z) : Prop := 0 <= b < 256.

(** [n] bytes of [v], least significant first: what [memcpy] reads out of
    an [n]-byte integer field on the little-endian target. *)
Fixpoint to_le (n : nat) (v : Z) : bytes :=
  match n with
  | O => []
  | S k => Z.land v 255 :: to_le k (Z.shiftr v 8)
  end.

(** The integer stored in a little-endian byte sequence. *)
Fixpoint of_le (bs : bytes) : Z :=
  match bs with
  | [] => 0
  | b :: r => Z.lor b (Z.shiftl (of_le r) 8)
  end.

(** [value[i]] of a receive buffer that was zero-filled before the payload
    was copied in (see [conf_load]). *)
Definition byte_at (bs : bytes) (i : nat) : Z := nth i bs 0.

(** Bytes [off .. off+len-1] of a payload. *)
Definition slice (off len : nat) (bs : bytes) : bytes := take len (drop off bs).

(** Bits [lo .. lo+w-1] of a bit-field storage unit. *)
Definition bits (lo w v : Z) : Z := Z.land (Z.shiftr v lo) (Z.ones w).

Definition bool_to_Z (b : bool) : Z := if b then 1 else 0.

Definition zeros (n : nat) : bytes := replicate n 0.

(** The content of an [n]-byte array field. *)
Definition fit (n : nat) (bs : bytes) : bytes := take n (bs ++ zeros n).

(** [memcpy(dst, src, len(src))] into an array of [length dst] bytes. *)
Definition memcpy_into (dst src : bytes) : bytes :=
  take (length dst) (src ++ drop (length src) dst).

(** An array of [u16_t] as bytes, and back. *)
Definition u16s_to_bytes (l : list Z) : bytes := l ≫= to_le 2.

Fixpoint bytes_to_u16s (bs : bytes) : list Z :=
  match bs with
  | lo :: hi :: r => Z.lor lo (Z.shiftl hi 8) :: bytes_to_u16s r
  | _ => []
  end.

(** Index of the first element that satisfies [p]. *)
Fixpoint find_index {A} (p : A -> bool) (l : list A) : option nat :=
  match l with
  | [] => None
  | x :: r => if p x then Some O else S <$> find_index p r
  end.

(** ** C library pieces used on store keys *)

Definition hex_digit (d : Z) : ascii :=
  if d <? 10 then ascii_of_nat (48 + Z.to_nat d)
  else ascii_of_nat (87 + Z.to_nat d).

Fixpoint hex_digits (fuel : nat) (n : Z) (acc : string) : string :=
  match fuel with
  | O => acc
  | S f =>
      let acc' := String (hex_digit (n mod 16)) acc in
      if n / 16 =? 0 then acc' else hex_digits f (n / 16) acc'
  end.

(** [snprintk(path, sizeof(path), "%x", n)] for an unsigned [n] below 2^32
    (the path buffers of the file hold every key it prints). *)
Definition fmt_x (n : Z) : string := hex_digits 8 n EmptyString.

Definition digit_val (c : ascii) : option Z :=
  let n := Z.of_nat (nat_of_ascii c) in
  if (48 <=? n) && (n <=? 57) then Some (n - 48)
  else if (97 <=? n) && (n <=? 102) then Some (n - 87)
  else if (65 <=? n) && (n <=? 70) then Some (n - 55)
  else None.

Fixpoint hex_prefix (s : string) (acc : Z) : Z :=
  match s with
  | EmptyString => acc
  | String c r =>
      match digit_val c with
      | Some d => hex_prefix r (16 * acc + d)
      | None => acc
      end
  end.

Definition is_space (c : ascii) : bool :=
  let n := nat_of_ascii c in
  (n =? 32)%nat || ((9 <=? n)%nat && (n <=? 13)%nat).

Fixpoint skip_space (s : string) : string :=
  match s with
  | String c r => if is_space c then skip_space r else s
  | EmptyString => s
  end.

Definition LONG_MAX : Z := 2147483647.
Definition LONG_MIN : Z := -2147483648.

(** [strtol(s, NULL, 16)] with the 32-bit [long] of the target: blanks, an
    optional sign, an optional [0x], then the longest run of hex digits,
    clamped to the range of [long]. *)
Definition strtol16 (s : string) : Z :=
  let s1 := skip_space s in
  let '(neg, s2) :=
    match s1 with
    | String "-" r => (true, r)
    | String "+" r => (false, r)
    | _ => (false, s1)
    end in
  let s3 :=
    match s2 with
    | String "0" (String "x" r) => r
    | String "0" (String "X" r) => r
    | _ => s2
    end in
  let v := hex_prefix s3 0 in
  if neg then Z.max (- v) LONG_MIN else Z.min v LONG_MAX.

(** Conversion of an [int]/[long] to [u16_t] and [u8_t]. *)
Definition u16 (v : Z) : Z := v mod 65536.
Definition u8 (v : Z) : Z := v mod 256.
Definition u32 (v : Z) : Z := v mod 4294967296.

Fixpoint string_drop (n : nat) (s : string) : string :=
  match n, s with
  | O, _ => s
  | S k, String _ r => string_drop k r
  | S _, EmptyString => EmptyString
  end.

Fixpoint is_prefix (p s : string) : bool :=
  match p, s with
  | EmptyString, _ => true
  | String a p', String b s' => Ascii.eqb a b && is_prefix p' s'
  | String _ _, EmptyString => false
  end.

(** [strstr(s, p) != NULL]. *)
Fixpoint contains (p s : string) : bool :=
  is_prefix p s ||
  match s with
  | EmptyString => false
  | String _ r => contains p r
  end.

(** The part of a key before its first ['/'] (the whole key if none). *)
Fixpoint chop_slash (s : string) : string :=
  match s with
  | EmptyString => EmptyString
  | String c r => if Ascii.eqb c "/" then EmptyString else String c (chop_slash r)
  end.

(** errno values of the C library, as the handlers return them negated. *)
Definition ENOENT : Z := 2.
Definition EIO : Z := 5.
Definition ENOMEM : Z := 12.
Definition EINVAL : Z := 22.
Definition ENOBUFS : Z := 105.

(** ** Data model *)

(** Bits of [bt_mesh.flags] the file reads or writes. *)
Inductive mesh_flag :=
| BT_MESH_VALID | BT_MESH_IVU_IN_PROGRESS | BT_MESH_NODE | BT_MESH_PROVISIONER
| BT_MESH_RPL_PENDING | BT_MESH_KEYS_PENDING | BT_MESH_NET_PENDING
| BT_MESH_IV_PENDING | BT_MESH_SEQ_PENDING | BT_MESH_HB_PUB_PENDING
| BT_MESH_CFG_PENDING | BT_MESH_MOD_PENDING | BT_MESH_VA_PENDING
| BT_MESH_ROLE_PENDING | BT_MESH_NODES_PENDING.

(** [struct key_update]: a 12-bit index and three 1-bit flags. *)
Record key_update := {
  ku_key_idx : Z;
  ku_valid : bool;
  ku_app_key : bool;
  ku_clear : bool
}.

(** [struct node_update]. *)
Record node_update := { nu_addr : Z; nu_clear : bool }.

(** [struct cfg_val]; the configuration server object is modelled by the
    same seven fields, the only ones the file touches. *)
Record cfg_val := {
  net_transmit : Z; relay : Z; relay_retransmit : Z; beacon : Z;
  gatt_proxy : Z; frnd : Z; default_ttl : Z
}.

(** [struct bt_mesh_rpl]. *)
Record bt_mesh_rpl := {
  rpl_src : Z; rpl_old_iv : bool; rpl_store : bool; rpl_seq : Z
}.

(** One element of [sub->keys]: the NetKey and the material derived from it
    ([None] while it is all zero). *)
Record subnet_keys := { sk_net : bytes; sk_derived : option bytes }.

(** [struct bt_mesh_subnet]. *)
Record bt_mesh_subnet := {
  net_idx : Z; kr_flag : bool; kr_phase : Z; node_id : Z;
  keys0 : subnet_keys; keys1 : subnet_keys
}.

(** [struct bt_mesh_app_key].  [updated] is a [bool] member, which the file
    only copies to and from the byte of the record: [ak_updated] is the byte
    it holds, 0 for false and 1 for true. *)
Record bt_mesh_app_key := {
  ak_net_idx : Z; ak_app_idx : Z; ak_updated : Z;
  ak_val0 : bytes; ak_id0 : Z; ak_val1 : bytes; ak_id1 : Z
}.

(** [struct bt_mesh_hb_pub]. *)
Record bt_mesh_hb_pub := {
  hb_dst : Z; hb_count : Z; hb_period : Z; hb_ttl : Z; hb_feat : Z;
  hb_net_idx : Z
}.

(** [struct label]. *)
Record label := {
  lab_ref : Z; lab_addr : Z; lab_uuid : bytes; lab_changed : bool
}.

(** [struct bt_mesh_node]. *)
Record bt_mesh_node := {
  node_addr : Z; node_net_idx : Z; node_num_elem : Z; node_dev_key : bytes
}.

(** [struct bt_mesh_model_pub]. *)
Record bt_mesh_model_pub := {
  pub_addr : Z; pub_key : Z; pub_ttl : Z; pub_retransmit : Z; pub_period : Z;
  pub_period_div : Z; pub_cred : Z; pub_count : Z; pub_update : bool
}.

(** [struct bt_mesh_model], with the [vnd] argument [bt_mesh_model_foreach]
    hands to its callback. *)
Record bt_mesh_model := {
  mod_vnd : bool; mod_elem_idx : Z; mod_idx : Z; mod_flags : Z;
  mod_keys : list Z; mod_groups : list Z;
  mod_pub : option bt_mesh_model_pub;
  mod_cb_settings_set : bool; mod_cb_settings_commit : bool
}.

Inductive timer_id :=
| IVU_TIMER | MOD_PUB_TIMER (i : nat) | HB_PUB_TIMER | PENDING_STORE_TIMER.

(** Calls that leave the file. *)
Inductive event :=
| StoreUpdate (path : string) (keep : Z) (value : bytes)
| StoreInit | StoreDeinit | StoreErase | StoreFlush
| DelayedWorkInit (t : timer_id) | DelayedWorkDeinit (t : timer_id)
| DelayedWorkSubmit (t : timer_id) (ms : Z)
| WorkSubmit (t : timer_id)
| ProxyProvDisable
| NetBeaconUpdate (i : nat)
| NetStart
| ModSettingsSet (i : nat) (data : bytes)
| ModSettingsCommit (i : nat).

Record mesh := {
  flags : Z; (* [bt_mesh.flags], the atomic flag word *)
  seq : Z; (* [bt_mesh.seq], a [u32_t] *)
  iv_index : Z; (* [bt_mesh.iv_index], a [u32_t] *)
  ivu_duration : Z; (* [bt_mesh.ivu_duration], a [u8_t] *)
  dev_key : bytes; (* [bt_mesh.dev_key] *)
  rpl : list bt_mesh_rpl; (* [bt_mesh.rpl] *)
  sub : list bt_mesh_subnet; (* [bt_mesh.sub] *)
  app_keys : list bt_mesh_app_key; (* [bt_mesh.app_keys] *)
  dev_primary_addr : Z; (* what [bt_mesh_primary_addr()] returns *)
  hb_pub : option bt_mesh_hb_pub; (* the object behind [bt_mesh_hb_pub_get()], [None] for NULL *)
  cfg_srv : option cfg_val; (* the object behind [bt_mesh_cfg_get()], [None] for NULL *)
  labels : list label; (* the objects behind [get_label(i)] *)
  nodes : list bt_mesh_node; (* the objects behind [bt_mesh_node_find/alloc] *)
  models : list bt_mesh_model; (* the models [bt_mesh_model_foreach] visits, in its order *)
  key_updates : list key_update; (* the static [key_updates] table *)
  node_updates : list node_update; (* the static [node_updates] table *)
  stored_cfg_valid : bool; (* [stored_cfg.valid] *)
  stored_cfg_cfg : cfg_val; (* [stored_cfg.cfg] *)
  pending_store : Z; (* milliseconds left on the [pending_store] timer, 0 when idle *)
  conf_save_pending : bool; (* the static [conf_save_pending] *)
  trace : list event (* calls that left the file, oldest first *)
}.

Definition set_flags (v : Z) (st : mesh) : mesh :=
  {| flags := v; seq := seq st; iv_index := iv_index st; ivu_duration :=
     ivu_duration st; dev_key := dev_key st; rpl := rpl st; sub := sub st;
     app_keys := app_keys st; dev_primary_addr := dev_primary_addr st;
     hb_pub := hb_pub st; cfg_srv := cfg_srv st; labels := labels st; nodes
     := nodes st; models := models st; key_updates := key_updates st;
     node_updates := node_updates st; stored_cfg_valid := stored_cfg_valid
     st; stored_cfg_cfg := stored_cfg_cfg st; pending_store := pending_store
     st; conf_save_pending := conf_save_pending st; trace := trace st |}.
Definition set_seq (v : Z) (st : mesh) : mesh :=
  {| flags := flags st; seq := v; iv_index := iv_index st; ivu_duration :=
     ivu_duration st; dev_key := dev_key st; rpl := rpl st; sub := sub st;
     app_keys := app_keys st; dev_primary_addr := dev_primary_addr st;
     hb_pub := hb_pub st; cfg_srv := cfg_srv st; labels := labels st; nodes
     := nodes st; models := models st; key_updates := key_updates st;
     node_updates := node_updates st; stored_cfg_valid := stored_cfg_valid
     st; stored_cfg_cfg := stored_cfg_cfg st; pending_store := pending_store
     st; conf_save_pending := conf_save_pending st; trace := trace st |}.
Definition set_iv_index (v : Z) (st : mesh) : mesh :=
  {| flags := flags st; seq := seq st; iv_index := v; ivu_duration :=
     ivu_duration st; dev_key := dev_key st; rpl := rpl st; sub := sub st;
     app_keys := app_keys st; dev_primary_addr := dev_primary_addr st;
     hb_pub := hb_pub st; cfg_srv := cfg_srv st; labels := labels st; nodes
     := nodes st; models := models st; key_updates := key_updates st;
     node_updates := node_updates st; stored_cfg_valid := stored_cfg_valid
     st; stored_cfg_cfg := stored_cfg_cfg st; pending_store := pending_store
     st; conf_save_pending := conf_save_pending st; trace := trace st |}.
Definition set_ivu_duration (v : Z) (st : mesh) : mesh :=
  {| flags := flags st; seq := seq st; iv_index := iv_index st; ivu_duration
     := v; dev_key := dev_key st; rpl := rpl st; sub := sub st; app_keys :=
     app_keys st; dev_primary_addr := dev_primary_addr st; hb_pub := hb_pub
     st; cfg_srv := cfg_srv st; labels := labels st; nodes := nodes st;
     models := models st; key_updates := key_updates st; node_updates :=
     node_updates st; stored_cfg_valid := stored_cfg_valid st;
     stored_cfg_cfg := stored_cfg_cfg st; pending_store := pending_store st;
     conf_save_pending := conf_save_pending st; trace := trace st |}.
Definition set_dev_key (v : bytes) (st : mesh) : mesh :=
  {| flags := flags st; seq := seq st; iv_index := iv_index st; ivu_duration
     := ivu_duration st; dev_key := v; rpl := rpl st; sub := sub st;
     app_keys := app_keys st; dev_primary_addr := dev_primary_addr st;
     hb_pub := hb_pub st; cfg_srv := cfg_srv st; labels := labels st; nodes
     := nodes st; models := models st; key_updates := key_updates st;
     node_updates := node_updates st; stored_cfg_valid := stored_cfg_valid
     st; stored_cfg_cfg := stored_cfg_cfg st; pending_store := pending_store
     st; conf_save_pending := conf_save_pending st; trace := trace st |}.
Definition set_rpl (v : list bt_mesh_rpl) (st : mesh) : mesh :=
  {| flags := flags st; seq := seq st; iv_index := iv_index st; ivu_duration
     := ivu_duration st; dev_key := dev_key st; rpl := v; sub := sub st;
     app_keys := app_keys st; dev_primary_addr := dev_primary_addr st;
     hb_pub := hb_pub st; cfg_srv := cfg_srv st; labels := labels st; nodes
     := nodes st; models := models st; key_updates := key_updates st;
     node_updates := node_updates st; stored_cfg_valid := stored_cfg_valid
     st; stored_cfg_cfg := stored_cfg_cfg st; pending_store := pending_store
     st; conf_save_pending := conf_save_pending st; trace := trace st |}.
Definition set_sub (v : list bt_mesh_subnet) (st : mesh) : mesh :=
  {| flags := flags st; seq := seq st; iv_index := iv_index st; ivu_duration
     := ivu_duration st; dev_key := dev_key st; rpl := rpl st; sub := v;
     app_keys := app_keys st; dev_primary_addr := dev_primary_addr st;
     hb_pub := hb_pub st; cfg_srv := cfg_srv st; labels := labels st; nodes
     := nodes st; models := models st; key_updates := key_updates st;
     node_updates := node_updates st; stored_cfg_valid := stored_cfg_valid
     st; stored_cfg_cfg := stored_cfg_cfg st; pending_store := pending_store
     st; conf_save_pending := conf_save_pending st; trace := trace st |}.
Definition set_app_keys (v : list bt_mesh_app_key) (st : mesh) : mesh :=
  {| flags := flags st; seq := seq st; iv_index := iv_index st; ivu_duration
     := ivu_duration st; dev_key := dev_key st; rpl := rpl st; sub := sub
     st; app_keys := v; dev_primary_addr := dev_primary_addr st; hb_pub :=
     hb_pub st; cfg_srv := cfg_srv st; labels := labels st; nodes := nodes
     st; models := models st; key_updates := key_updates st; node_updates :=
     node_updates st; stored_cfg_valid := stored_cfg_valid st;
     stored_cfg_cfg := stored_cfg_cfg st; pending_store := pending_store st;
     conf_save_pending := conf_save_pending st; trace := trace st |}.
Definition set_dev_primary_addr (v : Z) (st : mesh) : mesh :=
  {| flags := flags st; seq := seq st; iv_index := iv_index st; ivu_duration
     := ivu_duration st; dev_key := dev_key st; rpl := rpl st; sub := sub
     st; app_keys := app_keys st; dev_primary_addr := v; hb_pub := hb_pub
     st; cfg_srv := cfg_srv st; labels := labels st; nodes := nodes st;
     models := models st; key_updates := key_updates st; node_updates :=
     node_updates st; stored_cfg_valid := stored_cfg_valid st;
     stored_cfg_cfg := stored_cfg_cfg st; pending_store := pending_store st;
     conf_save_pending := conf_save_pending st; trace := trace st |}.
Definition set_hb_pub (v : option bt_mesh_hb_pub) (st : mesh) : mesh :=
  {| flags := flags st; seq := seq st; iv_index := iv_index st; ivu_duration
     := ivu_duration st; dev_key := dev_key st; rpl := rpl st; sub := sub
     st; app_keys := app_keys st; dev_primary_addr := dev_primary_addr st;
     hb_pub := v; cfg_srv := cfg_srv st; labels := labels st; nodes := nodes
     st; models := models st; key_updates := key_updates st; node_updates :=
     node_updates st; stored_cfg_valid := stored_cfg_valid st;
     stored_cfg_cfg := stored_cfg_cfg st; pending_store := pending_store st;
     conf_save_pending := conf_save_pending st; trace := trace st |}.
Definition set_cfg_srv (v : option cfg_val) (st : mesh) : mesh :=
  {| flags := flags st; seq := seq st; iv_index := iv_index st; ivu_duration
     := ivu_duration st; dev_key := dev_key st; rpl := rpl st; sub := sub
     st; app_keys := app_keys st; dev_primary_addr := dev_primary_addr st;
     hb_pub := hb_pub st; cfg_srv := v; labels := labels st; nodes := nodes
     st; models := models st; key_updates := key_updates st; node_updates :=
     node_updates st; stored_cfg_valid := stored_cfg_valid st;
     stored_cfg_cfg := stored_cfg_cfg st; pending_store := pending_store st;
     conf_save_pending := conf_save_pending st; trace := trace st |}.
Definition set_labels (v : list label) (st : mesh) : mesh :=
  {| flags := flags st; seq := seq st; iv_index := iv_index st; ivu_duration
     := ivu_duration st; dev_key := dev_key st; rpl := rpl st; sub := sub
     st; app_keys := app_keys st; dev_primary_addr := dev_primary_addr st;
     hb_pub := hb_pub st; cfg_srv := cfg_srv st; labels := v; nodes := nodes
     st; models := models st; key_updates := key_updates st; node_updates :=
     node_updates st; stored_cfg_valid := stored_cfg_valid st;
     stored_cfg_cfg := stored_cfg_cfg st; pending_store := pending_store st;
     conf_save_pending := conf_save_pending st; trace := trace st |}.
Definition set_nodes (v : list bt_mesh_node) (st : mesh) : mesh :=
  {| flags := flags st; seq := seq st; iv_index := iv_index st; ivu_duration
     := ivu_duration st; dev_key := dev_key st; rpl := rpl st; sub := sub
     st; app_keys := app_keys st; dev_primary_addr := dev_primary_addr st;
     hb_pub := hb_pub st; cfg_srv := cfg_srv st; labels := labels st; nodes
     := v; models := models st; key_updates := key_updates st; node_updates
     := node_updates st; stored_cfg_valid := stored_cfg_valid st;
     stored_cfg_cfg := stored_cfg_cfg st; pending_store := pending_store st;
     conf_save_pending := conf_save_pending st; trace := trace st |}.
Definition set_models (v : list bt_mesh_model) (st : mesh) : mesh :=
  {| flags := flags st; seq := seq st; iv_index := iv_index st; ivu_duration
     := ivu_duration st; dev_key := dev_key st; rpl := rpl st; sub := sub
     st; app_keys := app_keys st; dev_primary_addr := dev_primary_addr st;
     hb_pub := hb_pub st; cfg_srv := cfg_srv st; labels := labels st; nodes
     := nodes st; models := v; key_updates := key_updates st; node_updates
     := node_updates st; stored_cfg_valid := stored_cfg_valid st;
     stored_cfg_cfg := stored_cfg_cfg st; pending_store := pending_store st;
     conf_save_pending := conf_save_pending st; trace := trace st |}.
Definition set_key_updates (v : list key_update) (st : mesh) : mesh :=
  {| flags := flags st; seq := seq st; iv_index := iv_index st; ivu_duration
     := ivu_duration st; dev_key := dev_key st; rpl := rpl st; sub := sub
     st; app_keys := app_keys st; dev_primary_addr := dev_primary_addr st;
     hb_pub := hb_pub st; cfg_srv := cfg_srv st; labels := labels st; nodes
     := nodes st; models := models st; key_updates := v; node_updates :=
     node_updates st; stored_cfg_valid := stored_cfg_valid st;
     stored_cfg_cfg := stored_cfg_cfg st; pending_store := pending_store st;
     conf_save_pending := conf_save_pending st; trace := trace st |}.
Definition set_node_updates (v : list node_update) (st : mesh) : mesh :=
  {| flags := flags st; seq := seq st; iv_index := iv_index st; ivu_duration
     := ivu_duration st; dev_key := dev_key st; rpl := rpl st; sub := sub
     st; app_keys := app_keys st; dev_primary_addr := dev_primary_addr st;
     hb_pub := hb_pub st; cfg_srv := cfg_srv st; labels := labels st; nodes
     := nodes st; models := models st; key_updates := key_updates st;
     node_updates := v; stored_cfg_valid := stored_cfg_valid st;
     stored_cfg_cfg := stored_cfg_cfg st; pending_store := pending_store st;
     conf_save_pending := conf_save_pending st; trace := trace st |}.
Definition set_stored_cfg_valid (v : bool) (st : mesh) : mesh :=
  {| flags := flags st; seq := seq st; iv_index := iv_index st; ivu_duration
     := ivu_duration st; dev_key := dev_key st; rpl := rpl st; sub := sub
     st; app_keys := app_keys st; dev_primary_addr := dev_primary_addr st;
     hb_pub := hb_pub st; cfg_srv := cfg_srv st; labels := labels st; nodes
     := nodes st; models := models st; key_updates := key_updates st;
     node_updates := node_updates st; stored_cfg_valid := v; stored_cfg_cfg
     := stored_cfg_cfg st; pending_store := pending_store st;
     conf_save_pending := conf_save_pending st; trace := trace st |}.
Definition set_stored_cfg_cfg (v : cfg_val) (st : mesh) : mesh :=
  {| flags := flags st; seq := seq st; iv_index := iv_index st; ivu_duration
     := ivu_duration st; dev_key := dev_key st; rpl := rpl st; sub := sub
     st; app_keys := app_keys st; dev_primary_addr := dev_primary_addr st;
     hb_pub := hb_pub st; cfg_srv := cfg_srv st; labels := labels st; nodes
     := nodes st; models := models st; key_updates := key_updates st;
     node_updates := node_updates st; stored_cfg_valid := stored_cfg_valid
     st; stored_cfg_cfg := v; pending_store := pending_store st;
     conf_save_pending := conf_save_pending st; trace := trace st |}.
Definition set_pending_store (v : Z) (st : mesh) : mesh :=
  {| flags := flags st; seq := seq st; iv_index := iv_index st; ivu_duration
     := ivu_duration st; dev_key := dev_key st; rpl := rpl st; sub := sub
     st; app_keys := app_keys st; dev_primary_addr := dev_primary_addr st;
     hb_pub := hb_pub st; cfg_srv := cfg_srv st; labels := labels st; nodes
     := nodes st; models := models st; key_updates := key_updates st;
     node_updates := node_updates st; stored_cfg_valid := stored_cfg_valid
     st; stored_cfg_cfg := stored_cfg_cfg st; pending_store := v;
     conf_save_pending := conf_save_pending st; trace := trace st |}.
Definition set_conf_save_pending (v : bool) (st : mesh) : mesh :=
  {| flags := flags st; seq := seq st; iv_index := iv_index st; ivu_duration
     := ivu_duration st; dev_key := dev_key st; rpl := rpl st; sub := sub
     st; app_keys := app_keys st; dev_primary_addr := dev_primary_addr st;
     hb_pub := hb_pub st; cfg_srv := cfg_srv st; labels := labels st; nodes
     := nodes st; models := models st; key_updates := key_updates st;
     node_updates := node_updates st; stored_cfg_valid := stored_cfg_valid
     st; stored_cfg_cfg := stored_cfg_cfg st; pending_store := pending_store
     st; conf_save_pending := v; trace := trace st |}.
Definition set_trace (v : list event) (st : mesh) : mesh :=
  {| flags := flags st; seq := seq st; iv_index := iv_index st; ivu_duration
     := ivu_duration st; dev_key := dev_key st; rpl := rpl st; sub := sub
     st; app_keys := app_keys st; dev_primary_addr := dev_primary_addr st;
     hb_pub := hb_pub st; cfg_srv := cfg_srv st; labels := labels st; nodes
     := nodes st; models := models st; key_updates := key_updates st;
     node_updates := node_updates st; stored_cfg_valid := stored_cfg_valid
     st; stored_cfg_cfg := stored_cfg_cfg st; pending_store := pending_store
     st; conf_save_pending := conf_save_pending st; trace := v |}.

(** ** Build configuration and the declarations of other headers

    [syscfg.h], [net.h], [access.h], [foundation.h] and [glue.h] are not part
    of the file: the constants and macros the code takes from them are
    parameters of the development. *)
Record mesh_config := {
  (** position of each flag in [bt_mesh.flags] (the enum of [net.h]); the
      pending flags live in the first word, the one [atomic_get] reads *)
  flag_bit : mesh_flag -> Z;
  flag_bit_range : forall f, 0 <= flag_bit f < 32;
  flag_bit_inj : forall f g, flag_bit f = flag_bit g -> f = g;
  CONFIG_BT_MESH_SEQ_STORE_RATE : Z;
  CONFIG_BT_MESH_RPL_STORE_TIMEOUT : Z;
  CONFIG_BT_MESH_STORE_TIMEOUT : Z;
  (** [IS_ENABLED(...)] and [#if] switches *)
  CONFIG_BT_MESH_PB_GATT : bool;
  CONFIG_BT_MESH_GATT_PROXY : bool;
  CONFIG_BT_MESH_PROVISIONER : bool;
  CONFIG_BT_MESH_LABEL_COUNT : Z;
  (** [K_SECONDS(s)], in milliseconds *)
  K_SECONDS : Z -> Z;
  BT_MESH_KEY_UNUSED : Z;
  BT_MESH_ADDR_UNASSIGNED : Z;
  BT_MESH_KR_NORMAL : Z;
  BT_MESH_NODE_IDENTITY_STOPPED : Z;
  BT_MESH_NODE_IDENTITY_NOT_SUPPORTED : Z;
  BT_MESH_IVU_MIN_HOURS : Z;
  BT_MESH_IVU_TIMEOUT : Z;
  (** bit masks of [mod->flags] *)
  BT_MESH_MOD_BIND_PENDING : Z;
  BT_MESH_MOD_SUB_PENDING : Z;
  BT_MESH_MOD_PUB_PENDING : Z;
  BT_MESH_MOD_DATA_PRESENT : Z
}.

(** Functions of the other mesh modules and of the application that the
    file calls.  Those that return a pointer into an array get the array and
    return the index of the element, [None] for NULL. *)
Record mesh_externals := {
  bt_mesh_comp_provision : Z -> mesh -> mesh;
  bt_mesh_comp_unprovision : mesh -> mesh;
  bt_mesh_subnet_get : Z -> list bt_mesh_subnet -> option nat;
  (** [bt_mesh_subnet_del(sub, false)] *)
  bt_mesh_subnet_del : nat -> mesh -> mesh;
  bt_mesh_app_key_find : Z -> list bt_mesh_app_key -> option nat;
  bt_mesh_app_key_alloc : Z -> list bt_mesh_app_key -> option nat;
  (** [bt_mesh_app_key_del(app, false)] *)
  bt_mesh_app_key_del : nat -> mesh -> mesh;
  (** the AID [bt_mesh_app_id] computes from a key *)
  bt_mesh_app_id : bytes -> Z;
  bt_mesh_node_find : Z -> list bt_mesh_node -> option nat;
  (** [bt_mesh_node_alloc(addr, num_elem, net_idx)] *)
  bt_mesh_node_alloc : Z -> Z -> Z -> mesh -> option nat * mesh;
  (** [bt_mesh_node_del(node, false)] *)
  bt_mesh_node_del : nat -> mesh -> mesh;
  (** [bt_mesh_model_get(vnd, elem_idx, mod_idx)] *)
  bt_mesh_model_get : bool -> Z -> Z -> list bt_mesh_model -> option nat;
  bt_mesh_model_pub_period_get : bt_mesh_model -> Z;
  (** [bt_mesh_net_keys_create]: the derived material, [None] on error *)
  bt_mesh_net_keys_create : bytes -> option bytes;
  (** result of a model's [settings_set] callback *)
  mod_settings_set : nat -> bytes -> Z;
  (** what a [memcpy] of a payload longer than [mod->keys] (than
      [mod->groups]) leaves in the model: the copy is not bounded by the
      array and runs on into the members that follow it in
      [struct bt_mesh_model], whose layout is in [access.h] *)
  mod_keys_overrun : bytes -> bt_mesh_model -> bt_mesh_model;
  mod_groups_overrun : bytes -> bt_mesh_model -> bt_mesh_model;
  (** the indeterminate bits of an automatic struct that is written to the
      store without being initialised in full *)
  stack_junk : list event -> Z
}.

Global Instance mesh_flag_eq_dec : EqDecision mesh_flag.
Proof. solve_decision. Defined.

(** ** A reference configuration

    The settings of the stock mesh build and list-backed stand-ins for the
    other modules; the examples below run the code on them. *)

Definition sample_flag_bit (f : mesh_flag) : Z :=
  match f with
  | BT_MESH_VALID => 0 | BT_MESH_IVU_IN_PROGRESS => 2
  | BT_MESH_NODE => 6 | BT_MESH_PROVISIONER => 7
  | BT_MESH_RPL_PENDING => 8 | BT_MESH_KEYS_PENDING => 9
  | BT_MESH_NET_PENDING => 10 | BT_MESH_IV_PENDING => 11
  | BT_MESH_SEQ_PENDING => 12 | BT_MESH_HB_PUB_PENDING => 13
  | BT_MESH_CFG_PENDING => 14 | BT_MESH_MOD_PENDING => 15
  | BT_MESH_VA_PENDING => 16 | BT_MESH_ROLE_PENDING => 17
  | BT_MESH_NODES_PENDING => 18
  end.

Definition sample_config : mesh_config :=
  {| flag_bit := sample_flag_bit;
     flag_bit_range := ltac:(intros []; cbn; lia);
     flag_bit_inj := ltac:(intros [] []; cbn; intros; congruence);
     CONFIG_BT_MESH_SEQ_STORE_RATE := 128;
     CONFIG_BT_MESH_RPL_STORE_TIMEOUT := 5;
     CONFIG_BT_MESH_STORE_TIMEOUT := 2;
     CONFIG_BT_MESH_PB_GATT := true;
     CONFIG_BT_MESH_GATT_PROXY := true;
     CONFIG_BT_MESH_PROVISIONER := true;
     CONFIG_BT_MESH_LABEL_COUNT := 1;
     K_SECONDS := fun s => s * 1000;
     BT_MESH_KEY_UNUSED := 65535;
     BT_MESH_ADDR_UNASSIGNED := 0;
     BT_MESH_KR_NORMAL := 0;
     BT_MESH_NODE_IDENTITY_STOPPED := 0;
     BT_MESH_NODE_IDENTITY_NOT_SUPPORTED := 2;
     BT_MESH_IVU_MIN_HOURS := 96;
     BT_MESH_IVU_TIMEOUT := 345600000;
     BT_MESH_MOD_BIND_PENDING := 1;
     BT_MESH_MOD_SUB_PENDING := 2;
     BT_MESH_MOD_PUB_PENDING := 4;
     BT_MESH_MOD_DATA_PRESENT := 8 |}.

Definition sample_subnet_del (i : nat) (st : mesh) : mesh :=
  set_sub
    (alter (fun s => {| net_idx := 65535; kr_flag := false; kr_phase := 0;
                        node_id := 0;
                        keys0 := {| sk_net := zeros 16; sk_derived := None |};
                        keys1 := {| sk_net := zeros 16; sk_derived := None |} |})
       i (sub st)) st.

(** A layout for the examples: [groups] follows [keys] at once, and what
    follows [groups] is not looked at. *)
Definition sample_keys_overrun (val : bytes) (m : bt_mesh_model) : bt_mesh_model :=
  let n := (2 * length (mod_keys m))%nat in
  {| mod_vnd := mod_vnd m; mod_elem_idx := mod_elem_idx m; mod_idx := mod_idx m;
     mod_flags := mod_flags m;
     mod_keys := bytes_to_u16s (take n val);
     mod_groups :=
       bytes_to_u16s (memcpy_into (u16s_to_bytes (mod_groups m)) (drop n val));
     mod_pub := mod_pub m; mod_cb_settings_set := mod_cb_settings_set m;
     mod_cb_settings_commit := mod_cb_settings_commit m |}.

Definition sample_groups_overrun (val : bytes) (m : bt_mesh_model) : bt_mesh_model :=
  {| mod_vnd := mod_vnd m; mod_elem_idx := mod_elem_idx m; mod_idx := mod_idx m;
     mod_flags := mod_flags m; mod_keys := mod_keys m;
     mod_groups := bytes_to_u16s (take (2 * length (mod_groups m)) val);
     mod_pub := mod_pub m; mod_cb_settings_set := mod_cb_settings_set m;
     mod_cb_settings_commit := mod_cb_settings_commit m |}.

Definition sample_externals : mesh_externals :=
  {| bt_mesh_comp_provision := set_dev_primary_addr;
     bt_mesh_comp_unprovision := set_dev_primary_addr 0;
     bt_mesh_subnet_get := fun idx l => find_index (fun s => net_idx s =? idx) l;
     bt_mesh_subnet_del := sample_subnet_del;
     bt_mesh_app_key_find := fun idx l =>
       find_index (fun a => negb (ak_net_idx a =? 65535) && (ak_app_idx a =? idx)) l;
     bt_mesh_app_key_alloc := fun _ l =>
       find_index (fun a => ak_net_idx a =? 65535) l;
     bt_mesh_app_key_del := fun i st =>
       set_app_keys (delete i (app_keys st)) st;
     bt_mesh_app_id := fun k => Z.land (byte_at k 0) 63;
     bt_mesh_node_find := fun addr l => find_index (fun n => node_addr n =? addr) l;
     bt_mesh_node_alloc := fun addr num_elem idx st =>
       (Some (length (nodes st)),
        set_nodes (nodes st ++ [{| node_addr := addr; node_net_idx := idx;
                                   node_num_elem := num_elem;
                                   node_dev_key := zeros 16 |}]) st);
     bt_mesh_node_del := fun i st => set_nodes (delete i (nodes st)) st;
     bt_mesh_model_get := fun vnd e m l =>
       find_index (fun x => Bool.eqb (mod_vnd x) vnd && (mod_elem_idx x =? e)
                            && (mod_idx x =? m)) l;
     bt_mesh_model_pub_period_get := fun m =>
       match mod_pub m with Some p => 100 * pub_period p | None => 0 end;
     bt_mesh_net_keys_create := fun k => Some k;
     mod_settings_set := fun _ _ => 0;
     mod_keys_overrun := sample_keys_overrun;
     mod_groups_overrun := sample_groups_overrun;
     stack_junk := fun t => 255 + Z.of_nat (length t) |}.

(** An unprovisioned node right after start-up, with [n] slots in each
    table. *)
Definition boot_state (n : nat) : mesh :=
  {| flags := 0; seq := 0; iv_index := 0; ivu_duration := 0;
     dev_key := zeros 16;
     rpl := replicate n {| rpl_src := 0; rpl_old_iv := false;
                           rpl_store := false; rpl_seq := 0 |};
     sub := replicate n {| net_idx := 65535; kr_flag := false; kr_phase := 0;
                           node_id := 0;
                           keys0 := {| sk_net := zeros 16; sk_derived := None |};
                           keys1 := {| sk_net := zeros 16; sk_derived := None |} |};
     app_keys := replicate n {| ak_net_idx := 65535; ak_app_idx := 65535;
                                ak_updated := 0; ak_val0 := zeros 16;
                                ak_id0 := 0; ak_val1 := zeros 16; ak_id1 := 0 |};
     dev_primary_addr := 0;
     hb_pub := Some {| hb_dst := 0; hb_count := 0; hb_period := 0; hb_ttl := 0;
                       hb_feat := 0; hb_net_idx := 0 |};
     cfg_srv := Some {| net_transmit := 0; relay := 0; relay_retransmit := 0;
                        beacon := 1; gatt_proxy := 0; frnd := 0;
                        default_ttl := 7 |};
     labels := replicate n {| lab_ref := 0; lab_addr := 0; lab_uuid := zeros 16;
                              lab_changed := false |};
     nodes := [];
     models := [];
     key_updates := replicate (n + n) {| ku_key_idx := 0; ku_valid := false;
                                         ku_app_key := false; ku_clear := false |};
     node_updates := replicate n {| nu_addr := 0; nu_clear := false |};
     stored_cfg_valid := false;
     stored_cfg_cfg := {| net_transmit := 0; relay := 0; relay_retransmit := 0;
                          beacon := 0; gatt_proxy := 0; frnd := 0;
                          default_ttl := 0 |};
     pending_store := 0; conf_save_pending := false; trace := [] |}.

(** The same configuration with another sequence store rate. *)
Definition with_seq_store_rate (r : Z) (c : mesh_config) : mesh_config :=
  {| flag_bit := flag_bit c;
     flag_bit_range := flag_bit_range c;
     flag_bit_inj := flag_bit_inj c;
     CONFIG_BT_MESH_SEQ_STORE_RATE := r;
     CONFIG_BT_MESH_RPL_STORE_TIMEOUT := CONFIG_BT_MESH_RPL_STORE_TIMEOUT c;
     CONFIG_BT_MESH_STORE_TIMEOUT := CONFIG_BT_MESH_STORE_TIMEOUT c;
     CONFIG_BT_MESH_PB_GATT := CONFIG_BT_MESH_PB_GATT c;
     CONFIG_BT_MESH_GATT_PROXY := CONFIG_BT_MESH_GATT_PROXY c;
     CONFIG_BT_MESH_PROVISIONER := CONFIG_BT_MESH_PROVISIONER c;
     CONFIG_BT_MESH_LABEL_COUNT := CONFIG_BT_MESH_LABEL_COUNT c;
     K_SECONDS := K_SECONDS c;
     BT_MESH_KEY_UNUSED := BT_MESH_KEY_UNUSED c;
     BT_MESH_ADDR_UNASSIGNED := BT_MESH_ADDR_UNASSIGNED c;
     BT_MESH_KR_NORMAL := BT_MESH_KR_NORMAL c;
     BT_MESH_NODE_IDENTITY_STOPPED := BT_MESH_NODE_IDENTITY_STOPPED c;
     BT_MESH_NODE_IDENTITY_NOT_SUPPORTED := BT_MESH_NODE_IDENTITY_NOT_SUPPORTED c;
     BT_MESH_IVU_MIN_HOURS := BT_MESH_IVU_MIN_HOURS c;
     BT_MESH_IVU_TIMEOUT := BT_MESH_IVU_TIMEOUT c;
     BT_MESH_MOD_BIND_PENDING := BT_MESH_MOD_BIND_PENDING c;
     BT_MESH_MOD_SUB_PENDING := BT_MESH_MOD_SUB_PENDING c;
     BT_MESH_MOD_PUB_PENDING := BT_MESH_MOD_PUB_PENDING c;
     BT_MESH_MOD_DATA_PRESENT := BT_MESH_MOD_DATA_PRESENT c |}.

(** States and values of the examples. *)

(** The start-up state with the flush timer armed, [ms] milliseconds left. *)
Definition armed_state (ms : Z) : mesh := set_pending_store ms (boot_state 1).

Definition sample_subnet (idx : Z) : bt_mesh_subnet :=
  {| net_idx := idx; kr_flag := true; kr_phase := 2; node_id := 0;
     keys0 := {| sk_net := replicate 16 17; sk_derived := None |};
     keys1 := {| sk_net := replicate 16 34; sk_derived := None |} |}.

Definition sample_app_key (idx : Z) : bt_mesh_app_key :=
  {| ak_net_idx := 0; ak_app_idx := idx; ak_updated := 0;
     ak_val0 := replicate 16 51; ak_id0 := 51; ak_val1 := zeros 16; ak_id1 := 0 |}.

Definition sample_node (addr : Z) : bt_mesh_node :=
  {| node_addr := addr; node_net_idx := 0; node_num_elem := 1;
     node_dev_key := replicate 16 68 |}.

(** Both pending tables occupied by other keys and nodes. *)
Definition full_tables_state : mesh :=
  set_key_updates
    [ {| ku_key_idx := 1; ku_valid := true; ku_app_key := false; ku_clear := false |};
      {| ku_key_idx := 2; ku_valid := true; ku_app_key := true; ku_clear := true |} ]
    (set_node_updates [ {| nu_addr := 5; nu_clear := false |} ] (boot_state 1)).

(** The key table occupied by other keys, the slot of the node table free. *)
Definition full_keys_state : mesh :=
  set_key_updates (key_updates full_tables_state) (boot_state 1).

Definition sample_hb_pub : bt_mesh_hb_pub :=
  {| hb_dst := 49152; hb_count := 65535; hb_period := 10; hb_ttl := 5;
     hb_feat := 3; hb_net_idx := 1 |}.

Definition sample_rpl : bt_mesh_rpl :=
  {| rpl_src := 256; rpl_old_iv := true; rpl_store := true; rpl_seq := 1193046 |}.

Definition sample_label : label :=
  {| lab_ref := 1; lab_addr := 32768; lab_uuid := replicate 16 85;
     lab_changed := false |}.

(** The start-up state with one virtual address label in use. *)
Definition labelled_state : mesh := set_labels [sample_label] (boot_state 1).

Section Settings.

Variable cfg : mesh_config.
Variable ext : mesh_externals.

(** ** Atomic flag word *)

Definition BIT (n : Z) : Z := Z.shiftl 1 n.

Definition atomic_get (st : mesh) : Z := flags st.

Definition atomic_test_bit (st : mesh) (f : mesh_flag) : bool :=
  Z.testbit (flags st) (flag_bit cfg f).

Definition atomic_set_bit (f : mesh_flag) (st : mesh) : mesh :=
  set_flags (Z.lor (flags st) (BIT (flag_bit cfg f))) st.

Definition atomic_clear_bit (f : mesh_flag) (st : mesh) : mesh :=
  set_flags (Z.land (flags st) (Z.lnot (BIT (flag_bit cfg f)))) st.

Definition atomic_set_bit_to (f : mesh_flag) (v : bool) (st : mesh) : mesh :=
  if v then atomic_set_bit f st else atomic_clear_bit f st.

Definition atomic_test_and_clear_bit (f : mesh_flag) (st : mesh) : bool * mesh :=
  (atomic_test_bit st f, atomic_clear_bit f st).

(** ** Trace, store and timer primitives *)

Definition emit (e : event) (st : mesh) : mesh := set_trace (trace st ++ [e]) st.

(** [conf_save_one], which [settings_save_one] stands for in this build:
    the first [len] bytes of [value] go to [tls_mesh_store_update] with the
    keep flag [len > 0], and a backend flush becomes due. *)
Definition conf_save_one (path : string) (len : Z) (value : bytes) (st : mesh)
  : Z * mesh :=
  (0, set_conf_save_pending true
        (emit (StoreUpdate path (if 0 <? len then 1 else 0)
                 (take (Z.to_nat len) value)) st)).

Definition settings_save_one := conf_save_one.

Definition k_delayed_work_remaining_get (st : mesh) : Z := pending_store st.

(** [k_delayed_work_submit(&pending_store, timeout)]: the timer is (re)armed
    to expire [timeout] ms from now. *)
Definition k_delayed_work_submit_pending_store (timeout : Z) (st : mesh) : mesh :=
  set_pending_store timeout
    (emit (DelayedWorkSubmit PENDING_STORE_TIMER timeout) st).

(** ** Dirty tracker and scheduler *)

Definition NO_WAIT_PENDING_BITS : Z :=
  Z.lor (Z.lor (BIT (flag_bit cfg BT_MESH_NET_PENDING))
               (BIT (flag_bit cfg BT_MESH_IV_PENDING)))
        (BIT (flag_bit cfg BT_MESH_ROLE_PENDING)).

Definition GENERIC_PENDING_BITS : Z :=
  Z.lor (Z.lor (Z.lor (Z.lor (Z.lor
    (BIT (flag_bit cfg BT_MESH_KEYS_PENDING))
    (BIT (flag_bit cfg BT_MESH_HB_PUB_PENDING)))
    (BIT (flag_bit cfg BT_MESH_CFG_PENDING)))
    (BIT (flag_bit cfg BT_MESH_MOD_PENDING)))
    (BIT (flag_bit cfg BT_MESH_SEQ_PENDING)))
    (BIT (flag_bit cfg BT_MESH_NODES_PENDING)).

Definition CONFIG_MESH_STORE_WORKAROUND_FLASH_FLUSH_TIMEOUT : Z := 500.

(** The [timeout] local of [schedule_store], computed from the flag word
    after the new bit is set. *)
Definition store_timeout (st : mesh) : Z :=
  if negb (Z.land (atomic_get st) NO_WAIT_PENDING_BITS =? 0) then
    CONFIG_MESH_STORE_WORKAROUND_FLASH_FLUSH_TIMEOUT
  else if atomic_test_bit st BT_MESH_RPL_PENDING &&
          ((Z.land (atomic_get st) GENERIC_PENDING_BITS =? 0) ||
           (CONFIG_BT_MESH_RPL_STORE_TIMEOUT cfg <?
            CONFIG_BT_MESH_STORE_TIMEOUT cfg)) then
    K_SECONDS cfg (CONFIG_BT_MESH_RPL_STORE_TIMEOUT cfg)
  else
    K_SECONDS cfg (CONFIG_BT_MESH_STORE_TIMEOUT cfg).

Definition schedule_store (flag : mesh_flag) (st : mesh) : mesh :=
  let st1 := atomic_set_bit flag st in
  let timeout := store_timeout st1 in
  let remaining := k_delayed_work_remaining_get st1 in
  if negb (remaining =? 0) && (remaining <? timeout) then st1
  else k_delayed_work_submit_pending_store timeout st1.

(** ** Sequence number *)

Definition seq_set_bin (value : bytes) (st : mesh) : Z * mesh :=
  if (length value =? 0)%nat then (0, set_seq 0 st)
  else if negb (length value =? 3)%nat then (- EINVAL, st)
  else
    let s := Z.lor (Z.lor (byte_at value 0) (Z.shiftl (byte_at value 1) 8))
                   (Z.shiftl (byte_at value 2) 16) in
    if 0 <? CONFIG_BT_MESH_SEQ_STORE_RATE cfg then
      let r := CONFIG_BT_MESH_SEQ_STORE_RATE cfg in
      let s1 := u32 (s + u32 (r - s mod r)) in
      (0, set_seq (u32 (s1 - 1)) st)
    else (0, set_seq s st).

Definition bt_mesh_store_seq (st : mesh) : mesh :=
  if negb (CONFIG_BT_MESH_SEQ_STORE_RATE cfg =? 0) &&
     negb (seq st mod CONFIG_BT_MESH_SEQ_STORE_RATE cfg =? 0)
  then st
  else schedule_store BT_MESH_SEQ_PENDING st.

(** ** Record decoders of the boot-time loader

    A decoder gets the payload as the list of its [value_len] bytes.  The
    records are the C structs copied byte for byte; multi-byte fields are
    little-endian and bit fields fill their storage unit from the least
    significant bit, as the compiler of the target lays them out. *)

Definition role_set_bin (value : bytes) (st : mesh) : Z * mesh :=
  let role := byte_at value 0 in
  if role =? 1 then (0, atomic_set_bit BT_MESH_NODE st)
  else if role =? 2 then (0, atomic_set_bit BT_MESH_PROVISIONER st)
  else (0, st).

Definition net_set_bin (value : bytes) (st : mesh) : Z * mesh :=
  if (length value =? 0)%nat then
    (0, set_dev_key (zeros 16) (bt_mesh_comp_unprovision ext st))
  else if negb (length value =? 18)%nat then (- EINVAL, st)
  else
    let primary_addr := of_le (slice 0 2 value) in
    (0, bt_mesh_comp_provision ext primary_addr
          (set_dev_key (slice 2 16 value) st)).

Definition iv_set_bin (value : bytes) (st : mesh) : Z * mesh :=
  if (length value =? 0)%nat then
    (0, atomic_clear_bit BT_MESH_IVU_IN_PROGRESS (set_iv_index 0 st))
  else if negb (length value =? 5)%nat then (- EINVAL, st)
  else
    let iv_update := bits 0 1 (byte_at value 4) in
    let iv_duration := bits 1 7 (byte_at value 4) in
    (0, set_ivu_duration iv_duration
          (atomic_set_bit_to BT_MESH_IVU_IN_PROGRESS (negb (iv_update =? 0))
             (set_iv_index (of_le (slice 0 4 value)) st))).

Definition rpl_find (src : Z) (st : mesh) : option nat :=
  find_index (fun e => rpl_src e =? src) (rpl st).

Definition rpl_set_src (src : Z) (e : bt_mesh_rpl) : bt_mesh_rpl :=
  {| rpl_src := src; rpl_old_iv := rpl_old_iv e; rpl_store := rpl_store e;
     rpl_seq := rpl_seq e |}.

Definition rpl_alloc (src : Z) (st : mesh) : option nat * mesh :=
  match find_index (fun e => rpl_src e =? 0) (rpl st) with
  | Some i => (Some i, set_rpl (alter (rpl_set_src src) i (rpl st)) st)
  | None => (None, st)
  end.

Definition rpl_zero : bt_mesh_rpl :=
  {| rpl_src := 0; rpl_old_iv := false; rpl_store := false; rpl_seq := 0 |}.

Definition rpl_restore (unit : Z) (e : bt_mesh_rpl) : bt_mesh_rpl :=
  {| rpl_src := rpl_src e; rpl_old_iv := negb (bits 24 1 unit =? 0);
     rpl_store := rpl_store e; rpl_seq := bits 0 24 unit |}.

Definition rpl_set_bin (key : string) (value : bytes) (st : mesh) : Z * mesh :=
  let src := u16 (strtol16 (string_drop 4 key)) in
  let entry := rpl_find src st in
  if (length value =? 0)%nat then
    match entry with
    | Some i => (0, set_rpl (<[i := rpl_zero]> (rpl st)) st)
    | None => (0, st)
    end
  else
    let '(entry, st) :=
      match entry with
      | Some i => (Some i, st)
      | None => rpl_alloc src st
      end in
    match entry with
    | None => (- ENOMEM, st)
    | Some i =>
        if negb (length value =? 4)%nat then (- EINVAL, st)
        else (0, set_rpl (alter (rpl_restore (of_le value)) i (rpl st)) st)
    end.

Definition sk_set_net (net : bytes) (k : subnet_keys) : subnet_keys :=
  {| sk_net := net; sk_derived := sk_derived k |}.

(** The assignments both branches of [net_key_set_bin] make to a subnet. *)
Definition subnet_restore (idx : Z) (b0 : Z) (v0 v1 : bytes) (s : bt_mesh_subnet)
  : bt_mesh_subnet :=
  {| net_idx := idx; kr_flag := negb (bits 0 1 b0 =? 0);
     kr_phase := bits 1 7 b0; node_id := node_id s;
     keys0 := sk_set_net v0 (keys0 s); keys1 := sk_set_net v1 (keys1 s) |}.

Definition net_key_set_bin (key_value : string) (value : bytes) (st : mesh)
  : Z * mesh :=
  let idx := u16 (strtol16 (string_drop 7 key_value)) in
  let sub_ := bt_mesh_subnet_get ext idx (sub st) in
  if (length value =? 0)%nat then
    match sub_ with
    | None => (- ENOENT, st)
    | Some i => (0, bt_mesh_subnet_del ext i st)
    end
  else if negb (length value =? 33)%nat then (- EINVAL, st)
  else
    let b0 := byte_at value 0 in
    let v0 := slice 1 16 value in
    let v1 := slice 17 16 value in
    match sub_ with
    | Some i =>
        (0, set_sub (alter (fun s => subnet_restore (net_idx s) b0 v0 v1 s) i
                       (sub st)) st)
    | None =>
        match find_index (fun s => net_idx s =? BT_MESH_KEY_UNUSED cfg) (sub st) with
        | None => (- ENOMEM, st)
        | Some i =>
            (0, set_sub (alter (subnet_restore idx b0 v0 v1) i (sub st)) st)
        end
    end.

Definition app_key_restore (net app : Z) (upd : Z) (v0 v1 : bytes)
  : bt_mesh_app_key :=
  {| ak_net_idx := net; ak_app_idx := app; ak_updated := upd;
     ak_val0 := v0; ak_id0 := bt_mesh_app_id ext v0;
     ak_val1 := v1; ak_id1 := bt_mesh_app_id ext v1 |}.

Definition app_key_set_bin (key_value : string) (value : bytes) (st : mesh)
  : Z * mesh :=
  let app_idx := u16 (strtol16 (string_drop 7 key_value)) in
  if (length value =? 0)%nat then
    match bt_mesh_app_key_find ext app_idx (app_keys st) with
    | Some i => (0, bt_mesh_app_key_del ext i st)
    | None => (0, st)
    end
  else if negb (length value =? 35)%nat then (- EINVAL, st)
  else
    let app :=
      match bt_mesh_app_key_find ext app_idx (app_keys st) with
      | Some i => Some i
      | None => bt_mesh_app_key_alloc ext app_idx (app_keys st)
      end in
    match app with
    | None => (- ENOMEM, st)
    | Some i =>
        (0, set_app_keys
              (<[i := app_key_restore (of_le (slice 0 2 value)) app_idx
                        (byte_at value 2)
                        (slice 3 16 value) (slice 19 16 value)]>
                 (app_keys st)) st)
    end.

Definition hb_pub_set_bin (value : bytes) (st : mesh) : Z * mesh :=
  match hb_pub st with
  | None => (- ENOENT, st)
  | Some pub =>
      if (length value =? 0)%nat then
        (0, set_hb_pub
              (Some {| hb_dst := BT_MESH_ADDR_UNASSIGNED cfg; hb_count := 0;
                       hb_period := 0; hb_ttl := 0; hb_feat := 0;
                       hb_net_idx := hb_net_idx pub |}) st)
      else if negb (length value =? 8)%nat then (- EINVAL, st)
      else
        let unit := of_le (slice 6 2 value) in
        (0, set_hb_pub
              (Some {| hb_dst := of_le (slice 0 2 value);
                       hb_count := if negb (bits 12 1 unit =? 0) then 65535 else 0;
                       hb_period := byte_at value 2;
                       hb_ttl := byte_at value 3;
                       hb_feat := of_le (slice 4 2 value);
                       hb_net_idx := bits 0 12 unit |}) st)
  end.

Definition cfg_val_of_bytes (b : bytes) : cfg_val :=
  {| net_transmit := byte_at b 0; relay := byte_at b 1;
     relay_retransmit := byte_at b 2; beacon := byte_at b 3;
     gatt_proxy := byte_at b 4; frnd := byte_at b 5;
     default_ttl := byte_at b 6 |}.

Definition cfg_set_bin (value : bytes) (st : mesh) : Z * mesh :=
  match cfg_srv st with
  | None => (- ENOENT, st)
  | Some _ =>
      if (length value =? 0)%nat then (0, set_stored_cfg_valid false st)
      else if negb (length value =? 7)%nat then (- EINVAL, st)
      else (0, set_stored_cfg_valid true
                 (set_stored_cfg_cfg (cfg_val_of_bytes value) st))
  end.
(** *** Model records *)

Definition mod_set_keys (k : list Z) (m : bt_mesh_model) : bt_mesh_model :=
  {| mod_vnd := mod_vnd m; mod_elem_idx := mod_elem_idx m; mod_idx := mod_idx m;
     mod_flags := mod_flags m; mod_keys := k; mod_groups := mod_groups m;
     mod_pub := mod_pub m; mod_cb_settings_set := mod_cb_settings_set m;
     mod_cb_settings_commit := mod_cb_settings_commit m |}.

Definition mod_set_groups (g : list Z) (m : bt_mesh_model) : bt_mesh_model :=
  {| mod_vnd := mod_vnd m; mod_elem_idx := mod_elem_idx m; mod_idx := mod_idx m;
     mod_flags := mod_flags m; mod_keys := mod_keys m; mod_groups := g;
     mod_pub := mod_pub m; mod_cb_settings_set := mod_cb_settings_set m;
     mod_cb_settings_commit := mod_cb_settings_commit m |}.

Definition mod_set_pub (p : option bt_mesh_model_pub) (m : bt_mesh_model)
  : bt_mesh_model :=
  {| mod_vnd := mod_vnd m; mod_elem_idx := mod_elem_idx m; mod_idx := mod_idx m;
     mod_flags := mod_flags m; mod_keys := mod_keys m; mod_groups := mod_groups m;
     mod_pub := p; mod_cb_settings_set := mod_cb_settings_set m;
     mod_cb_settings_commit := mod_cb_settings_commit m |}.

Definition mod_set_flags (f : Z) (m : bt_mesh_model) : bt_mesh_model :=
  {| mod_vnd := mod_vnd m; mod_elem_idx := mod_elem_idx m; mod_idx := mod_idx m;
     mod_flags := f; mod_keys := mod_keys m; mod_groups := mod_groups m;
     mod_pub := mod_pub m; mod_cb_settings_set := mod_cb_settings_set m;
     mod_cb_settings_commit := mod_cb_settings_commit m |}.

(** The decoders get a pointer to the model; here they return the model's
    new content.  The array is reset and the payload copied over it with
    [memcpy(mod->keys, val, val_len)], which nothing bounds: a payload that
    fits overwrites the front of the array, a longer one runs over its
    end. *)
Definition mod_set_bind_bin (val : bytes) (m : bt_mesh_model) : Z * bt_mesh_model :=
  let cleared := replicate (length (mod_keys m)) (BT_MESH_KEY_UNUSED cfg) in
  if (length val =? 0)%nat then (0, mod_set_keys cleared m)
  else if (length val <=? 2 * length (mod_keys m))%nat then
    (0, mod_set_keys
          (bytes_to_u16s (memcpy_into (u16s_to_bytes cleared) val)) m)
  else (0, mod_keys_overrun ext val (mod_set_keys cleared m)).

Definition mod_set_sub_bin (val : bytes) (m : bt_mesh_model) : Z * bt_mesh_model :=
  let cleared := replicate (length (mod_groups m)) 0 in
  if (length val =? 0)%nat then (0, mod_set_groups cleared m)
  else if (length val <=? 2 * length (mod_groups m))%nat then
    (0, mod_set_groups
          (bytes_to_u16s (memcpy_into (u16s_to_bytes cleared) val)) m)
  else (0, mod_groups_overrun ext val (mod_set_groups cleared m)).

Definition mod_set_pub_bin (val : bytes) (m : bt_mesh_model) : Z * bt_mesh_model :=
  match mod_pub m with
  | None => (- EINVAL, m)
  | Some p =>
      if (length val =? 0)%nat then
        (0, mod_set_pub
              (Some {| pub_addr := BT_MESH_ADDR_UNASSIGNED cfg; pub_key := 0;
                       pub_ttl := 0; pub_retransmit := 0; pub_period := 0;
                       pub_period_div := pub_period_div p; pub_cred := 0;
                       pub_count := 0; pub_update := pub_update p |}) m)
      else if negb (length val =? 8)%nat then (- EINVAL, m)
      else
        (0, mod_set_pub
              (Some {| pub_addr := of_le (slice 0 2 val);
                       pub_key := of_le (slice 2 2 val);
                       pub_ttl := byte_at val 4;
                       pub_retransmit := byte_at val 5;
                       pub_period := byte_at val 6;
                       pub_period_div := pub_period_div p;
                       pub_cred := bits 4 1 (byte_at val 7);
                       pub_count := 0; pub_update := pub_update p |}) m)
  end.

(** Run a decoder on model [i] in place. *)
Definition on_model (i : nat) (f : bt_mesh_model -> Z * bt_mesh_model)
    (st : mesh) : Z * mesh :=
  match models st !! i with
  | Some m => let '(r, m') := f m in (r, set_models (<[i := m']> (models st)) st)
  | None => (- ENOENT, st)
  end.

Definition mod_set_bin (vnd : bool) (key_value : string) (value : bytes)
    (st : mesh) : Z * mesh :=
  let mod_key := u16 (strtol16 (string_drop 2 key_value)) in
  let elem_idx := u8 (Z.shiftr mod_key 8) in
  let mod_idx := u8 mod_key in
  match bt_mesh_model_get ext vnd elem_idx mod_idx (models st) with
  | None => (- ENOENT, st)
  | Some i =>
      if contains "bind" key_value then on_model i (mod_set_bind_bin value) st
      else if contains "sub" key_value then on_model i (mod_set_sub_bin value) st
      else if contains "pub" key_value then on_model i (mod_set_pub_bin value) st
      else if contains "data" key_value then
        let st1 :=
          set_models
            (alter (fun m => mod_set_flags
                      (Z.lor (mod_flags m) (BT_MESH_MOD_DATA_PRESENT cfg)) m)
               i (models st)) st in
        match models st !! i with
        | Some m =>
            if mod_cb_settings_set m then
              (mod_settings_set ext i value, emit (ModSettingsSet i value) st1)
            else (- ENOENT, st1)
        | None => (- ENOENT, st1)
        end
      else (- ENOENT, st)
  end.

Definition sig_mod_set_bin := mod_set_bin false.
Definition vnd_mod_set_bin := mod_set_bin true.

(** *** Virtual address labels and managed nodes *)

(** Modelled from the spec: [get_label] belongs to the configuration server
    and is not in the file.  It is taken to return the label slot with the
    given index and NULL past the last slot, the way the loop of
    [store_pending_va] relies on it. *)
Definition get_label (index : Z) (st : mesh) : option nat :=
  if (Z.to_nat index <? length (labels st))%nat then Some (Z.to_nat index) else None.

Definition va_set_bin (key_value : string) (value : bytes) (st : mesh) : Z * mesh :=
  let index := u16 (strtol16 (string_drop 3 key_value)) in
  if (length value =? 0)%nat then (0, st)
  else if negb (length value =? 20)%nat then (- EINVAL, st)
  else
    let ref := of_le (slice 0 2 value) in
    if ref =? 0 then (0, st)
    else
      match get_label index st with
      | None => (- ENOBUFS, st)
      | Some i =>
          (0, set_labels
                (alter (fun l => {| lab_ref := ref;
                                    lab_addr := of_le (slice 2 2 value);
                                    lab_uuid := slice 4 16 value;
                                    lab_changed := lab_changed l |})
                   i (labels st)) st)
      end.

Definition node_set_dev_key (k : bytes) (n : bt_mesh_node) : bt_mesh_node :=
  {| node_addr := node_addr n; node_net_idx := node_net_idx n;
     node_num_elem := node_num_elem n; node_dev_key := k |}.

Definition node_set_bin (key_value : string) (value : bytes) (st : mesh)
  : Z * mesh :=
  let addr := u16 (strtol16 (string_drop 5 key_value)) in
  if (length value =? 0)%nat then
    match bt_mesh_node_find ext addr (nodes st) with
    | Some i => (0, bt_mesh_node_del ext i st)
    | None => (0, st)
    end
  else if negb (length value =? 19)%nat then (- EINVAL, st)
  else
    let '(node, st) :=
      match bt_mesh_node_find ext addr (nodes st) with
      | Some i => (Some i, st)
      | None => bt_mesh_node_alloc ext addr (byte_at value 18)
                  (of_le (slice 0 2 value)) st
      end in
    match node with
    | None => (- ENOMEM, st)
    | Some i =>
        (0, set_nodes (alter (node_set_dev_key (slice 2 16 value)) i (nodes st)) st)
    end.

(** *** Dispatch and scan *)

Definition handler := string -> bytes -> mesh -> Z * mesh.

Definition settings : list (string * handler) :=
  [ ("Net"%string, fun _ => net_set_bin);
    ("IV"%string, fun _ => iv_set_bin);
    ("Seq"%string, fun _ => seq_set_bin);
    ("RPL"%string, rpl_set_bin);
    ("NetKey"%string, net_key_set_bin);
    ("AppKey"%string, app_key_set_bin);
    ("HBPub"%string, fun _ => hb_pub_set_bin);
    ("Cfg"%string, fun _ => cfg_set_bin);
    ("s"%string, sig_mod_set_bin);
    ("v"%string, vnd_mod_set_bin);
    ("Role"%string, fun _ => role_set_bin) ]
  ++ (if 0 <? CONFIG_BT_MESH_LABEL_COUNT cfg
      then [("Va"%string, va_set_bin : handler)] else [])
  ++ (if CONFIG_BT_MESH_PROVISIONER cfg
      then [("Node"%string, node_set_bin : handler)] else []).

Fixpoint dispatch (tbl : list (string * handler)) (tmp_key key : string)
    (value : bytes) (st : mesh) : Z * mesh :=
  match tbl with
  | [] => (- ENOENT, st)
  | (name, func) :: r =>
      if String.eqb name tmp_key then func key value st
      else dispatch r tmp_key key value st
  end.

Definition mesh_set_bin (key : string) (value : bytes) (st : mesh) : Z * mesh :=
  dispatch settings (chop_slash key) key value st.

(** [conf_load]: [tls_mesh_store_retrieve] hands out the records [recs] one
    by one (each call returning a positive value) and then returns [last],
    zero at the end of the store and negative when the area is invalid. *)
Fixpoint conf_load (recs : list (string * bytes)) (last : Z) (st : mesh)
  : Z * mesh :=
  match recs with
  | [] => (last, st)
  | (key, value) :: r => conf_load r last (snd (mesh_set_bin key value st))
  end.
(** ** Commit phase *)

Definition sk_zero : subnet_keys := {| sk_net := zeros 16; sk_derived := None |}.

Definition sk_set_derived (d : bytes) (k : subnet_keys) : subnet_keys :=
  {| sk_net := sk_net k; sk_derived := Some d |}.

Definition subnet_set_keys (k0 k1 : subnet_keys) (s : bt_mesh_subnet)
  : bt_mesh_subnet :=
  {| net_idx := net_idx s; kr_flag := kr_flag s; kr_phase := kr_phase s;
     node_id := node_id s; keys0 := k0; keys1 := k1 |}.

Definition subnet_set_node_id (v : Z) (s : bt_mesh_subnet) : bt_mesh_subnet :=
  {| net_idx := net_idx s; kr_flag := kr_flag s; kr_phase := kr_phase s;
     node_id := v; keys0 := keys0 s; keys1 := keys1 s |}.

(** [subnet_init] on [bt_mesh.sub[i]]: the error code, the subnet afterwards
    and whether the beacon data was refreshed. *)
Definition subnet_init (s : bt_mesh_subnet) : Z * bt_mesh_subnet * bool :=
  match bt_mesh_net_keys_create ext (sk_net (keys0 s)) with
  | None => (- EIO, s, false)
  | Some d0 =>
      let s1 := subnet_set_keys (sk_set_derived d0 (keys0 s)) (keys1 s) s in
      let second :=
        if negb (kr_phase s1 =? BT_MESH_KR_NORMAL cfg) then
          match bt_mesh_net_keys_create ext (sk_net (keys1 s1)) with
          | None => inl (subnet_set_keys sk_zero (keys1 s1) s1)
          | Some d1 =>
              inr (subnet_set_keys (keys0 s1) (sk_set_derived d1 (keys1 s1)) s1)
          end
        else inr s1 in
      match second with
      | inl s2 => (- EIO, s2, false)
      | inr s2 =>
          (0, subnet_set_node_id
                (if CONFIG_BT_MESH_GATT_PROXY cfg
                 then BT_MESH_NODE_IDENTITY_STOPPED cfg
                 else BT_MESH_NODE_IDENTITY_NOT_SUPPORTED cfg) s2, true)
      end
  end.

(** The subnet loop of [mesh_commit], from index [i] on. *)
Fixpoint commit_subnets (i : nat) (todo : list bt_mesh_subnet) (st : mesh) : mesh :=
  match todo with
  | [] => st
  | s :: r =>
      if net_idx s =? BT_MESH_KEY_UNUSED cfg then commit_subnets (S i) r st
      else
        let '(_, s', beacon) := subnet_init s in
        let st1 := set_sub (<[i := s']> (sub st)) st in
        commit_subnets (S i) r
          (if beacon then emit (NetBeaconUpdate i) st1 else st1)
  end.

Definition commit_mod (i : nat) (m : bt_mesh_model) (st : mesh) : mesh :=
  let st1 :=
    match mod_pub m with
    | Some p =>
        if pub_update p && negb (pub_addr p =? BT_MESH_ADDR_UNASSIGNED cfg) then
          let ms := bt_mesh_model_pub_period_get ext m in
          if negb (ms =? 0) then emit (DelayedWorkSubmit (MOD_PUB_TIMER i) ms) st
          else st
        else st
    | None => st
    end in
  if mod_cb_settings_commit m then emit (ModSettingsCommit i) st1 else st1.

(** [bt_mesh_model_foreach(commit_mod, NULL)]. *)
Fixpoint foreach_commit_mod (i : nat) (ms : list bt_mesh_model) (st : mesh) : mesh :=
  match ms with
  | [] => st
  | m :: r => foreach_commit_mod (S i) r (commit_mod i m st)
  end.

Definition mesh_commit (st : mesh) : Z * mesh :=
  if default (BT_MESH_KEY_UNUSED cfg) (net_idx <$> sub st !! 0%nat)
       =? BT_MESH_KEY_UNUSED cfg
  then (0, st)
  else
    let st := if CONFIG_BT_MESH_PB_GATT cfg then emit ProxyProvDisable st else st in
    let st := commit_subnets 0 (sub st) st in
    let st :=
      if ivu_duration st <? BT_MESH_IVU_MIN_HOURS cfg
      then emit (DelayedWorkSubmit IVU_TIMER (BT_MESH_IVU_TIMEOUT cfg)) st
      else st in
    let st := foreach_commit_mod 0 (models st) st in
    let st :=
      match hb_pub st with
      | Some p =>
          if negb (hb_dst p =? BT_MESH_ADDR_UNASSIGNED cfg) &&
             negb (hb_count p =? 0) && negb (hb_period p =? 0)
          then emit (WorkSubmit HB_PUB_TIMER) st
          else st
      | None => st
      end in
    let st :=
      match cfg_srv st with
      | Some _ =>
          if stored_cfg_valid st then set_cfg_srv (Some (stored_cfg_cfg st)) st
          else st
      | None => st
      end in
    let st := atomic_set_bit BT_MESH_VALID st in
    let st :=
      if negb (atomic_test_bit st BT_MESH_PROVISIONER) then emit NetStart st
      else st in
    (0, st).

(** [bt_mesh_settings_load]: 0 on success, -2 when the role does not match,
    the code of the scan when the parameter area is unavailable. *)
Definition bt_mesh_settings_load (role_node : bool)
    (recs : list (string * bytes)) (last : Z) (st : mesh) : Z * mesh :=
  let '(err, st) := conf_load recs last st in
  if err =? 0 then
    if (atomic_test_bit st BT_MESH_NODE && role_node) ||
       (atomic_test_bit st BT_MESH_PROVISIONER && negb role_node)
    then (0, snd (mesh_commit st))
    else (-2, st)
  else (err, st).
(** ** Record encoders of the deferred flush

    Every encoder ends in [settings_save_one]; its result is only logged by
    the caller, so the encoders return the new state alone. *)

Definition save (path : string) (len : Z) (value : bytes) (st : mesh) : mesh :=
  snd (settings_save_one path len value st).

Definition clear_iv (st : mesh) : mesh := save "IV" 0 [] st.
Definition clear_net (st : mesh) : mesh := save "Net" 0 [] st.
Definition clear_cfg (st : mesh) : mesh := save "Cfg" 0 [] st.

(** The bytes of [struct net_val] as [store_pending_net] fills it. *)
Definition net_val_bytes (st : mesh) : bytes :=
  to_le 2 (dev_primary_addr st) ++ fit 16 (dev_key st).

Definition store_pending_net (st : mesh) : mesh :=
  save "Net" 18 (net_val_bytes st) st.

(** The bytes of [struct iv_val]: the index, then one byte with the update
    flag in bit 0 and the duration in bits 1 to 7. *)
Definition iv_val_bytes (st : mesh) : bytes :=
  let iv_update := bool_to_Z (atomic_test_bit st BT_MESH_IVU_IN_PROGRESS) in
  let unit := Z.lor iv_update (Z.shiftl (Z.land (ivu_duration st) 127) 1) in
  to_le 4 (iv_index st) ++ [unit].

Definition store_pending_iv (st : mesh) : mesh :=
  save "IV" 5 (iv_val_bytes st) st.

Definition seq_val_bytes (st : mesh) : bytes :=
  [u8 (seq st); u8 (Z.shiftr (seq st) 8); u8 (Z.shiftr (seq st) 16)].

Definition store_pending_seq (st : mesh) : mesh :=
  save "Seq" 3 (seq_val_bytes st) st.

(** The bytes of [struct rpl_val]: a 32-bit unit with the sequence number in
    bits 0 to 23 and the old-IV flag in bit 24; the struct is not cleared
    first, bits 25 to 31 keep what the stack held. *)
Definition rpl_val_bytes (junk : Z) (e : bt_mesh_rpl) : bytes :=
  let unit :=
    Z.lor (Z.lor (Z.land (rpl_seq e) 16777215)
                 (Z.shiftl (bool_to_Z (rpl_old_iv e)) 24))
          (Z.shiftl (Z.land junk 127) 25) in
  to_le 4 unit.

Definition store_rpl (e : bt_mesh_rpl) (st : mesh) : mesh :=
  save (String.append "RPL/" (fmt_x (rpl_src e))) 4
    (rpl_val_bytes (stack_junk ext (trace st)) e) st.

(** The loop of [clear_rpl] over the entries not yet visited; returns the
    entries as the loop leaves them. *)
Fixpoint clear_rpl_loop (todo : list bt_mesh_rpl) (st : mesh)
  : list bt_mesh_rpl * mesh :=
  match todo with
  | [] => ([], st)
  | e :: r =>
      if rpl_src e =? 0 then
        let '(r', st') := clear_rpl_loop r st in (e :: r', st')
      else
        let st1 := save (String.append "RPL/" (fmt_x (rpl_src e))) 0 [] st in
        let '(r', st') := clear_rpl_loop r st1 in (rpl_zero :: r', st')
  end.

Definition clear_rpl (st : mesh) : mesh :=
  let '(l, st') := clear_rpl_loop (rpl st) st in set_rpl l st'.

Definition rpl_set_store (b : bool) (e : bt_mesh_rpl) : bt_mesh_rpl :=
  {| rpl_src := rpl_src e; rpl_old_iv := rpl_old_iv e; rpl_store := b;
     rpl_seq := rpl_seq e |}.

Fixpoint store_pending_rpl_loop (todo : list bt_mesh_rpl) (st : mesh)
  : list bt_mesh_rpl * mesh :=
  match todo with
  | [] => ([], st)
  | e :: r =>
      if rpl_store e then
        let e1 := rpl_set_store false e in
        let '(r', st') := store_pending_rpl_loop r (store_rpl e1 st) in
        (e1 :: r', st')
      else
        let '(r', st') := store_pending_rpl_loop r st in (e :: r', st')
  end.

Definition store_pending_rpl (st : mesh) : mesh :=
  let '(l, st') := store_pending_rpl_loop (rpl st) st in set_rpl l st'.

Definition store_pending_role (st : mesh) : mesh :=
  if atomic_test_bit st BT_MESH_PROVISIONER then save "Role" 1 [2] st
  else if atomic_test_bit st BT_MESH_NODE then save "Role" 1 [1] st
  else st.

(** The eight bytes of [struct hb_pub_val] for an assigned destination: the
    last two hold the 12-bit NetKey index and, in bit 12, the indefinite
    flag; bits 13 to 15 keep what the stack held. *)
Definition hb_pub_val_bytes (junk : Z) (pub : bt_mesh_hb_pub) : bytes :=
  let indefinite := bool_to_Z (hb_count pub =? 65535) in
  let unit :=
    Z.lor (Z.lor (Z.land (hb_net_idx pub) 4095) (Z.shiftl indefinite 12))
          (Z.shiftl (Z.land junk 7) 13) in
  to_le 2 (hb_dst pub) ++ [u8 (hb_period pub); u8 (hb_ttl pub)]
    ++ to_le 2 (hb_feat pub) ++ to_le 2 unit.

Definition store_pending_hb_pub (st : mesh) : mesh :=
  match hb_pub st with
  | None => st
  | Some pub =>
      let val :=
        if hb_dst pub =? BT_MESH_ADDR_UNASSIGNED cfg then zeros 8
        else hb_pub_val_bytes (stack_junk ext (trace st)) pub in
      save "HBPub" 8 val st
  end.

Definition cfg_val_bytes (c : cfg_val) : bytes :=
  [u8 (net_transmit c); u8 (relay c); u8 (relay_retransmit c); u8 (beacon c);
   u8 (gatt_proxy c); u8 (frnd c); u8 (default_ttl c)].

Definition store_pending_cfg (st : mesh) : mesh :=
  match cfg_srv st with
  | None => st
  | Some c => save "Cfg" 7 (cfg_val_bytes c) st
  end.

Definition clear_app_key (app_idx : Z) (st : mesh) : mesh :=
  save (String.append "AppKey/" (fmt_x app_idx)) 0 [] st.

Definition clear_net_key (idx : Z) (st : mesh) : mesh :=
  save (String.append "NetKey/" (fmt_x idx)) 0 [] st.

(** The bytes of [struct net_key_val]: one byte with the key-refresh flag
    in bit 0 and the phase in bits 1 to 7, then the two keys. *)
Definition net_key_val_bytes (s : bt_mesh_subnet) : bytes :=
  let unit := Z.lor (bool_to_Z (kr_flag s)) (Z.shiftl (Z.land (kr_phase s) 127) 1) in
  unit :: fit 16 (sk_net (keys0 s)) ++ fit 16 (sk_net (keys1 s)).

Definition store_net_key (s : bt_mesh_subnet) (st : mesh) : mesh :=
  save (String.append "NetKey/" (fmt_x (net_idx s))) 33 (net_key_val_bytes s) st.

Definition app_key_val_bytes (a : bt_mesh_app_key) : bytes :=
  to_le 2 (ak_net_idx a) ++ [u8 (ak_updated a)]
    ++ fit 16 (ak_val0 a) ++ fit 16 (ak_val1 a).

Definition store_app_key (a : bt_mesh_app_key) (st : mesh) : mesh :=
  save (String.append "AppKey/" (fmt_x (ak_app_idx a))) 35 (app_key_val_bytes a) st.

Definition ku_invalidate (u : key_update) : key_update :=
  {| ku_key_idx := ku_key_idx u; ku_valid := false; ku_app_key := ku_app_key u;
     ku_clear := ku_clear u |}.

(** The body of the loop of [store_pending_keys] for a valid entry. *)
Definition flush_key_update (u : key_update) (st : mesh) : mesh :=
  if ku_clear u then
    if ku_app_key u then clear_app_key (ku_key_idx u) st
    else clear_net_key (ku_key_idx u) st
  else if ku_app_key u then
    match bt_mesh_app_key_find ext (ku_key_idx u) (app_keys st) with
    | Some i =>
        match app_keys st !! i with
        | Some a => store_app_key a st
        | None => st
        end
    | None => st
    end
  else
    match bt_mesh_subnet_get ext (ku_key_idx u) (sub st) with
    | Some i =>
        match sub st !! i with
        | Some s => store_net_key s st
        | None => st
        end
    | None => st
    end.

Fixpoint store_pending_keys_loop (todo : list key_update) (st : mesh)
  : list key_update * mesh :=
  match todo with
  | [] => ([], st)
  | u :: r =>
      if negb (ku_valid u) then
        let '(r', st') := store_pending_keys_loop r st in (u :: r', st')
      else
        let '(r', st') := store_pending_keys_loop r (flush_key_update u st) in
        (ku_invalidate u :: r', st')
  end.

Definition store_pending_keys (st : mesh) : mesh :=
  let '(l, st') := store_pending_keys_loop (key_updates st) st in
  set_key_updates l st'.

Definition node_val_bytes (n : bt_mesh_node) : bytes :=
  to_le 2 (node_net_idx n) ++ fit 16 (node_dev_key n) ++ [u8 (node_num_elem n)].

Definition store_node (n : bt_mesh_node) (st : mesh) : mesh :=
  save (String.append "Node/" (fmt_x (node_addr n))) 19 (node_val_bytes n) st.

Definition clear_node (addr : Z) (st : mesh) : mesh :=
  save (String.append "Node/" (fmt_x addr)) 0 [] st.

Definition nu_set_addr (a : Z) (u : node_update) : node_update :=
  {| nu_addr := a; nu_clear := nu_clear u |}.

Definition nu_set_clear (c : bool) (u : node_update) : node_update :=
  {| nu_addr := nu_addr u; nu_clear := c |}.

Fixpoint store_pending_nodes_loop (todo : list node_update) (st : mesh)
  : list node_update * mesh :=
  match todo with
  | [] => ([], st)
  | u :: r =>
      if nu_addr u =? BT_MESH_ADDR_UNASSIGNED cfg then
        let '(r', st') := store_pending_nodes_loop r st in (u :: r', st')
      else
        let st1 :=
          if nu_clear u then clear_node (nu_addr u) st
          else
            match bt_mesh_node_find ext (nu_addr u) (nodes st) with
            | Some i =>
                match nodes st !! i with
                | Some n => store_node n st
                | None => st
                end
            | None => st
            end in
        let '(r', st') := store_pending_nodes_loop r st1 in
        (nu_set_addr (BT_MESH_ADDR_UNASSIGNED cfg) u :: r', st')
  end.

Definition store_pending_nodes (st : mesh) : mesh :=
  let '(l, st') := store_pending_nodes_loop (node_updates st) st in
  set_node_updates l st'.
(** The scan of [node_update_find] from entry [i] on; [acc] holds the match
    and the free slot found so far. *)
Fixpoint node_update_scan (addr : Z) (i : nat) (todo : list node_update)
    (acc : option nat * option nat) : option nat * option nat :=
  match todo with
  | [] => acc
  | u :: r =>
      node_update_scan addr (S i) r
        (if nu_addr u =? BT_MESH_ADDR_UNASSIGNED cfg then (fst acc, Some i)
         else if nu_addr u =? addr then (Some i, snd acc)
         else acc)
  end.

(** [node_update_find]: the matching entry and [*free_slot], each the last
    one the scan meets. *)
Definition node_update_find (addr : Z) (st : mesh) : option nat * option nat :=
  node_update_scan addr 0 (node_updates st) (None, None).

(** *** Models *)

Definition encode_mod_path (m : bt_mesh_model) (vnd : bool) (key : string)
  : string :=
  let mod_key := u16 (Z.lor (Z.shiftl (mod_elem_idx m) 8) (mod_idx m)) in
  String.append (if vnd then "v/" else "s/")
    (String.append (fmt_x mod_key) (String.append "/" key)).

Definition store_pending_mod_bind (m : bt_mesh_model) (vnd : bool) (st : mesh)
  : mesh :=
  let keys :=
    filter (fun k => k <> BT_MESH_KEY_UNUSED cfg) (mod_keys m) in
  save (encode_mod_path m vnd "bind") (Z.of_nat (length keys) * 2)
    (u16s_to_bytes keys) st.

Definition store_pending_mod_sub (m : bt_mesh_model) (vnd : bool) (st : mesh)
  : mesh :=
  let n := length (mod_groups m) in
  let groups :=
    take n (filter (fun g => g <> BT_MESH_ADDR_UNASSIGNED cfg) (mod_groups m)
              ++ replicate n 0) in
  save (encode_mod_path m vnd "sub") (Z.of_nat n * 2) (u16s_to_bytes groups) st.

Definition mod_pub_val_bytes (junk : Z) (p : bt_mesh_model_pub) : bytes :=
  let unit :=
    Z.lor (Z.lor (Z.land (pub_period_div p) 15)
                 (Z.shiftl (Z.land (pub_cred p) 1) 4))
          (Z.shiftl (Z.land junk 7) 5) in
  to_le 2 (pub_addr p) ++ to_le 2 (pub_key p)
    ++ [u8 (pub_ttl p); u8 (pub_retransmit p); u8 (pub_period p); unit].

Definition store_pending_mod_pub (m : bt_mesh_model) (vnd : bool) (st : mesh)
  : mesh :=
  let val :=
    match mod_pub m with
    | Some p =>
        if pub_addr p =? BT_MESH_ADDR_UNASSIGNED cfg then zeros 8
        else mod_pub_val_bytes (stack_junk ext (trace st)) p
    | None => zeros 8
    end in
  save (encode_mod_path m vnd "pub") 8 val st.

(** [store_pending_mod] on one model: its new flags and the writes. *)
Definition store_pending_mod (m : bt_mesh_model) (st : mesh)
  : bt_mesh_model * mesh :=
  if mod_flags m =? 0 then (m, st)
  else
    let vnd := mod_vnd m in
    let '(m, st) :=
      if negb (Z.land (mod_flags m) (BT_MESH_MOD_BIND_PENDING cfg) =? 0) then
        let m1 := mod_set_flags
                    (Z.land (mod_flags m) (Z.lnot (BT_MESH_MOD_BIND_PENDING cfg))) m in
        (m1, store_pending_mod_bind m1 vnd st)
      else (m, st) in
    let '(m, st) :=
      if negb (Z.land (mod_flags m) (BT_MESH_MOD_SUB_PENDING cfg) =? 0) then
        let m1 := mod_set_flags
                    (Z.land (mod_flags m) (Z.lnot (BT_MESH_MOD_SUB_PENDING cfg))) m in
        (m1, store_pending_mod_sub m1 vnd st)
      else (m, st) in
    if negb (Z.land (mod_flags m) (BT_MESH_MOD_PUB_PENDING cfg) =? 0) then
      let m1 := mod_set_flags
                  (Z.land (mod_flags m) (Z.lnot (BT_MESH_MOD_PUB_PENDING cfg))) m in
      (m1, store_pending_mod_pub m1 vnd st)
    else (m, st).

(** [bt_mesh_model_foreach(store_pending_mod, NULL)]. *)
Fixpoint foreach_store_pending_mod (todo : list bt_mesh_model) (st : mesh)
  : list bt_mesh_model * mesh :=
  match todo with
  | [] => ([], st)
  | m :: r =>
      let '(m', st1) := store_pending_mod m st in
      let '(r', st') := foreach_store_pending_mod r st1 in
      (m' :: r', st')
  end.

Definition store_pending_models (st : mesh) : mesh :=
  let '(l, st') := foreach_store_pending_mod (models st) st in set_models l st'.

(** *** Virtual address labels *)

Definition lab_clear_changed (l : label) : label :=
  {| lab_ref := lab_ref l; lab_addr := lab_addr l; lab_uuid := lab_uuid l;
     lab_changed := false |}.

Definition va_val_bytes (l : label) : bytes :=
  to_le 2 (lab_ref l) ++ to_le 2 (lab_addr l) ++ fit 16 (lab_uuid l).

(** The loop of [store_pending_va] from label [i] on.  A changed label with
    a zero reference count is skipped without a write in this build. *)
Fixpoint store_pending_va_loop (i : nat) (todo : list label) (st : mesh)
  : list label * mesh :=
  match todo with
  | [] => ([], st)
  | l :: r =>
      if negb (lab_changed l) then
        let '(r', st') := store_pending_va_loop (S i) r st in (l :: r', st')
      else
        let st1 :=
          if lab_ref l =? 0 then st
          else
            save (String.append "Va/" (fmt_x (Z.of_nat i))) 20 (va_val_bytes l) st in
        let '(r', st') := store_pending_va_loop (S i) r st1 in
        (lab_clear_changed l :: r', st')
  end.

Definition store_pending_va (st : mesh) : mesh :=
  let '(l, st') := store_pending_va_loop 0 (labels st) st in set_labels l st'.

(** ** The deferred flush *)

(** One [if(atomic_test_and_clear_bit(...)) { ... }] block of
    [store_pending]. *)
Definition when_pending (f : mesh_flag) (body : mesh -> mesh) (st : mesh) : mesh :=
  let '(was, st1) := atomic_test_and_clear_bit f st in
  if was then body st1 else st1.

(** The body of a category that is stored only while the mesh is valid. *)
Definition store_or_clear (store clear : mesh -> mesh) (st : mesh) : mesh :=
  if atomic_test_bit st BT_MESH_VALID then store st else clear st.

Definition store_pending (st : mesh) : mesh :=
  let st := when_pending BT_MESH_RPL_PENDING
              (store_or_clear store_pending_rpl clear_rpl) st in
  let st := when_pending BT_MESH_KEYS_PENDING store_pending_keys st in
  let st := when_pending BT_MESH_NET_PENDING
              (store_or_clear store_pending_net clear_net) st in
  let st := when_pending BT_MESH_IV_PENDING
              (store_or_clear store_pending_iv clear_iv) st in
  let st := when_pending BT_MESH_SEQ_PENDING store_pending_seq st in
  let st := when_pending BT_MESH_HB_PUB_PENDING store_pending_hb_pub st in
  let st := when_pending BT_MESH_CFG_PENDING
              (store_or_clear store_pending_cfg clear_cfg) st in
  let st := when_pending BT_MESH_MOD_PENDING store_pending_models st in
  let st := when_pending BT_MESH_VA_PENDING store_pending_va st in
  let st := when_pending BT_MESH_ROLE_PENDING store_pending_role st in
  if CONFIG_BT_MESH_PROVISIONER cfg
  then when_pending BT_MESH_NODES_PENDING store_pending_nodes st
  else st.
(** ** Persistence API *)

Definition bt_mesh_store_net (st : mesh) : mesh :=
  schedule_store BT_MESH_NET_PENDING st.

Definition bt_mesh_store_iv (only_duration : bool) (st : mesh) : mesh :=
  let st := schedule_store BT_MESH_IV_PENDING st in
  if negb only_duration then schedule_store BT_MESH_SEQ_PENDING st else st.

Definition bt_mesh_store_role (st : mesh) : mesh :=
  schedule_store BT_MESH_ROLE_PENDING st.

(** [bt_mesh_store_rpl(&bt_mesh.rpl[i])]. *)
Definition bt_mesh_store_rpl (i : nat) (st : mesh) : mesh :=
  schedule_store BT_MESH_RPL_PENDING
    (set_rpl (alter (rpl_set_store true) i (rpl st)) st).

(** The scan of [key_update_find] from entry [i] on; [acc] holds the match
    and the free slot found so far. *)
Fixpoint key_update_scan (app_key : bool) (key_idx : Z) (i : nat)
    (todo : list key_update) (acc : option nat * option nat)
  : option nat * option nat :=
  match todo with
  | [] => acc
  | u :: r =>
      key_update_scan app_key key_idx (S i) r
        (if negb (ku_valid u) then (fst acc, Some i)
         else if negb (Bool.eqb (ku_app_key u) app_key) then acc
         else if ku_key_idx u =? key_idx then (Some i, snd acc)
         else acc)
  end.

(** [key_update_find]: the matching entry and [*free_slot], each the last
    one the scan meets. *)
Definition key_update_find (app_key : bool) (key_idx : Z) (st : mesh)
  : option nat * option nat :=
  key_update_scan app_key key_idx 0 (key_updates st) (None, None).

Definition ku_set_clear (c : bool) (u : key_update) : key_update :=
  {| ku_key_idx := ku_key_idx u; ku_valid := ku_valid u;
     ku_app_key := ku_app_key u; ku_clear := c |}.

(** The four assignments that populate a free slot; [key_idx] is a 12-bit
    field. *)
Definition ku_make (key_idx : Z) (app_key clear : bool) : key_update :=
  {| ku_key_idx := Z.land key_idx 4095; ku_valid := true;
     ku_app_key := app_key; ku_clear := clear |}.

(** What the four key functions share: coalesce into the matching entry,
    else run [direct] when no slot is free, else take the free slot. *)
Definition key_intent (app_key : bool) (key_idx : Z) (clear : bool)
    (direct : mesh -> mesh) (st : mesh) : mesh :=
  match key_update_find app_key key_idx st with
  | (Some i, _) =>
      schedule_store BT_MESH_KEYS_PENDING
        (set_key_updates (alter (ku_set_clear clear) i (key_updates st)) st)
  | (None, None) => direct st
  | (None, Some j) =>
      schedule_store BT_MESH_KEYS_PENDING
        (set_key_updates (<[j := ku_make key_idx app_key clear]> (key_updates st)) st)
  end.

Definition bt_mesh_store_subnet (s : bt_mesh_subnet) (st : mesh) : mesh :=
  key_intent false (net_idx s) false (store_net_key s) st.

Definition bt_mesh_store_app_key (a : bt_mesh_app_key) (st : mesh) : mesh :=
  key_intent true (ak_app_idx a) false (store_app_key a) st.

Definition bt_mesh_clear_subnet (s : bt_mesh_subnet) (st : mesh) : mesh :=
  key_intent false (net_idx s) true (clear_net_key (net_idx s)) st.

Definition bt_mesh_clear_app_key (a : bt_mesh_app_key) (st : mesh) : mesh :=
  key_intent true (ak_app_idx a) true (clear_app_key (ak_app_idx a)) st.

Definition bt_mesh_store_hb_pub (st : mesh) : mesh :=
  schedule_store BT_MESH_HB_PUB_PENDING st.

Definition bt_mesh_store_cfg (flush : bool) (st : mesh) : mesh :=
  if flush then store_pending_cfg st
  else schedule_store BT_MESH_CFG_PENDING st.

Definition bt_mesh_clear_net (st : mesh) : mesh :=
  schedule_store BT_MESH_CFG_PENDING
    (schedule_store BT_MESH_IV_PENDING
       (schedule_store BT_MESH_NET_PENDING st)).

Definition bt_mesh_clear_rpl (st : mesh) : mesh := clear_rpl st.

Definition bt_mesh_clear_seq (st : mesh) : mesh := set_seq 0 st.

(** [bt_mesh_store_mod_bind/sub/pub(mod)] on model [i], [pending] being the
    flag of the part that changed. *)
Definition bt_mesh_store_mod (pending : Z) (i : nat) (st : mesh) : mesh :=
  schedule_store BT_MESH_MOD_PENDING
    (set_models
       (alter (fun m => mod_set_flags (Z.lor (mod_flags m) pending) m) i
          (models st)) st).

Definition bt_mesh_store_mod_bind := bt_mesh_store_mod (BT_MESH_MOD_BIND_PENDING cfg).
Definition bt_mesh_store_mod_sub := bt_mesh_store_mod (BT_MESH_MOD_SUB_PENDING cfg).
Definition bt_mesh_store_mod_pub := bt_mesh_store_mod (BT_MESH_MOD_PUB_PENDING cfg).

Definition bt_mesh_store_label (st : mesh) : mesh :=
  schedule_store BT_MESH_VA_PENDING st.

(** [bt_mesh_store_node] and [bt_mesh_clear_node]; a free slot only gets the
    address, its [clear] flag stays as it was. *)
Definition node_intent (n : bt_mesh_node) (clear : bool) (direct : mesh -> mesh)
    (st : mesh) : mesh :=
  match node_update_find (node_addr n) st with
  | (Some i, _) =>
      schedule_store BT_MESH_NODES_PENDING
        (set_node_updates (alter (nu_set_clear clear) i (node_updates st)) st)
  | (None, None) => direct st
  | (None, Some j) =>
      schedule_store BT_MESH_NODES_PENDING
        (set_node_updates (alter (nu_set_addr (node_addr n)) j (node_updates st)) st)
  end.

Definition bt_mesh_store_node (n : bt_mesh_node) (st : mesh) : mesh :=
  node_intent n false (store_node n) st.

Definition bt_mesh_clear_node (n : bt_mesh_node) (st : mesh) : mesh :=
  node_intent n true (clear_node (node_addr n)) st.

(** [bt_mesh_model_data_store] on model [i]. *)
Definition bt_mesh_model_data_store (i : nat) (vnd : bool) (data : bytes)
    (st : mesh) : Z * mesh :=
  match models st !! i with
  | None => (0, st)
  | Some m =>
      let path := encode_mod_path m vnd "data" in
      let present := BT_MESH_MOD_DATA_PRESENT cfg in
      if negb (length data =? 0)%nat then
        settings_save_one path (Z.of_nat (length data)) data
          (set_models (<[i := mod_set_flags (Z.lor (mod_flags m) present) m]>
                         (models st)) st)
      else if negb (Z.land (mod_flags m) present =? 0) then
        settings_save_one path 0 []
          (set_models
             (<[i := mod_set_flags (Z.land (mod_flags m) (Z.lnot present)) m]>
                (models st)) st)
      else (0, st)
  end.

(** ** Life cycle *)

Definition bt_mesh_settings_init (st : mesh) : mesh :=
  emit StoreInit (emit (DelayedWorkInit PENDING_STORE_TIMER) st).

Definition bt_mesh_settings_deinit (st : mesh) : mesh :=
  emit StoreDeinit (emit (DelayedWorkDeinit PENDING_STORE_TIMER) st).

(** [bt_mesh_settings_clear]; [rc] is what [tls_mesh_store_erase] returns. *)
Definition bt_mesh_settings_clear (rc : Z) (st : mesh) : Z * mesh :=
  (rc, emit StoreErase st).

Definition bt_mesh_settings_flush (st : mesh) : mesh :=
  if conf_save_pending st then emit StoreFlush (set_conf_save_pending false st)
  else st.


(** ** The timeout policy in the words of the specification

    [pending c] tells whether category [c] is pending when [mark] runs. *)

Definition no_wait_pending (pending : mesh_flag -> bool) : bool :=
  pending BT_MESH_NET_PENDING || pending BT_MESH_IV_PENDING
  || pending BT_MESH_ROLE_PENDING.

Definition generic_pending (pending : mesh_flag -> bool) : bool :=
  pending BT_MESH_KEYS_PENDING || pending BT_MESH_HB_PUB_PENDING
  || pending BT_MESH_CFG_PENDING || pending BT_MESH_MOD_PENDING
  || pending BT_MESH_SEQ_PENDING || pending BT_MESH_NODES_PENDING.

Definition timeout_policy (pending : mesh_flag -> bool) : Z :=
  if no_wait_pending pending then 500
  else if pending BT_MESH_RPL_PENDING &&
          (negb (generic_pending pending) ||
           (CONFIG_BT_MESH_RPL_STORE_TIMEOUT cfg <? CONFIG_BT_MESH_STORE_TIMEOUT cfg))
  then K_SECONDS cfg (CONFIG_BT_MESH_RPL_STORE_TIMEOUT cfg)
  else K_SECONDS cfg (CONFIG_BT_MESH_STORE_TIMEOUT cfg).

(** ** Vocabulary of the statements *)

(** The events a run from [st] to [st'] added to the trace. *)
Definition trace_since (st st' : mesh) : list event :=
  drop (length (trace st)) (trace st').

Definition writes_to (path : string) (e : event) : bool :=
  match e with
  | StoreUpdate p _ _ => String.eqb p path
  | _ => false
  end.

(** The store key of a NetKey or an AppKey. *)
Definition key_path (app_key : bool) (idx : Z) : string :=
  String.append (if app_key then "AppKey/" else "NetKey/") (fmt_x idx).

(** A valid pending update for the given key. *)
Definition ku_matches (app_key : bool) (idx : Z) (u : key_update) : bool :=
  ku_valid u && Bool.eqb (ku_app_key u) app_key && (ku_key_idx u =? idx).

(** One record went to the store at once and nothing was scheduled: the
    flag word, the timer and both pending tables are as before. *)
Definition written_through (path : string) (keep : Z) (value : bytes)
    (st st' : mesh) : Prop :=
  trace st' = trace st ++ [StoreUpdate path keep value] /\
  flags st' = flags st /\
  pending_store st' = pending_store st /\
  key_updates st' = key_updates st /\
  node_updates st' = node_updates st.

(** A key as the key functions of the API receive it. *)
Inductive key_ref :=
| NetKeyRef (s : bt_mesh_subnet)
| AppKeyRef (a : bt_mesh_app_key).

Definition key_ref_app (r : key_ref) : bool :=
  match r with NetKeyRef _ => false | AppKeyRef _ => true end.

Definition key_ref_idx (r : key_ref) : Z :=
  match r with NetKeyRef s => net_idx s | AppKeyRef a => ak_app_idx a end.

Definition store_key (r : key_ref) (st : mesh) : mesh :=
  match r with
  | NetKeyRef s => bt_mesh_store_subnet s st
  | AppKeyRef a => bt_mesh_store_app_key a st
  end.

Definition clear_key (r : key_ref) (st : mesh) : mesh :=
  match r with
  | NetKeyRef s => bt_mesh_clear_subnet s st
  | AppKeyRef a => bt_mesh_clear_app_key a st
  end.

(** What the flush relies on from the key lookups of the network layer:
    the element they return carries the index that was asked for. *)
Definition lookup_by_index_ok : Prop :=
  (forall idx l k s,
     bt_mesh_subnet_get ext idx l = Some k -> l !! k = Some s -> net_idx s = idx) /\
  (forall idx l k a,
     bt_mesh_app_key_find ext idx l = Some k -> l !! k = Some a ->
     ak_app_idx a = idx).

(** What holds of the two results of [key_update_find] over the entries
    [pre] scanned so far: a reported match is a valid entry for the key, a
    reported free slot is an invalid entry. *)
Definition acc_ok (app_key : bool) (idx : Z) (pre : list key_update)
    (acc : option nat * option nat) : Prop :=
  (forall k, fst acc = Some k ->
     exists u, pre !! k = Some u /\ ku_matches app_key idx u = true) /\
  (forall j, snd acc = Some j ->
     exists u, pre !! j = Some u /\ ku_valid u = false).

(** The range of the 12-bit [key_idx] field. *)
Definition ku_wf (u : key_update) : Prop := 0 <= ku_key_idx u < 4096.

(** The entry the table holds for a key after an intent with flag [clear]. *)
Definition ku_entry (app_key : bool) (idx : Z) (clear : bool) : key_update :=
  {| ku_key_idx := idx; ku_valid := true; ku_app_key := app_key;
     ku_clear := clear |}.

(** A store write whose key starts with one of the prefixes [qs]. *)
Definition path_in (qs : list string) (e : event) : Prop :=
  exists p k v, e = StoreUpdate p k v /\ existsb (fun q => is_prefix q p) qs = true.

(** A step that leaves the values the network, IV and configuration records
    are built from as they were, and whose only calls out of the file are
    store writes under the prefixes [qs]. *)
Definition frames (qs : list string) (st st' : mesh) : Prop :=
  dev_primary_addr st' = dev_primary_addr st /\
  dev_key st' = dev_key st /\
  iv_index st' = iv_index st /\
  ivu_duration st' = ivu_duration st /\
  cfg_srv st' = cfg_srv st /\
  exists evs, trace st' = trace st ++ evs /\ Forall (path_in qs) evs.

Definition keeps (qs : list string) (st st' : mesh) : Prop :=
  flags st' = flags st /\ frames qs st st'.

Definition body_ok (qs : list string) (body : mesh -> mesh) : Prop :=
  forall st, keeps qs st (body st).

(** The blocks of [store_pending] in their order: the flag, the body, and
    the prefixes of the keys the body writes. *)
Definition store_blocks : list (mesh_flag * (mesh -> mesh) * list string) :=
  [ (BT_MESH_RPL_PENDING, store_or_clear store_pending_rpl clear_rpl,
     ["RPL/"%string]);
    (BT_MESH_KEYS_PENDING, store_pending_keys, ["AppKey/"%string; "NetKey/"%string]);
    (BT_MESH_NET_PENDING, store_or_clear store_pending_net clear_net,
     ["Net"%string]);
    (BT_MESH_IV_PENDING, store_or_clear store_pending_iv clear_iv, ["IV"%string]);
    (BT_MESH_SEQ_PENDING, store_pending_seq, ["Seq"%string]);
    (BT_MESH_HB_PUB_PENDING, store_pending_hb_pub, ["HBPub"%string]);
    (BT_MESH_CFG_PENDING, store_or_clear store_pending_cfg clear_cfg,
     ["Cfg"%string]);
    (BT_MESH_MOD_PENDING, store_pending_models, ["s/"%string; "v/"%string]);
    (BT_MESH_VA_PENDING, store_pending_va, ["Va/"%string]);
    (BT_MESH_ROLE_PENDING, store_pending_role, ["Role"%string]) ]
  ++ (if CONFIG_BT_MESH_PROVISIONER cfg
      then [(BT_MESH_NODES_PENDING, store_pending_nodes, ["Node/"%string])]
      else []).

Definition run_blocks (bs : list (mesh_flag * (mesh -> mesh) * list string))
    (st : mesh) : mesh :=
  foldl (fun s b => when_pending (fst (fst b)) (snd (fst b)) s) st bs.

(** A change confined to the arrays the flush updates in place. *)
Definition local_change (st st' : mesh) : Prop :=
  flags st' = flags st /\ dev_primary_addr st' = dev_primary_addr st /\
  dev_key st' = dev_key st /\ iv_index st' = iv_index st /\
  ivu_duration st' = ivu_duration st /\ cfg_srv st' = cfg_srv st /\
  trace st' = trace st.

(** A run that sends no write to the store key [P], keeps the values the
    network, IV and configuration records are built from, and changes no
    flag outside [cleared]. *)
Definition quiet (P : string) (cleared : list mesh_flag) (st st' : mesh) : Prop :=
  dev_primary_addr st' = dev_primary_addr st /\
  dev_key st' = dev_key st /\
  iv_index st' = iv_index st /\
  ivu_duration st' = ivu_duration st /\
  cfg_srv st' = cfg_srv st /\
  (forall g, g ∉ cleared -> atomic_test_bit st' g = atomic_test_bit st g) /\
  exists evs, trace st' = trace st ++ evs /\ List.filter (writes_to P) evs = [].

(** A block of the flush whose body is framed by its prefixes, none of which
    is a prefix of [P]. *)
Definition quiet_block (P : string) (b : mesh_flag * (mesh -> mesh) * list string)
  : Prop :=
  body_ok (snd b) (snd (fst b)) /\
  forallb (fun q => negb (is_prefix q P)) (snd b) = true.

(** The role test of [bt_mesh_settings_load] on the flags the scan left. *)
Definition role_matches (st : mesh) (role_node : bool) : bool :=
  (atomic_test_bit st BT_MESH_NODE && role_node) ||
  (atomic_test_bit st BT_MESH_PROVISIONER && negb role_node).

(** An event that arms a timer or submits timer work. *)
Definition arms_timer (e : event) : bool :=
  match e with
  | DelayedWorkSubmit _ _ | WorkSubmit _ => true
  | _ => false
  end.

(** ** Valid values of the records *)

Definition hb_pub_valid (pub : bt_mesh_hb_pub) : Prop :=
  hb_dst pub <> BT_MESH_ADDR_UNASSIGNED cfg /\
  0 <= hb_dst pub < 65536 /\ is_byte (hb_period pub) /\ is_byte (hb_ttl pub) /\
  0 <= hb_feat pub < 65536 /\ 0 <= hb_net_idx pub < 4096.

Definition iv_valid (st : mesh) : Prop :=
  0 <= iv_index st < 4294967296 /\ 0 <= ivu_duration st < 128.

Definition cfg_valid (c : cfg_val) : Prop :=
  is_byte (net_transmit c) /\ is_byte (relay c) /\ is_byte (relay_retransmit c) /\
  is_byte (beacon c) /\ is_byte (gatt_proxy c) /\ is_byte (frnd c) /\
  is_byte (default_ttl c).

Definition rpl_valid (e : bt_mesh_rpl) : Prop := 0 <= rpl_seq e < 16777216.

Definition subnet_valid (s : bt_mesh_subnet) : Prop :=
  0 <= kr_phase s < 128 /\
  length (sk_net (keys0 s)) = 16%nat /\ length (sk_net (keys1 s)) = 16%nat.

Definition label_valid (l : label) : Prop :=
  0 < lab_ref l < 65536 /\ 0 <= lab_addr l < 65536 /\
  length (lab_uuid l) = 16%nat.

(** The heartbeat publication, replay-protection entry, subnet and label a
    decoder leaves when it restores the encoding of [pub], [e], [s], [l]
    into an object that held [p0], [e0], [s0], [l0]. *)
Definition hb_pub_restored (pub : bt_mesh_hb_pub) : bt_mesh_hb_pub :=
  {| hb_dst := hb_dst pub;
     hb_count := if hb_count pub =? 65535 then 65535 else 0;
     hb_period := hb_period pub; hb_ttl := hb_ttl pub; hb_feat := hb_feat pub;
     hb_net_idx := hb_net_idx pub |}.

Definition rpl_restored (e e0 : bt_mesh_rpl) : bt_mesh_rpl :=
  {| rpl_src := rpl_src e0; rpl_old_iv := rpl_old_iv e;
     rpl_store := rpl_store e0; rpl_seq := rpl_seq e |}.

Definition subnet_restored (idx : Z) (s s0 : bt_mesh_subnet) : bt_mesh_subnet :=
  {| net_idx := idx; kr_flag := kr_flag s; kr_phase := kr_phase s;
     node_id := node_id s0;
     keys0 := sk_set_net (sk_net (keys0 s)) (keys0 s0);
     keys1 := sk_set_net (sk_net (keys1 s)) (keys1 s0) |}.

Definition label_restored (l l0 : label) : label :=
  {| lab_ref := lab_ref l; lab_addr := lab_addr l; lab_uuid := lab_uuid l;
     lab_changed := lab_changed l0 |}.

(** ** Proof automation *)

Create HintDb flush.

(** A setter of one of the arrays the flush updates in place is a
    [local_change]. *)
Local Ltac local_setter := unfold local_change; cbn; repeat split; reflexivity.

(** One iteration of a flush loop whose induction hypothesis is [IH]. *)
Local Ltac loop_step IH :=
  match goal with
  | |- context [let '(_, _) := ?f ?r ?s in _] =>
      specialize (IH s); destruct (f r s); cbn [snd] in *
  | |- context [let '(_, _) := ?f ?i ?r ?s in _] =>
      specialize (IH i s); destruct (f i r s); cbn [snd] in *
  end.

(** Every block of a prefix or suffix of [store_blocks] is quiet. *)
Local Ltac quiet_blocks :=
  unfold store_blocks; destruct (CONFIG_BT_MESH_PROVISIONER cfg);
  cbn [firstn skipn app];
  repeat (apply List.Forall_cons;
          [split; [cbn [fst snd]; auto with flush | reflexivity] |]);
  apply List.Forall_nil.

(** A flag is not among those of a prefix of [store_blocks]. *)
Local Ltac not_cleared :=
  unfold store_blocks; cbn [firstn skipn app map fst snd];
  rewrite ?elem_of_cons, elem_of_nil; intuition discriminate.


(** ** Vocabulary of the further properties *)

(** The records of fixed size: the name of their entry in [settings] and
    the [sizeof] their decoder compares the payload length with. *)
Definition record_sizes : list (string * nat) :=
  [ ("Net"%string, 18%nat); ("IV"%string, 5%nat); ("Seq"%string, 3%nat);
    ("NetKey"%string, 33%nat); ("AppKey"%string, 35%nat);
    ("HBPub"%string, 8%nat); ("Cfg"%string, 7%nat); ("Va"%string, 20%nat);
    ("Node"%string, 19%nat) ].

Definition record_size (name : string) : option nat :=
  snd <$> List.find (fun p => String.eqb (fst p) name) record_sizes.

(** No entry of [settings] carries the name [name]. *)
Definition unknown_name (name : string) : bool :=
  forallb (fun nf => negb (String.eqb (fst nf) name)) settings.

(** A write to the store, whatever the key. *)
Definition is_store_update (e : event) : bool :=
  match e with
  | StoreUpdate _ _ _ => true
  | _ => false
  end.

(** Comparisons of string literals, evaluated. *)
Local Ltac eval_string_eqb :=
  repeat match goal with
         | |- context [String.eqb ?a ?b] =>
             let v := eval vm_compute in (String.eqb a b) in
             progress change (String.eqb a b) with v
         end.

(** A key whose part before the first slash is the literal [name] reaches
    the handler of that name. *)
Local Ltac by_dispatch :=
  intros; unfold mesh_set_bin, settings;
  match goal with H : chop_slash _ = _ |- _ => rewrite H end;
  cbn [app dispatch]; eval_string_eqb; cbn [app dispatch]; reflexivity.

(** The flags [store_pending] tests and clears, in its order. *)
Definition flush_flags : list mesh_flag :=
  [ BT_MESH_RPL_PENDING; BT_MESH_KEYS_PENDING; BT_MESH_NET_PENDING;
    BT_MESH_IV_PENDING; BT_MESH_SEQ_PENDING; BT_MESH_HB_PUB_PENDING;
    BT_MESH_CFG_PENDING; BT_MESH_MOD_PENDING; BT_MESH_VA_PENDING;
    BT_MESH_ROLE_PENDING ]
  ++ (if CONFIG_BT_MESH_PROVISIONER cfg then [BT_MESH_NODES_PENDING] else []).

(** The calls [mesh_commit] makes before it starts the network. *)
Definition commit_event (e : event) : bool :=
  match e with
  | ProxyProvDisable | NetBeaconUpdate _ | ModSettingsCommit _ => true
  | DelayedWorkSubmit IVU_TIMER _ | DelayedWorkSubmit (MOD_PUB_TIMER _) _ => true
  | WorkSubmit HB_PUB_TIMER => true
  | _ => false
  end.

(** A step of the commit phase: it leaves the flag word, the flush timer and
    the pending backend flush alone and only makes calls of the commit
    phase. *)
Definition commit_frame (st st' : mesh) : Prop :=
  flags st' = flags st /\ pending_store st' = pending_store st /\
  conf_save_pending st' = conf_save_pending st /\
  exists evs, trace st' = trace st ++ evs /\ forallb commit_event evs = true.

(** What the subnet loop of [mesh_commit] leaves in a slot. *)
Definition commit_subnet (s : bt_mesh_subnet) : bt_mesh_subnet :=
  if net_idx s =? BT_MESH_KEY_UNUSED cfg then s else snd (fst (subnet_init s)).

(** [sub[0]] is unused: the test [mesh_commit] starts with. *)
Definition unprovisioned (st : mesh) : bool :=
  default (BT_MESH_KEY_UNUSED cfg) (net_idx <$> sub st !! 0%nat)
  =? BT_MESH_KEY_UNUSED cfg.

(** The writes of [store_pending_va] for the labels [ls], the first of which
    has index [k]: one record for each changed label that is in use. *)
Definition va_flush_writes (k : nat) (ls : list label) : list event :=
  omap (fun il : nat * label =>
          if lab_changed (snd il) && negb (lab_ref (snd il) =? 0)
          then Some (StoreUpdate (String.append "Va/" (fmt_x (Z.of_nat (fst il)))) 1
                       (va_val_bytes (snd il)))
          else None)
       (imap (fun j l => ((k + j)%nat, l)) ls).

(** A model of the examples, and the start-up state with that model
    registered. *)
Definition sample_model : bt_mesh_model :=
  {| mod_vnd := false; mod_elem_idx := 0; mod_idx := 2; mod_flags := 0;
     mod_keys := [1; 65535; 3]; mod_groups := [0; 49152];
     mod_pub := None; mod_cb_settings_set := false;
     mod_cb_settings_commit := false |}.

Definition modelled_state : mesh := set_models [sample_model] (boot_state 1).

(** The invariant of the pending key table: 12-bit indices, and at most one
    valid entry for a key. *)
Definition key_table_ok (st : mesh) : Prop :=
  Forall ku_wf (key_updates st) /\
  forall a j, (length (List.filter (ku_matches a j) (key_updates st)) <= 1)%nat.

(** Valid values of the AppKey, node and model publication records. *)
Definition app_key_valid (a : bt_mesh_app_key) : Prop :=
  0 <= ak_net_idx a < 65536 /\ is_byte (ak_updated a) /\
  length (ak_val0 a) = 16%nat /\ length (ak_val1 a) = 16%nat.

Definition node_valid (n : bt_mesh_node) : Prop :=
  0 <= node_net_idx n < 65536 /\ is_byte (node_num_elem n) /\
  length (node_dev_key n) = 16%nat.

Definition mod_pub_valid (p : bt_mesh_model_pub) : Prop :=
  pub_addr p <> BT_MESH_ADDR_UNASSIGNED cfg /\
  0 <= pub_addr p < 65536 /\ 0 <= pub_key p < 65536 /\
  is_byte (pub_ttl p) /\ is_byte (pub_retransmit p) /\ is_byte (pub_period p) /\
  0 <= pub_period_div p < 16 /\ 0 <= pub_cred p < 2.

(** The publication context [mod_set_pub_bin] leaves when it restores the
    encoding of [p] into a context that held [p0]. *)
Definition mod_pub_restored (p p0 : bt_mesh_model_pub) : bt_mesh_model_pub :=
  {| pub_addr := pub_addr p; pub_key := pub_key p; pub_ttl := pub_ttl p;
     pub_retransmit := pub_retransmit p; pub_period := pub_period p;
     pub_period_div := pub_period_div p0; pub_cred := pub_cred p;
     pub_count := 0; pub_update := pub_update p0 |}.

(** Whether the character [c] occurs in [s]. *)
Fixpoint occurs (c : ascii) (s : string) : bool :=
  match s with
  | EmptyString => false
  | String a r => Ascii.eqb a c || occurs c r
  end.

(** The pending bits of [mod->flags]. *)
Definition mod_pending_mask : Z :=
  Z.lor (Z.lor (BT_MESH_MOD_BIND_PENDING cfg) (BT_MESH_MOD_SUB_PENDING cfg))
        (BT_MESH_MOD_PUB_PENDING cfg).

(** The three pending bits are different bits. *)
Definition mod_masks_disjoint : Prop :=
  Z.land (BT_MESH_MOD_BIND_PENDING cfg) (BT_MESH_MOD_SUB_PENDING cfg) = 0 /\
  Z.land (BT_MESH_MOD_BIND_PENDING cfg) (BT_MESH_MOD_PUB_PENDING cfg) = 0 /\
  Z.land (BT_MESH_MOD_SUB_PENDING cfg) (BT_MESH_MOD_PUB_PENDING cfg) = 0.

(** Run the encoder [enc] of model [m] if the part [mask] of the model is
    marked. *)
Definition when_marked (m : bt_mesh_model) (mask : Z)
    (enc : bt_mesh_model -> bool -> mesh -> mesh) (st : mesh) : mesh :=
  if Z.land (mod_flags m) mask =? 0 then st else enc m (mod_vnd m) st.

(** A publication context of the examples. *)
Definition sample_pub : bt_mesh_model_pub :=
  {| pub_addr := 49152; pub_key := 3; pub_ttl := 5; pub_retransmit := 1;
     pub_period := 10; pub_period_div := 2; pub_cred := 1; pub_count := 9;
     pub_update := false |}.

(** ** Vocabulary of the boot-time scan *)

(** A call of a model's [settings_set] callback, the one call the scan of
    the store makes outside the file. *)
Definition is_model_callback (e : event) : bool :=
  match e with
  | ModSettingsSet _ _ => true
  | _ => false
  end.

(** The flag word, the flush timer and the trace are the same. *)
Definition same_control (st st' : mesh) : Prop :=
  flags st' = flags st /\ pending_store st' = pending_store st /\
  trace st' = trace st.

(** What the decoders rely on in the functions of the other modules that
    they hand the state to: composition data, key, and node bookkeeping
    leave the flag word and the flush timer alone and make no call that
    the trace records (the deleting ones are called with [store = false]). *)
Definition ext_quiet : Prop :=
  (forall a st, same_control st (bt_mesh_comp_provision ext a st)) /\
  (forall st, same_control st (bt_mesh_comp_unprovision ext st)) /\
  (forall i st, same_control st (bt_mesh_subnet_del ext i st)) /\
  (forall i st, same_control st (bt_mesh_app_key_del ext i st)) /\
  (forall a n i st, same_control st (snd (bt_mesh_node_alloc ext a n i st))) /\
  (forall i st, same_control st (bt_mesh_node_del ext i st)).

(** The byte [role_set_bin] looks for: 1 for a node, 2 for a provisioner. *)
Definition role_byte (role_node : bool) : Z := if role_node then 1 else 2.

(** The store holds a record of the given role: a record whose key reaches
    [role_set_bin] and whose first byte is the byte of the role. *)
Definition role_stored (role_node : bool) (recs : list (string * bytes)) : bool :=
  existsb (fun kv => String.eqb (chop_slash (fst kv)) "Role"
                     && (byte_at (snd kv) 0 =? role_byte role_node)) recs.

(** What a part of the scan does to the control state when it has met a
    node record ([node]) or a provisioner record ([prov]): the two role
    flags are set accordingly, every other flag but the IV update flag is
    kept, the flush timer is not touched, and the only calls made are model
    callbacks. *)
Definition scan_frame (node prov : bool) (st st' : mesh) : Prop :=
  atomic_test_bit st' BT_MESH_NODE = atomic_test_bit st BT_MESH_NODE || node /\
  atomic_test_bit st' BT_MESH_PROVISIONER
  = atomic_test_bit st BT_MESH_PROVISIONER || prov /\
  (forall f, f <> BT_MESH_NODE -> f <> BT_MESH_PROVISIONER ->
             f <> BT_MESH_IVU_IN_PROGRESS ->
             atomic_test_bit st' f = atomic_test_bit st f) /\
  pending_store st' = pending_store st /\
  exists evs, trace st' = trace st ++ evs /\ forallb is_model_callback evs = true.

(** A valid primary address and device key. *)
Definition net_valid (st : mesh) : Prop :=
  0 <= dev_primary_addr st < 65536 /\ length (dev_key st) = 16%nat.

(** The byte of the role record for the role flags of a state, and the flag
    that byte stands for: the provisioner flag is looked at first. *)
Definition role_val_bytes (st : mesh) : bytes :=
  [if atomic_test_bit st BT_MESH_PROVISIONER then 2 else 1].

Definition role_flag (st : mesh) : mesh_flag :=
  if atomic_test_bit st BT_MESH_PROVISIONER then BT_MESH_PROVISIONER
  else BT_MESH_NODE.

(** The entries of an array that are in use, moved to its front in their
    order, the rest of the array filled with [fill]. *)
Definition compacted (fill : Z) (l : list Z) : list Z :=
  let used := filter (fun k => k <> fill) l in
  used ++ replicate (length l - length used) fill.

(** A publication context as it is before the store is read. *)
Definition fresh_pub : bt_mesh_model_pub :=
  {| pub_addr := 0; pub_key := 0; pub_ttl := 0; pub_retransmit := 0;
     pub_period := 0; pub_period_div := 0; pub_cred := 0; pub_count := 0;
     pub_update := false |}.

(** ** Vocabulary of the key flush *)

(** A step that leaves the pending key table alone. *)
Definition keeps_key_table (body : mesh -> mesh) : Prop :=
  forall st, key_updates (body st) = key_updates st.

(** The bytes of the record a store intent for the key is about. *)
Definition key_ref_val_bytes (r : key_ref) : bytes :=
  match r with
  | NetKeyRef s => net_key_val_bytes s
  | AppKeyRef a => app_key_val_bytes a
  end.
(** * Properties *)

(** ** Arithmetic of bit fields *)

Lemma lor_shiftl_add (a b n : Z) :
  0 <= n -> 0 <= a < 2 ^ n -> Z.lor a (Z.shiftl b n) = a + b * 2 ^ n.
Proof.
  intros Hn Ha.
  rewrite Z.shiftl_mul_pow2 by lia.
  rewrite <- Z.lxor_lor, <- Z.add_nocarry_lxor; try reflexivity.
  all: apply Z.bits_inj'; intros i Hi; rewrite Z.land_spec, Z.bits_0.
  all: destruct (Z.lt_ge_cases i n) as [Hlt | Hge].
  all: try (rewrite Z.mul_pow2_bits_low by lia; apply andb_false_r).
  all: replace a with (a mod 2 ^ n) by (apply Z.mod_small; lia).
  all: rewrite Z.mod_pow2_bits_high by lia; reflexivity.
Qed.

Lemma bits_div_mod (lo w v : Z) :
  0 <= lo -> 0 <= w -> bits lo w v = (v / 2 ^ lo) mod 2 ^ w.
Proof.
  intros. unfold bits. rewrite Z.shiftr_div_pow2, Z.land_ones by lia. reflexivity.
Qed.

Lemma land_ones_mod (v n : Z) (m : Z) :
  0 <= n -> m = Z.ones n -> Z.land v m = v mod 2 ^ n.
Proof. intros Hn ->. apply Z.land_ones, Hn. Qed.

Lemma of_le_2 (a b : Z) : 0 <= a < 256 -> of_le [a; b] = a + 256 * b.
Proof.
  intros. cbn [of_le]. rewrite Z.shiftl_0_l, Z.lor_0_r.
  rewrite lor_shiftl_add by lia. lia.
Qed.

Lemma to_le_2 (v : Z) : to_le 2 v = [v mod 256; (v / 256) mod 256].
Proof.
  cbn [to_le]. rewrite Z.shiftr_div_pow2 by lia.
  rewrite !(land_ones_mod _ 8) by (reflexivity || lia). reflexivity.
Qed.

Lemma of_le_to_le_2 (v : Z) : 0 <= v < 65536 -> of_le (to_le 2 v) = v.
Proof.
  intros. rewrite to_le_2, of_le_2 by (apply Z.mod_pos_bound; lia).
  rewrite (Z.mod_small (v / 256)) by (split; [apply Z.div_pos | apply Z.div_lt_upper_bound]; lia).
  pose proof (Z.div_mod v 256). lia.
Qed.

Lemma to_le_4 (v : Z) :
  to_le 4 v = [v mod 256; (v / 256) mod 256; (v / 65536) mod 256;
               (v / 16777216) mod 256].
Proof.
  cbn [to_le]. rewrite !Z.shiftr_shiftr, !Z.shiftr_div_pow2 by lia.
  rewrite !(land_ones_mod _ 8) by (reflexivity || lia). reflexivity.
Qed.

Lemma of_le_4 (a b c d : Z) :
  0 <= a < 256 -> 0 <= b < 256 -> 0 <= c < 256 ->
  of_le [a; b; c; d] = a + 256 * b + 65536 * c + 16777216 * d.
Proof.
  intros. cbn [of_le]. rewrite Z.shiftl_0_l, Z.lor_0_r.
  rewrite (lor_shiftl_add c) by lia.
  rewrite (lor_shiftl_add b) by lia.
  rewrite (lor_shiftl_add a) by lia. lia.
Qed.

Lemma of_le_to_le_4 (v : Z) : 0 <= v < 4294967296 -> of_le (to_le 4 v) = v.
Proof.
  intros. rewrite to_le_4, of_le_4 by (apply Z.mod_pos_bound; lia).
  Z.div_mod_to_equations. lia.
Qed.

(** ** The flag word *)

Lemma BIT_testbit (n m : Z) : 0 <= n -> Z.testbit (BIT n) m = (n =? m).
Proof.
  intros. unfold BIT. rewrite Z.shiftl_1_l. apply Z.pow2_bits_eqb. lia.
Qed.

Lemma land_BIT_eq0 (a n : Z) :
  0 <= n -> (Z.land a (BIT n) =? 0) = negb (Z.testbit a n).
Proof.
  intros Hn.
  assert (Z.land a (BIT n) = if Z.testbit a n then BIT n else 0) as ->.
  { apply Z.bits_inj'. intros i Hi. rewrite Z.land_spec, BIT_testbit by lia.
    destruct (Z.eqb_spec n i) as [-> | Hne].
    - destruct (Z.testbit a i); [rewrite BIT_testbit by lia |]; cbn;
        rewrite ?Z.eqb_refl, ?Z.bits_0; reflexivity.
    - rewrite andb_false_r.
      destruct (Z.testbit a n); [rewrite BIT_testbit by lia |];
        rewrite ?Z.bits_0; [apply eq_sym, Z.eqb_neq, Hne | reflexivity]. }
  destruct (Z.testbit a n); [| reflexivity].
  apply Z.eqb_neq. unfold BIT. rewrite Z.shiftl_1_l.
  apply Z.pow_nonzero; lia.
Qed.

Lemma land_lor_eq0 (a m1 m2 : Z) :
  (Z.land a (Z.lor m1 m2) =? 0) = (Z.land a m1 =? 0) && (Z.land a m2 =? 0).
Proof.
  rewrite Z.land_lor_distr_r.
  destruct (Z.eqb_spec (Z.land a m1) 0) as [-> | H1].
  - rewrite Z.lor_0_l. reflexivity.
  - apply Z.eqb_neq. intros [H _]%Z.lor_eq_0_iff. contradiction.
Qed.

Lemma flag_bit_nonneg (f : mesh_flag) : 0 <= flag_bit cfg f.
Proof. apply flag_bit_range. Qed.

Lemma test_set_bit (f g : mesh_flag) (st : mesh) :
  atomic_test_bit (atomic_set_bit f st) g =
  if decide (f = g) then true else atomic_test_bit st g.
Proof.
  unfold atomic_test_bit, atomic_set_bit. cbn.
  rewrite Z.lor_spec, BIT_testbit by apply flag_bit_nonneg.
  case_decide as Hfg.
  - subst. rewrite Z.eqb_refl. apply orb_true_r.
  - destruct (Z.eqb_spec (flag_bit cfg f) (flag_bit cfg g)) as [E | _].
    + apply flag_bit_inj in E. contradiction.
    + apply orb_false_r.
Qed.

Lemma test_clear_bit (f g : mesh_flag) (st : mesh) :
  atomic_test_bit (atomic_clear_bit f st) g =
  if decide (f = g) then false else atomic_test_bit st g.
Proof.
  unfold atomic_test_bit, atomic_clear_bit. cbn.
  rewrite Z.land_spec, Z.lnot_spec, BIT_testbit by apply flag_bit_nonneg.
  case_decide as Hfg.
  - subst. rewrite Z.eqb_refl. apply andb_false_r.
  - destruct (Z.eqb_spec (flag_bit cfg f) (flag_bit cfg g)) as [E | _].
    + apply flag_bit_inj in E. contradiction.
    + apply andb_true_r.
Qed.

Lemma no_wait_bits (st : mesh) :
  negb (Z.land (atomic_get st) NO_WAIT_PENDING_BITS =? 0) =
  no_wait_pending (atomic_test_bit st).
Proof.
  unfold NO_WAIT_PENDING_BITS, no_wait_pending, atomic_get, atomic_test_bit.
  rewrite !land_lor_eq0, !land_BIT_eq0 by apply flag_bit_nonneg.
  rewrite !negb_andb, !negb_involutive. reflexivity.
Qed.

Lemma generic_bits (st : mesh) :
  (Z.land (atomic_get st) GENERIC_PENDING_BITS =? 0) =
  negb (generic_pending (atomic_test_bit st)).
Proof.
  unfold GENERIC_PENDING_BITS, generic_pending, atomic_get, atomic_test_bit.
  rewrite !land_lor_eq0, !land_BIT_eq0 by apply flag_bit_nonneg.
  rewrite !negb_orb. reflexivity.
Qed.

Lemma store_timeout_policy (st : mesh) :
  store_timeout st = timeout_policy (atomic_test_bit st).
Proof.
  unfold store_timeout, timeout_policy.
  rewrite no_wait_bits, generic_bits. reflexivity.
Qed.

(** ** The scheduler *)

Lemma schedule_store_cases (f : mesh_flag) (st : mesh) :
  let st1 := atomic_set_bit f st in
  let t := store_timeout st1 in
  schedule_store f st =
  if negb (pending_store st =? 0) && (pending_store st <? t) then st1
  else k_delayed_work_submit_pending_store t st1.
Proof. reflexivity. Qed.


(** C2, as the code has it.  With a flush already armed ([remaining > 0]),
    [mark] leaves the timer alone only when the timeout it computes is
    strictly later than the remaining time; a timeout that is earlier than
    or equal to the remaining time rearms the timer to that timeout.  Either
    way the time left afterwards is the earlier of the two. *)
Theorem C2_earliest_deadline (f : mesh_flag) (st : mesh) :
  0 < pending_store st ->
  let t := store_timeout (atomic_set_bit f st) in
  pending_store (schedule_store f st) = Z.min (pending_store st) t /\
  trace (schedule_store f st) =
    trace st ++ (if pending_store st <? t then []
                 else [DelayedWorkSubmit PENDING_STORE_TIMER t]).
Proof.
  intros Harmed t. rewrite schedule_store_cases. cbn zeta. fold t.
  replace (pending_store st =? 0) with false by (symmetry; apply Z.eqb_neq; lia).
  cbn [negb andb].
  destruct (Z.ltb_spec (pending_store st) t).
  - cbn. rewrite app_nil_r. split; [lia | reflexivity].
  - cbn. split; [lia | reflexivity].
Qed.

(** ** Sequence number *)

Lemma seq_bytes_value (b0 b1 b2 : Z) :
  is_byte b0 -> is_byte b1 -> is_byte b2 ->
  Z.lor (Z.lor b0 (Z.shiftl b1 8)) (Z.shiftl b2 16) = b0 + 256 * b1 + 65536 * b2.
Proof.
  unfold is_byte. intros.
  rewrite (lor_shiftl_add b0) by lia.
  rewrite lor_shiftl_add by lia. lia.
Qed.

(** C1. Restoring a persisted 3-byte sequence value [S] with a store rate
    [R > 0] leaves [S + (R - S mod R) - 1] in the sequence counter, which is
    never below [S]. *)
Theorem C1_seq_restore_law (b0 b1 b2 : Z) (st : mesh) :
  is_byte b0 -> is_byte b1 -> is_byte b2 ->
  0 < CONFIG_BT_MESH_SEQ_STORE_RATE cfg <= 2147483647 ->
  let S := b0 + 256 * b1 + 65536 * b2 in
  let R := CONFIG_BT_MESH_SEQ_STORE_RATE cfg in
  seq_set_bin [b0; b1; b2] st = (0, set_seq (S + (R - S mod R) - 1) st) /\
  S <= seq (snd (seq_set_bin [b0; b1; b2] st)).
Proof.
  intros H0 H1 H2 HR S R.
  assert (Hseq : seq_set_bin [b0; b1; b2] st = (0, set_seq (S + (R - S mod R) - 1) st)).
  { unfold seq_set_bin. cbn [length Nat.eqb negb byte_at nth].
    rewrite seq_bytes_value by assumption. fold S R.
    replace (0 <? R) with true by (symmetry; apply Z.ltb_lt; lia).
    unfold is_byte in *.
    pose proof (Z.mod_pos_bound S R ltac:(lia)).
    unfold u32. rewrite (Z.mod_small (R - S mod R)) by lia.
    rewrite (Z.mod_small (S + _)) by lia.
    rewrite Z.mod_small by lia. reflexivity. }
  split; [exact Hseq |].
  rewrite Hseq. cbn. pose proof (Z.mod_pos_bound S R ltac:(lia)). lia.
Qed.

(** C10. With a store rate [R > 0], [bt_mesh_store_seq] changes nothing
    unless the sequence number is a multiple of [R]; on a multiple it marks
    the sequence category pending through [schedule_store]. *)
Theorem C10_store_seq_rate (st : mesh) :
  0 < CONFIG_BT_MESH_SEQ_STORE_RATE cfg ->
  (seq st mod CONFIG_BT_MESH_SEQ_STORE_RATE cfg <> 0 ->
   bt_mesh_store_seq st = st) /\
  (seq st mod CONFIG_BT_MESH_SEQ_STORE_RATE cfg = 0 ->
   bt_mesh_store_seq st = schedule_store BT_MESH_SEQ_PENDING st /\
   atomic_test_bit (bt_mesh_store_seq st) BT_MESH_SEQ_PENDING = true).
Proof.
  intros HR. unfold bt_mesh_store_seq.
  replace (CONFIG_BT_MESH_SEQ_STORE_RATE cfg =? 0) with false
    by (symmetry; apply Z.eqb_neq; lia).
  cbn [negb andb]. split.
  - intros Hne. apply Z.eqb_neq in Hne. rewrite Hne. reflexivity.
  - intros ->. cbn. split; [reflexivity |].
    rewrite schedule_store_cases. cbn zeta.
    destruct (negb _ && _); unfold atomic_test_bit; cbn;
      rewrite Z.lor_spec, BIT_testbit, Z.eqb_refl by apply flag_bit_nonneg;
      apply orb_true_r.
Qed.

(** ** Store keys *)

Lemma digit_val_hex_digit (d : Z) :
  0 <= d < 16 -> digit_val (hex_digit d) = Some d.
Proof.
  intros H.
  assert (d = 0 \/ d = 1 \/ d = 2 \/ d = 3 \/ d = 4 \/ d = 5 \/ d = 6 \/ d = 7 \/
          d = 8 \/ d = 9 \/ d = 10 \/ d = 11 \/ d = 12 \/ d = 13 \/ d = 14 \/
          d = 15) as Hd by lia.
  repeat destruct Hd as [-> | Hd]; try subst d; reflexivity.
Qed.

Lemma hex_digits_parse (fuel : nat) :
  forall n acc, 0 <= n < 16 ^ Z.of_nat fuel ->
  exists k, 0 <= k /\
    forall a, hex_prefix (hex_digits fuel n acc) a = hex_prefix acc (a * 16 ^ k + n).
Proof.
  induction fuel as [| fuel IH]; intros n acc Hn.
  - exists 0. split; [lia |]. intros a. cbn in *. f_equal. lia.
  - cbn [hex_digits].
    assert (Hd : 0 <= n mod 16 < 16) by (apply Z.mod_pos_bound; lia).
    destruct (Z.eqb_spec (n / 16) 0) as [Hz | Hnz].
    + exists 1. split; [lia |]. intros a. cbn [hex_prefix].
      rewrite digit_val_hex_digit by assumption. f_equal.
      pose proof (Z.div_mod n 16). lia.
    + destruct (IH (n / 16) (String (hex_digit (n mod 16)) acc)) as (k & Hk & Hp).
      { rewrite Nat2Z.inj_succ, Z.pow_succ_r in Hn by lia.
        split; [apply Z.div_pos; lia | apply Z.div_lt_upper_bound; lia]. }
      exists (k + 1). split; [lia |]. intros a. rewrite Hp. cbn [hex_prefix].
      rewrite digit_val_hex_digit by assumption. f_equal.
      rewrite Z.pow_add_r by lia. pose proof (Z.div_mod n 16). lia.
Qed.

Lemma hex_prefix_fmt_x (n : Z) :
  0 <= n < 4294967296 -> hex_prefix (fmt_x n) 0 = n.
Proof.
  intros Hn. destruct (hex_digits_parse 8 n EmptyString) as (k & _ & Hp).
  { change (16 ^ Z.of_nat 8) with 4294967296. exact Hn. }
  unfold fmt_x. rewrite Hp. cbn. lia.
Qed.

Lemma fmt_x_inj (n m : Z) :
  0 <= n < 4294967296 -> 0 <= m < 4294967296 -> fmt_x n = fmt_x m -> n = m.
Proof.
  intros Hn Hm E. rewrite <- (hex_prefix_fmt_x n), <- (hex_prefix_fmt_x m), E by assumption.
  reflexivity.
Qed.

Lemma key_path_inj (a b : bool) (n m : Z) :
  0 <= n < 4294967296 -> 0 <= m < 4294967296 ->
  key_path a n = key_path b m -> a = b /\ n = m.
Proof.
  intros Hn Hm. unfold key_path. destruct a, b; cbn; intros E;
    try discriminate; injection E as E; split; try reflexivity;
    apply fmt_x_inj; assumption.
Qed.

Lemma writes_to_key_path (a b : bool) (n m : Z) keep v :
  0 <= n < 4294967296 -> 0 <= m < 4294967296 ->
  writes_to (key_path a n) (StoreUpdate (key_path b m) keep v) =
  Bool.eqb b a && (m =? n).
Proof.
  intros Hn Hm. cbn.
  destruct (String.eqb_spec (key_path b m) (key_path a n)) as [E | NE].
  - apply key_path_inj in E as [-> ->]; try assumption.
    rewrite eqb_reflx, Z.eqb_refl. reflexivity.
  - destruct (Bool.eqb_spec b a) as [-> |]; [| reflexivity].
    destruct (Z.eqb_spec m n) as [-> |]; [contradiction | reflexivity].
Qed.

(** ** The pending key update table *)

Section KeyScan.

Variable app : bool.
Variable idx : Z.

Lemma key_scan_sound (tbl : list key_update) :
  forall pre acc, acc_ok app idx pre acc ->
  acc_ok app idx (pre ++ tbl) (key_update_scan app idx (length pre) tbl acc).
Proof.
  induction tbl as [| u r IH]; intros pre acc Hacc; cbn [key_update_scan].
  - rewrite app_nil_r. exact Hacc.
  - replace (pre ++ u :: r) with ((pre ++ [u]) ++ r) by (rewrite <- app_assoc; reflexivity).
    replace (S (length pre)) with (length (pre ++ [u])) by (rewrite length_app; cbn; lia).
    apply IH. destruct Hacc as [Hm Hf].
    assert (Hu : (pre ++ [u]) !! length pre = Some u) by apply list_lookup_middle, eq_refl.
    assert (Hw : forall k x, pre !! k = Some x -> (pre ++ [u]) !! k = Some x)
      by (intros; apply lookup_app_l_Some; assumption).
    destruct (ku_valid u) eqn:Hv; cbn [negb].
    + destruct (Bool.eqb (ku_app_key u) app) eqn:Ha; cbn [negb].
      * destruct (ku_key_idx u =? idx) eqn:Hi.
        -- split; cbn [fst snd].
           ++ intros k [= <-]. exists u. split; [exact Hu |].
              unfold ku_matches. rewrite Hv, Ha, Hi. reflexivity.
           ++ intros j Hj. destruct (Hf j Hj) as (x & Hx & Hxv). eauto.
        -- split; [intros k Hk; destruct (Hm k Hk) as (x & Hx & Hxp)
                  | intros j Hj; destruct (Hf j Hj) as (x & Hx & Hxv)]; eauto.
      * split; [intros k Hk; destruct (Hm k Hk) as (x & Hx & Hxp)
               | intros j Hj; destruct (Hf j Hj) as (x & Hx & Hxv)]; eauto.
    + split; cbn [fst snd].
      * intros k Hk. destruct (Hm k Hk) as (x & Hx & Hxp). eauto.
      * intros j [= <-]. eauto.
Qed.

Lemma key_scan_complete (tbl : list key_update) :
  forall i acc,
  let r := key_update_scan app idx i tbl acc in
  (fst r = None -> fst acc = None /\ forallb (fun u => negb (ku_matches app idx u)) tbl = true) /\
  (snd r = None -> snd acc = None /\ forallb ku_valid tbl = true).
Proof.
  induction tbl as [| u r IH]; intros i acc; cbn [key_update_scan forallb].
  - cbn. tauto.
  - cbn zeta. specialize (IH (S i)). unfold ku_matches in *.
    destruct (ku_valid u) eqn:Hv; cbn [negb andb].
    + destruct (Bool.eqb (ku_app_key u) app) eqn:Ha; cbn [negb andb].
      * destruct (ku_key_idx u =? idx) eqn:Hi; cbn [negb andb].
        -- destruct (IH (Some i, snd acc)) as [H1 H2]. split.
           ++ intros H. destruct (H1 H) as [[=] _].
           ++ intros H. exact (H2 H).
        -- exact (IH acc).
      * exact (IH acc).
    + destruct (IH (fst acc, Some i)) as [H1 H2]. split.
      * intros H. exact (H1 H).
      * intros H. destruct (H2 H) as [[=] _].
Qed.

Lemma key_find_sound (st : mesh) :
  acc_ok app idx (key_updates st) (key_update_find app idx st).
Proof.
  unfold key_update_find. apply (key_scan_sound (key_updates st) [] (None, None)).
  split; intros ? [=].
Qed.

Lemma key_find_full (st : mesh) :
  forallb ku_valid (key_updates st) = true ->
  forallb (fun u => negb (ku_matches app idx u)) (key_updates st) = true ->
  key_update_find app idx st = (None, None).
Proof.
  intros Hv Hp. pose proof (key_find_sound st) as [Hm Hf].
  destruct (key_update_find app idx st) as [[k |] [j |]]; cbn in *.
  - destruct (Hm k eq_refl) as (u & Hu & Hpu).
    apply list_elem_of_lookup_2, list_elem_of_In in Hu.
    rewrite forallb_forall in Hp. rewrite (proj1 (negb_true_iff _) (Hp u Hu)) in Hpu.
    discriminate.
  - destruct (Hm k eq_refl) as (u & Hu & Hpu).
    apply list_elem_of_lookup_2, list_elem_of_In in Hu.
    rewrite forallb_forall in Hp. rewrite (proj1 (negb_true_iff _) (Hp u Hu)) in Hpu.
    discriminate.
  - destruct (Hf j eq_refl) as (u & Hu & Hvu).
    apply list_elem_of_lookup_2, list_elem_of_In in Hu.
    rewrite forallb_forall in Hv. rewrite (Hv u Hu) in Hvu. discriminate.
  - reflexivity.
Qed.

End KeyScan.

Lemma node_scan_full (addr : Z) (tbl : list node_update) :
  forall i,
  forallb (fun u => negb (nu_addr u =? BT_MESH_ADDR_UNASSIGNED cfg)
                    && negb (nu_addr u =? addr)) tbl = true ->
  node_update_scan addr i tbl (None, None) = (None, None).
Proof.
  induction tbl as [| u r IH]; intros i H; cbn in *; [reflexivity |].
  apply andb_true_iff in H as [Hu Hr]. apply andb_true_iff in Hu as [H1 H2].
  apply negb_true_iff in H1, H2. rewrite H1, H2. apply IH, Hr.
Qed.

Lemma length_fit (n : nat) (bs : bytes) : length (fit n bs) = n.
Proof. unfold fit, zeros. rewrite length_take, length_app, length_replicate. lia. Qed.

Lemma length_to_le (n : nat) : forall v, length (to_le n v) = n.
Proof. induction n; intros; cbn; [| rewrite IHn]; reflexivity. Qed.

Lemma save_written (path : string) (len : Z) (value : bytes) (st : mesh) :
  Z.of_nat (length value) = len ->
  written_through path (if 0 <? len then 1 else 0) value st (save path len value st).
Proof.
  intros <-. unfold written_through, save, settings_save_one, conf_save_one. cbn.
  rewrite Nat2Z.id, firstn_all. repeat split; reflexivity.
Qed.

(** C8. A full pending table with no entry for the key writes through.  Each
    of the three parts carries the hypotheses of its own table only: when
    every slot of the key table is valid and none is for the subnet (for the
    application key), the store and the clear function of that key write the
    record, or the zero-length clear, to the store at once and schedule
    nothing, whatever the node table holds; when no slot of the node table
    is free or for the node, the two node functions do the same, whatever
    the key table holds.  The functions return no value, so nothing is
    reported to the caller. *)
Theorem C8_full_table_writes_through
    (s : bt_mesh_subnet) (a : bt_mesh_app_key) (n : bt_mesh_node) (st : mesh) :
  (forallb ku_valid (key_updates st) = true ->
   forallb (fun u => negb (ku_matches false (net_idx s) u)) (key_updates st) = true ->
   written_through (key_path false (net_idx s)) 1 (net_key_val_bytes s) st
     (bt_mesh_store_subnet s st) /\
   written_through (key_path false (net_idx s)) 0 [] st (bt_mesh_clear_subnet s st)) /\
  (forallb ku_valid (key_updates st) = true ->
   forallb (fun u => negb (ku_matches true (ak_app_idx a) u)) (key_updates st) = true ->
   written_through (key_path true (ak_app_idx a)) 1 (app_key_val_bytes a) st
     (bt_mesh_store_app_key a st) /\
   written_through (key_path true (ak_app_idx a)) 0 [] st
     (bt_mesh_clear_app_key a st)) /\
  (forallb (fun u => negb (nu_addr u =? BT_MESH_ADDR_UNASSIGNED cfg)
                     && negb (nu_addr u =? node_addr n)) (node_updates st) = true ->
   written_through (String.append "Node/" (fmt_x (node_addr n))) 1 (node_val_bytes n)
     st (bt_mesh_store_node n st) /\
   written_through (String.append "Node/" (fmt_x (node_addr n))) 0 [] st
     (bt_mesh_clear_node n st)).
Proof.
  unfold bt_mesh_store_subnet, bt_mesh_store_app_key, bt_mesh_clear_subnet,
    bt_mesh_clear_app_key, bt_mesh_store_node, bt_mesh_clear_node,
    key_intent, node_intent, node_update_find.
  split; [| split].
  - intros Hfull Hs. rewrite !key_find_full by assumption. split.
    + apply (save_written _ 33). unfold net_key_val_bytes. cbn [length].
      rewrite length_app, !length_fit. reflexivity.
    + apply (save_written _ 0 []). reflexivity.
  - intros Hfull Ha. rewrite !key_find_full by assumption. split.
    + apply (save_written _ 35). unfold app_key_val_bytes.
      rewrite !length_app, !length_fit, length_to_le. reflexivity.
    + apply (save_written _ 0 []). reflexivity.
  - intros Hn. rewrite !node_scan_full by assumption. split.
    + apply (save_written _ 19). unfold node_val_bytes.
      rewrite !length_app, !length_fit, length_to_le. reflexivity.
    + apply (save_written _ 0 []). reflexivity.
Qed.

Lemma schedule_store_key_updates (f : mesh_flag) (st : mesh) :
  key_updates (schedule_store f st) = key_updates st.
Proof. rewrite schedule_store_cases. cbn zeta. destruct (_ && _); reflexivity. Qed.

Lemma filter_none {A} (q : A -> bool) (l : list A) :
  forallb (fun x => negb (q x)) l = true -> List.filter q l = [].
Proof.
  induction l as [| x l IH]; cbn; [reflexivity |].
  intros [Hx Hl]%andb_true_iff. apply negb_true_iff in Hx. rewrite Hx. auto.
Qed.

Lemma filter_at_most_one {A} (q : A -> bool) (l : list A) (k : nat) (x : A) :
  l !! k = Some x -> (length (List.filter q l) <= 1)%nat ->
  q x = true \/ List.filter q l = [] ->
  List.filter q (take k l) = [] /\ List.filter q (drop (S k) l) = [].
Proof.
  intros Hk Hlen Hx. rewrite <- (take_drop_middle l k x Hk) in Hlen, Hx.
  rewrite List.filter_app in Hlen, Hx. cbn [List.filter] in Hlen, Hx.
  destruct Hx as [Hq | Hnil].
  - rewrite Hq in Hlen. rewrite length_app in Hlen. cbn in Hlen.
    split; apply nil_length_inv; lia.
  - apply app_eq_nil in Hnil as [H1 H2]. split; [exact H1 |].
    destruct (q x); [discriminate | exact H2].
Qed.

Lemma filter_insert_one {A} (q : A -> bool) (l : list A) (k : nat) (x e : A) :
  l !! k = Some x ->
  List.filter q (take k l) = [] -> List.filter q (drop (S k) l) = [] ->
  q e = true -> List.filter q (<[k := e]> l) = [e].
Proof.
  intros Hk H1 H2 He. rewrite insert_take_drop by (eapply lookup_lt_Some, Hk).
  rewrite List.filter_app. cbn [List.filter]. rewrite H1, H2, He. reflexivity.
Qed.

Lemma alter_as_insert {A} (f : A -> A) (l : list A) (k : nat) (x : A) :
  l !! k = Some x -> alter f k l = <[k := f x]> l.
Proof.
  intros Hk. apply list_eq. intros j.
  destruct (decide (k = j)) as [<- | Hne].
  - rewrite list_lookup_alter_eq, Hk, list_lookup_insert_eq
      by (eapply lookup_lt_Some, Hk). reflexivity.
  - rewrite list_lookup_alter_ne, list_lookup_insert_ne by assumption. reflexivity.
Qed.

Lemma ku_matches_entry (app : bool) (idx : Z) (c : bool) :
  ku_matches app idx (ku_entry app idx c) = true.
Proof. unfold ku_matches. cbn. rewrite eqb_reflx, Z.eqb_refl. reflexivity. Qed.

Lemma ku_matches_inv (app : bool) (idx : Z) (u : key_update) (c : bool) :
  ku_matches app idx u = true -> ku_set_clear c u = ku_entry app idx c.
Proof.
  unfold ku_matches. destruct u as [i v a cl]. cbn.
  intros [[-> Ha]%andb_true_iff Hi]%andb_true_iff.
  apply Bool.eqb_prop in Ha. apply Z.eqb_eq in Hi. subst. reflexivity.
Qed.

(** After a store or clear intent that found a matching entry or a free
    slot, the table holds exactly one valid entry for the key, with the
    requested [clear] flag. *)
Lemma key_intent_coalesces (app : bool) (idx : Z) (c : bool)
    (direct : mesh -> mesh) (st : mesh) :
  0 <= idx < 4096 ->
  Forall ku_wf (key_updates st) ->
  (length (List.filter (ku_matches app idx) (key_updates st)) <= 1)%nat ->
  key_update_find app idx st <> (None, None) ->
  let st' := key_intent app idx c direct st in
  List.filter (ku_matches app idx) (key_updates st') = [ku_entry app idx c] /\
  Forall ku_wf (key_updates st').
Proof.
  intros Hidx Hwf Hlen Hroom. cbn zeta. unfold key_intent.
  pose proof (key_find_sound app idx st) as [Hm Hf].
  pose proof (key_scan_complete app idx (key_updates st) 0 (None, None)) as [Hnm _].
  fold (key_update_find app idx st) in Hnm.
  destruct (key_update_find app idx st) as [[k |] [j |]]; cbn [fst snd] in *;
    try (destruct (Hm k eq_refl) as (u & Hu & Hpu));
    try (rewrite schedule_store_key_updates; cbn;
         rewrite (alter_as_insert _ _ _ _ Hu), (ku_matches_inv _ _ _ c Hpu);
         split;
         [ destruct (filter_at_most_one _ _ _ _ Hu Hlen (or_introl Hpu));
           eapply filter_insert_one; eauto using ku_matches_entry
         | apply Forall_insert; [assumption | unfold ku_wf; cbn; lia] ]).
  - destruct (Hf j eq_refl) as (u & Hu & Hvu).
    destruct (Hnm eq_refl) as [_ Hnone]. apply filter_none in Hnone.
    rewrite schedule_store_key_updates. cbn.
    assert (Hland : Z.land idx 4095 = idx).
    { rewrite (land_ones_mod _ 12) by (reflexivity || lia). apply Z.mod_small. lia. }
    unfold ku_make. rewrite Hland. fold (ku_entry app idx c). split.
    + rewrite Hnone in Hlen.
      destruct (filter_at_most_one _ _ _ _ Hu ltac:(rewrite Hnone; cbn; lia)
                  (or_intror Hnone)).
      eapply filter_insert_one; eauto using ku_matches_entry.
    + apply Forall_insert; [assumption | unfold ku_wf; cbn; lia].
  - contradiction.
Qed.

Lemma key_intent_table (app : bool) (idx : Z) (c : bool)
    (direct : mesh -> mesh) (st : mesh) :
  0 <= idx < 4096 ->
  key_update_find app idx st <> (None, None) ->
  exists k, key_updates (key_intent app idx c direct st)
            = <[k := ku_entry app idx c]> (key_updates st).
Proof.
  intros Hidx Hroom. unfold key_intent.
  pose proof (key_find_sound app idx st) as [Hm _].
  destruct (key_update_find app idx st) as [[k |] [j |]]; cbn [fst snd] in *;
    try (destruct (Hm k eq_refl) as (u & Hu & Hpu)).
  - exists k. rewrite schedule_store_key_updates. cbn.
    rewrite (alter_as_insert _ _ _ _ Hu), (ku_matches_inv _ _ _ c Hpu). reflexivity.
  - exists k. rewrite schedule_store_key_updates. cbn.
    rewrite (alter_as_insert _ _ _ _ Hu), (ku_matches_inv _ _ _ c Hpu). reflexivity.
  - exists j. rewrite schedule_store_key_updates. cbn. unfold ku_make.
    rewrite (land_ones_mod _ 12), Z.mod_small by (reflexivity || lia). reflexivity.
  - contradiction.
Qed.

Lemma filter_insert_le {A} (q : A -> bool) (l : list A) (k : nat) (e : A) :
  q e = false ->
  (length (List.filter q (<[k := e]> l)) <= length (List.filter q l))%nat.
Proof.
  intros He. destruct (l !! k) as [x |] eqn:Hk.
  - rewrite insert_take_drop by (eapply lookup_lt_Some, Hk).
    rewrite <- (take_drop_middle l k x Hk) at 3.
    rewrite !List.filter_app, !length_app. cbn [List.filter]. rewrite He.
    destruct (q x); cbn; lia.
  - rewrite list_insert_ge by (apply lookup_ge_None, Hk). lia.
Qed.

(** The table never holds two valid entries for one key: the invariant
    holds of the all-invalid table and every store or clear intent for a
    12-bit key index keeps it. *)
Lemma key_intents_keep_unique (r : key_ref) (st : mesh) :
  0 <= key_ref_idx r < 4096 ->
  Forall ku_wf (key_updates st) ->
  (forall a j, (length (List.filter (ku_matches a j) (key_updates st)) <= 1)%nat) ->
  forall st', st' = store_key r st \/ st' = clear_key r st ->
  forall a j, (length (List.filter (ku_matches a j) (key_updates st')) <= 1)%nat.
Proof.
  intros Hidx Hwf Hinv st' Hst' a j.
  assert (Hki : exists c d, st' = key_intent (key_ref_app r) (key_ref_idx r) c d st /\
                            key_updates (d st) = key_updates st).
  { destruct Hst' as [-> | ->]; destruct r; cbn; eauto. }
  destruct Hki as (c & d & -> & Hd).
  destruct (decide (key_update_find (key_ref_app r) (key_ref_idx r) st = (None, None)))
    as [Hfull | Hroom].
  - unfold key_intent. rewrite Hfull, Hd. apply Hinv.
  - destruct (Bool.eqb (key_ref_app r) a && (key_ref_idx r =? j)) eqn:Hsame.
    + apply andb_true_iff in Hsame as [Ha Hj].
      apply Bool.eqb_prop in Ha. apply Z.eqb_eq in Hj. subst a j.
      destruct (key_intent_coalesces (key_ref_app r) (key_ref_idx r) c d st
                  Hidx Hwf (Hinv _ _) Hroom) as [-> _].
      cbn. lia.
    + destruct (key_intent_table (key_ref_app r) (key_ref_idx r) c d st Hidx Hroom)
        as (k & ->).
      etransitivity; [apply filter_insert_le | apply Hinv].
      unfold ku_matches. cbn. exact Hsame.
Qed.

Lemma save_trace (path : string) (len : Z) (value : bytes) (st : mesh) :
  trace (save path len value st) =
  trace st ++ [StoreUpdate path (if 0 <? len then 1 else 0)
                 (take (Z.to_nat len) value)].
Proof. reflexivity. Qed.

(** What one valid entry contributes to the flush: writes to the key of the
    entry only, and exactly the zero-length write when the entry says
    clear. *)
Lemma flush_key_update_events (u : key_update) (st : mesh) :
  lookup_by_index_ok ->
  exists evs,
    trace (flush_key_update u st) = trace st ++ evs /\
    Forall (fun e => exists keep v,
              e = StoreUpdate (key_path (ku_app_key u) (ku_key_idx u)) keep v) evs /\
    (ku_clear u = true ->
     evs = [StoreUpdate (key_path (ku_app_key u) (ku_key_idx u)) 0 []]).
Proof.
  intros [Hsub Happ]. unfold flush_key_update.
  destruct (ku_clear u), (ku_app_key u).
  - eexists. split; [apply save_trace |]. split; [| reflexivity].
    repeat constructor. eauto.
  - eexists. split; [apply save_trace |]. split; [| reflexivity].
    repeat constructor. eauto.
  - destruct (bt_mesh_app_key_find ext (ku_key_idx u) (app_keys st)) as [k |] eqn:Hk.
    + destruct (app_keys st !! k) as [a |] eqn:Ha.
      * eexists. split; [apply save_trace |]. split; [| discriminate].
        repeat constructor. unfold key_path. rewrite (Happ _ _ _ _ Hk Ha). eauto.
      * exists []. rewrite app_nil_r. repeat split; [constructor | discriminate].
    + exists []. rewrite app_nil_r. repeat split; [constructor | discriminate].
  - destruct (bt_mesh_subnet_get ext (ku_key_idx u) (sub st)) as [k |] eqn:Hk.
    + destruct (sub st !! k) as [s |] eqn:Hs.
      * eexists. split; [apply save_trace |]. split; [| discriminate].
        repeat constructor. unfold key_path. rewrite (Hsub _ _ _ _ Hk Hs). eauto.
      * exists []. rewrite app_nil_r. repeat split; [constructor | discriminate].
    + exists []. rewrite app_nil_r. repeat split; [constructor | discriminate].
Qed.

Lemma filter_other_key (app : bool) (idx : Z) (u : key_update) (evs : list event) :
  0 <= idx < 4096 -> ku_wf u ->
  Bool.eqb (ku_app_key u) app && (ku_key_idx u =? idx) = false ->
  Forall (fun e => exists keep v,
            e = StoreUpdate (key_path (ku_app_key u) (ku_key_idx u)) keep v) evs ->
  List.filter (writes_to (key_path app idx)) evs = [].
Proof.
  intros Hidx Hu Hne H. induction H as [| e evs (keep & v & ->) _ IH]; [reflexivity |].
  cbn [List.filter]. rewrite writes_to_key_path by (unfold ku_wf in Hu; lia).
  rewrite Hne. exact IH.
Qed.

(** The flush visits every entry once: each valid entry is invalidated, and
    the writes that reach the key [(app, idx)] are one zero-length write per
    valid entry for that key, provided those entries all say clear. *)
Lemma store_pending_keys_loop_events (app : bool) (idx : Z) (tbl : list key_update) :
  lookup_by_index_ok -> 0 <= idx < 4096 -> Forall ku_wf tbl ->
  Forall (fun u => ku_matches app idx u = true -> ku_clear u = true) tbl ->
  forall st, exists evs,
    trace (snd (store_pending_keys_loop tbl st)) = trace st ++ evs /\
    List.filter (writes_to (key_path app idx)) evs =
      replicate (length (List.filter (ku_matches app idx) tbl))
        (StoreUpdate (key_path app idx) 0 []) /\
    Forall (fun u => ku_valid u = false) (fst (store_pending_keys_loop tbl st)).
Proof.
  intros Hext Hidx Hwf Hclr. induction tbl as [| u r IH]; intros st.
  - exists []. cbn. rewrite app_nil_r. repeat split. constructor.
  - inversion Hwf as [| ? ? Hu Hr]; subst. inversion Hclr as [| ? ? Hcu Hcr]; subst.
    cbn [store_pending_keys_loop List.filter].
    destruct (ku_valid u) eqn:Hv; cbn [negb].
    + destruct (flush_key_update_events u st Hext) as (e1 & Ht1 & Hp1 & Hc1).
      destruct (IH Hr Hcr (flush_key_update u st)) as (e2 & Ht2 & Hf2 & Hi2).
      destruct (store_pending_keys_loop r (flush_key_update u st)) as [r' st'] eqn:E.
      cbn [fst snd] in *. exists (e1 ++ e2). split; [| split].
      * rewrite Ht2, Ht1, app_assoc. reflexivity.
      * rewrite List.filter_app, Hf2.
        destruct (ku_matches app idx u) eqn:Hmu.
        -- rewrite (Hc1 (Hcu eq_refl)).
           unfold ku_matches in Hmu. rewrite Hv in Hmu. cbn [andb] in Hmu.
           apply andb_true_iff in Hmu as [Ha Hi].
           apply Bool.eqb_prop in Ha. apply Z.eqb_eq in Hi. subst.
           cbn [List.filter length replicate app].
           rewrite writes_to_key_path by lia.
           rewrite eqb_reflx, Z.eqb_refl. reflexivity.
        -- unfold ku_matches in Hmu. rewrite Hv in Hmu. cbn [andb] in Hmu.
           rewrite (filter_other_key app idx u e1 Hidx Hu Hmu Hp1). reflexivity.
      * constructor; [reflexivity | exact Hi2].
    + destruct (IH Hr Hcr st) as (e2 & Ht2 & Hf2 & Hi2).
      destruct (store_pending_keys_loop r st) as [r' st'] eqn:E.
      cbn [fst snd] in *. exists e2. split; [exact Ht2 | split].
      * assert (Hmu : ku_matches app idx u = false)
          by (unfold ku_matches; rewrite Hv; reflexivity).
        rewrite Hmu. exact Hf2.
      * constructor; assumption.
Qed.

Lemma key_find_room (app : bool) (idx : Z) (st : mesh) (u : key_update) :
  u ∈ key_updates st -> ku_matches app idx u = true ->
  key_update_find app idx st <> (None, None).
Proof.
  intros Hin Hu E.
  pose proof (key_scan_complete app idx (key_updates st) 0 (None, None)) as [Hnm _].
  fold (key_update_find app idx st) in Hnm. rewrite E in Hnm.
  destruct (Hnm eq_refl) as [_ Hall]. rewrite forallb_forall in Hall.
  apply list_elem_of_In in Hin. specialize (Hall u Hin). rewrite Hu in Hall.
  discriminate.
Qed.

(** ** The deferred flush *)

Lemma store_pending_as_blocks (st : mesh) :
  store_pending st = run_blocks store_blocks st.
Proof.
  unfold store_pending, store_blocks, run_blocks.
  destruct (CONFIG_BT_MESH_PROVISIONER cfg); reflexivity.
Qed.

Lemma frames_refl (qs : list string) (st : mesh) : frames qs st st.
Proof.
  unfold frames. repeat split. exists []. rewrite app_nil_r. split; constructor.
Qed.

Lemma frames_trans (qs : list string) (a b c : mesh) :
  frames qs a b -> frames qs b c -> frames qs a c.
Proof.
  intros (A1 & A2 & A3 & A4 & A5 & e1 & T1 & F1) (B1 & B2 & B3 & B4 & B5 & e2 & T2 & F2).
  unfold frames. repeat split; try congruence.
  exists (e1 ++ e2). split; [rewrite T2, T1, app_assoc; reflexivity |].
  apply Forall_app; split; assumption.
Qed.

Lemma frames_save (qs : list string) (path : string) (len : Z) (v : bytes) (st : mesh) :
  existsb (fun q => is_prefix q path) qs = true ->
  frames qs st (save path len v st).
Proof.
  intros Hp. unfold frames. repeat split. eexists. split; [apply save_trace |].
  repeat constructor. unfold path_in. eauto.
Qed.

Lemma keeps_refl (qs : list string) (st : mesh) : keeps qs st st.
Proof. split; [reflexivity | apply frames_refl]. Qed.

Lemma keeps_trans (qs : list string) (a b c : mesh) :
  keeps qs a b -> keeps qs b c -> keeps qs a c.
Proof.
  intros [F1 H1] [F2 H2]. split; [congruence | eapply frames_trans; eassumption].
Qed.

Lemma keeps_save (qs : list string) (path : string) (len : Z) (v : bytes) (st : mesh) :
  existsb (fun q => is_prefix q path) qs = true ->
  keeps qs st (save path len v st).
Proof. intros. split; [reflexivity | apply frames_save; assumption]. Qed.

Lemma keeps_local (qs : list string) (a b c : mesh) :
  keeps qs a b -> local_change b c -> keeps qs a c.
Proof.
  intros [F (A1 & A2 & A3 & A4 & A5 & e & T & P)] (L0 & L1 & L2 & L3 & L4 & L5 & L6).
  split; [congruence |]. unfold frames. repeat split; try congruence.
  exists e. split; [congruence | assumption].
Qed.

Lemma clear_rpl_loop_keeps (todo : list bt_mesh_rpl) :
  forall st, keeps ["RPL/"%string] st (snd (clear_rpl_loop todo st)).
Proof.
  induction todo as [| e r IH]; intros st; cbn [clear_rpl_loop snd].
  - apply keeps_refl.
  - destruct (rpl_src e =? 0); loop_step IH; [exact IH |].
    eapply keeps_trans; [| exact IH]. apply keeps_save. reflexivity.
Qed.

Lemma store_pending_rpl_loop_keeps (todo : list bt_mesh_rpl) :
  forall st, keeps ["RPL/"%string] st (snd (store_pending_rpl_loop todo st)).
Proof.
  induction todo as [| e r IH]; intros st; cbn [store_pending_rpl_loop snd].
  - apply keeps_refl.
  - destruct (rpl_store e); loop_step IH; [| exact IH].
    eapply keeps_trans; [| exact IH]. apply keeps_save. reflexivity.
Qed.

Lemma rpl_body_ok :
  body_ok ["RPL/"%string] (store_or_clear store_pending_rpl clear_rpl).
Proof.
  intros st. unfold store_or_clear, store_pending_rpl, clear_rpl.
  destruct (atomic_test_bit st BT_MESH_VALID).
  - pose proof (store_pending_rpl_loop_keeps (rpl st) st) as H.
    destruct (store_pending_rpl_loop (rpl st) st). eapply keeps_local; [exact H |].
    local_setter.
  - pose proof (clear_rpl_loop_keeps (rpl st) st) as H.
    destruct (clear_rpl_loop (rpl st) st). eapply keeps_local; [exact H |].
    local_setter.
Qed.

Lemma flush_key_update_keeps (u : key_update) (st : mesh) :
  keeps ["AppKey/"%string; "NetKey/"%string] st (flush_key_update u st).
Proof.
  unfold flush_key_update.
  repeat match goal with
         | |- context [if ?b then _ else _] => destruct b
         | |- context [match ?o with Some _ => _ | None => _ end] => destruct o
         end;
    try apply keeps_refl; apply keeps_save; reflexivity.
Qed.

Lemma store_pending_keys_ok :
  body_ok ["AppKey/"%string; "NetKey/"%string] store_pending_keys.
Proof.
  intros st. unfold store_pending_keys.
  assert (H : forall todo s,
             keeps ["AppKey/"%string; "NetKey/"%string] s
               (snd (store_pending_keys_loop todo s))).
  { induction todo as [| u r IH]; intros s; cbn [store_pending_keys_loop snd].
    - apply keeps_refl.
    - destruct (ku_valid u); cbn [negb]; loop_step IH; [| exact IH].
      eapply keeps_trans; [apply flush_key_update_keeps | exact IH]. }
  specialize (H (key_updates st) st).
  destruct (store_pending_keys_loop (key_updates st) st).
  eapply keeps_local; [exact H |]. local_setter.
Qed.

Lemma store_pending_seq_ok : body_ok ["Seq"%string] store_pending_seq.
Proof. intros st. apply keeps_save. reflexivity. Qed.

Lemma store_pending_hb_pub_ok : body_ok ["HBPub"%string] store_pending_hb_pub.
Proof.
  intros st. unfold store_pending_hb_pub.
  destruct (hb_pub st); [apply keeps_save; reflexivity | apply keeps_refl].
Qed.

Lemma store_pending_role_ok : body_ok ["Role"%string] store_pending_role.
Proof.
  intros st. unfold store_pending_role.
  repeat match goal with |- context [if ?b then _ else _] => destruct b end;
    try apply keeps_refl; apply keeps_save; reflexivity.
Qed.

Lemma net_body_ok :
  body_ok ["Net"%string] (store_or_clear store_pending_net clear_net).
Proof.
  intros st. unfold store_or_clear.
  destruct (atomic_test_bit st BT_MESH_VALID); apply keeps_save; reflexivity.
Qed.

Lemma iv_body_ok :
  body_ok ["IV"%string] (store_or_clear store_pending_iv clear_iv).
Proof.
  intros st. unfold store_or_clear.
  destruct (atomic_test_bit st BT_MESH_VALID); apply keeps_save; reflexivity.
Qed.

Lemma cfg_body_ok :
  body_ok ["Cfg"%string] (store_or_clear store_pending_cfg clear_cfg).
Proof.
  intros st. unfold store_or_clear, store_pending_cfg.
  destruct (atomic_test_bit st BT_MESH_VALID); [destruct (cfg_srv st) |];
    try apply keeps_refl; apply keeps_save; reflexivity.
Qed.

Lemma store_pending_nodes_ok : body_ok ["Node/"%string] store_pending_nodes.
Proof.
  intros st. unfold store_pending_nodes.
  assert (H : forall todo s,
             keeps ["Node/"%string] s (snd (store_pending_nodes_loop todo s))).
  { induction todo as [| u r IH]; intros s; cbn [store_pending_nodes_loop snd].
    - apply keeps_refl.
    - destruct (nu_addr u =? BT_MESH_ADDR_UNASSIGNED cfg); loop_step IH; [exact IH |].
      eapply keeps_trans; [| exact IH].
      repeat match goal with
             | |- context [if ?b then _ else _] => destruct b
             | |- context [match ?o with Some _ => _ | None => _ end] => destruct o
             end;
        try apply keeps_refl; apply keeps_save; reflexivity. }
  specialize (H (node_updates st) st).
  destruct (store_pending_nodes_loop (node_updates st) st).
  eapply keeps_local; [exact H |]. local_setter.
Qed.

Lemma store_pending_va_ok : body_ok ["Va/"%string] store_pending_va.
Proof.
  intros st. unfold store_pending_va.
  assert (H : forall todo i s,
             keeps ["Va/"%string] s (snd (store_pending_va_loop i todo s))).
  { induction todo as [| l r IH]; intros i s; cbn [store_pending_va_loop snd].
    - apply keeps_refl.
    - destruct (lab_changed l); cbn [negb]; loop_step IH; [| exact IH].
      eapply keeps_trans; [| exact IH].
      destruct (lab_ref l =? 0); [apply keeps_refl | apply keeps_save; reflexivity]. }
  specialize (H (labels st) 0%nat st).
  destruct (store_pending_va_loop 0 (labels st) st).
  eapply keeps_local; [exact H |]. local_setter.
Qed.

Lemma mod_path_prefix (m : bt_mesh_model) (vnd : bool) (key : string) :
  existsb (fun q => is_prefix q (encode_mod_path m vnd key)) ["s/"%string; "v/"%string]
  = true.
Proof. unfold encode_mod_path. destruct vnd; reflexivity. Qed.

Lemma store_pending_mod_keeps (m : bt_mesh_model) (st : mesh) :
  keeps ["s/"%string; "v/"%string] st (snd (store_pending_mod m st)).
Proof.
  unfold store_pending_mod, store_pending_mod_bind, store_pending_mod_sub,
    store_pending_mod_pub.
  destruct (mod_flags m =? 0); [apply keeps_refl |].
  repeat match goal with
         | |- context [if ?b then _ else _] => destruct b; cbn [snd fst negb]
         end;
    repeat (first [apply keeps_refl
                  | eapply keeps_trans; [| apply keeps_save, mod_path_prefix]
                  | apply keeps_save, mod_path_prefix]).
Qed.

Lemma store_pending_models_ok :
  body_ok ["s/"%string; "v/"%string] store_pending_models.
Proof.
  intros st. unfold store_pending_models.
  assert (H : forall todo s,
             keeps ["s/"%string; "v/"%string] s
               (snd (foreach_store_pending_mod todo s))).
  { induction todo as [| m r IH]; intros s; cbn [foreach_store_pending_mod snd].
    - apply keeps_refl.
    - pose proof (store_pending_mod_keeps m s) as Hm.
      destruct (store_pending_mod m s) as [m' s1]. cbn [snd] in Hm.
      loop_step IH. eapply keeps_trans; eassumption. }
  specialize (H (models st) st).
  destruct (foreach_store_pending_mod (models st) st).
  eapply keeps_local; [exact H |]. local_setter.
Qed.

#[local] Hint Resolve rpl_body_ok store_pending_keys_ok net_body_ok iv_body_ok
  store_pending_seq_ok store_pending_hb_pub_ok cfg_body_ok
  store_pending_models_ok store_pending_va_ok store_pending_role_ok
  store_pending_nodes_ok : flush.

Lemma is_prefix_refl_eq (q p P : string) :
  is_prefix q p = true -> is_prefix q P = false -> String.eqb p P = false.
Proof.
  intros Hp HP. destruct (String.eqb_spec p P) as [-> |]; [congruence | reflexivity].
Qed.

Lemma path_in_other (qs : list string) (P : string) (e : event) :
  path_in qs e -> forallb (fun q => negb (is_prefix q P)) qs = true ->
  writes_to P e = false.
Proof.
  intros (p & k & v & -> & Hex) Hall. cbn.
  apply existsb_exists in Hex as (q & Hin & Hq).
  rewrite forallb_forall in Hall. specialize (Hall q Hin).
  apply negb_true_iff in Hall. eapply is_prefix_refl_eq; eassumption.
Qed.

Lemma filter_path_in_other (qs : list string) (P : string) (evs : list event) :
  Forall (path_in qs) evs -> forallb (fun q => negb (is_prefix q P)) qs = true ->
  List.filter (writes_to P) evs = [].
Proof.
  intros H Hall. induction H as [| e evs He _ IH]; [reflexivity |].
  cbn [List.filter]. rewrite (path_in_other _ _ _ He Hall). exact IH.
Qed.

Lemma quiet_refl (P : string) (st : mesh) : quiet P [] st st.
Proof.
  unfold quiet. repeat split. exists []. rewrite app_nil_r. split; reflexivity.
Qed.

Lemma quiet_trans (P : string) (c1 c2 : list mesh_flag) (a b c : mesh) :
  quiet P c1 a b -> quiet P c2 b c -> quiet P (c1 ++ c2) a c.
Proof.
  intros (A1 & A2 & A3 & A4 & A5 & A6 & e1 & T1 & F1)
         (B1 & B2 & B3 & B4 & B5 & B6 & e2 & T2 & F2).
  unfold quiet. repeat split; try congruence.
  - intros g Hg. rewrite B6, A6; [reflexivity | |];
      intros Hin; apply Hg, elem_of_app; auto.
  - exists (e1 ++ e2). split; [rewrite T2, T1, app_assoc; reflexivity |].
    rewrite List.filter_app, F1, F2. reflexivity.
Qed.

Lemma test_bit_flags (a b : mesh) (g : mesh_flag) :
  flags a = flags b -> atomic_test_bit a g = atomic_test_bit b g.
Proof. unfold atomic_test_bit. intros ->. reflexivity. Qed.

Lemma when_pending_quiet (P : string) (b : mesh_flag * (mesh -> mesh) * list string)
    (st : mesh) :
  quiet_block P b ->
  quiet P [fst (fst b)] st (when_pending (fst (fst b)) (snd (fst b)) st).
Proof.
  destruct b as [[f body] qs]. cbn [fst snd]. intros [Hok Hqs].
  unfold when_pending, atomic_test_and_clear_bit.
  assert (Hbits : forall s, flags s = flags (atomic_clear_bit f st) ->
                  forall g, g ∉ [f] -> atomic_test_bit s g = atomic_test_bit st g).
  { intros s Hs g Hg. rewrite (test_bit_flags _ _ g Hs), test_clear_bit.
    case_decide; [subst; exfalso; apply Hg; constructor | reflexivity]. }
  destruct (atomic_test_bit st f).
  - destruct (Hok (atomic_clear_bit f st)) as (Hf & A1 & A2 & A3 & A4 & A5 & e & T & Pe).
    unfold quiet. repeat split; try assumption.
    + apply Hbits, Hf.
    + exists e. split; [exact T | eapply filter_path_in_other; eassumption].
  - unfold quiet. repeat split; try reflexivity.
    + apply Hbits. reflexivity.
    + exists []. cbn. rewrite app_nil_r. split; reflexivity.
Qed.

Lemma run_blocks_quiet (P : string)
    (bs : list (mesh_flag * (mesh -> mesh) * list string)) :
  Forall (quiet_block P) bs ->
  forall st, quiet P (map (fun b => fst (fst b)) bs) st (run_blocks bs st).
Proof.
  unfold run_blocks. induction 1 as [| b bs Hb _ IH]; intros st; cbn [foldl map].
  - apply quiet_refl.
  - change (fst (fst b) :: map (fun b => fst (fst b)) bs)
      with ([fst (fst b)] ++ map (fun b => fst (fst b)) bs).
    eapply quiet_trans; [apply when_pending_quiet, Hb | apply IH].
Qed.

(** The writes of a whole flush to one store key, for a key that a single
    block [(F, body)] of the flush writes: they are the writes of that block,
    made on the state the earlier blocks leave with [F] cleared. *)
Lemma flush_writes_of_block (P : string) (F : mesh_flag) (body : mesh -> mesh)
    (qs : list string) (pre post : list (mesh_flag * (mesh -> mesh) * list string))
    (expected : mesh -> list event) :
  store_blocks = pre ++ (F, body, qs) :: post ->
  Forall (quiet_block P) pre -> Forall (quiet_block P) post ->
  F ∉ map (fun b => fst (fst b)) pre ->
  (forall s, trace (body s) = trace s ++ expected s /\
             List.filter (writes_to P) (expected s) = expected s) ->
  forall st,
  let st1 := run_blocks pre st in
  quiet P (map (fun b => fst (fst b)) pre) st st1 /\
  List.filter (writes_to P) (trace_since st (store_pending st)) =
    if atomic_test_bit st F then expected (atomic_clear_bit F st1) else [].
Proof.
  intros Hsplit Hpre Hpost HF Hbody st st1.
  pose proof (run_blocks_quiet P pre Hpre st) as Hq. fold st1 in Hq.
  split; [exact Hq |].
  rewrite store_pending_as_blocks, Hsplit. unfold run_blocks.
  rewrite foldl_app. cbn [foldl fst snd]. fold (run_blocks pre st). fold st1.
  set (st2 := when_pending F body st1).
  pose proof (run_blocks_quiet P post Hpost st2) as Hq3.
  unfold run_blocks in Hq3.
  destruct Hq as (_ & _ & _ & _ & _ & Hbits & e1 & T1 & F1).
  destruct Hq3 as (_ & _ & _ & _ & _ & _ & e3 & T3 & F3).
  assert (T2 : trace st2 = trace st1 ++
                 if atomic_test_bit st F then expected (atomic_clear_bit F st1) else []).
  { subst st2. unfold when_pending, atomic_test_and_clear_bit.
    rewrite (Hbits F HF). destruct (atomic_test_bit st F).
    - exact (proj1 (Hbody (atomic_clear_bit F st1))).
    - cbn. rewrite app_nil_r. reflexivity. }
  unfold trace_since. rewrite T3, T2, T1, <- !app_assoc, drop_app_length.
  rewrite !List.filter_app, F1, F3, app_nil_r. cbn [app].
  destruct (atomic_test_bit st F); [apply (proj2 (Hbody _)) | reflexivity].
Qed.

Lemma test_clear_other (f g : mesh_flag) (st : mesh) :
  f <> g -> atomic_test_bit (atomic_clear_bit f st) g = atomic_test_bit st g.
Proof. intros. rewrite test_clear_bit. case_decide; [contradiction | reflexivity]. Qed.

(** C9. In a run of the deferred flush, the writes that reach the store keys
    of the network, IV and configuration records are these: nothing when the
    category is not pending; when it is pending and the mesh is valid, the
    current value (for the configuration record, provided the configuration
    server exists); when it is pending and the mesh is not valid, one
    zero-length write that clears the key. *)
Theorem C9_store_only_when_valid (st : mesh) :
  let evs := trace_since st (store_pending st) in
  let valid := atomic_test_bit st BT_MESH_VALID in
  List.filter (writes_to "Net") evs =
    (if atomic_test_bit st BT_MESH_NET_PENDING then
       [if valid then StoreUpdate "Net" 1 (net_val_bytes st)
        else StoreUpdate "Net" 0 []]
     else []) /\
  List.filter (writes_to "IV") evs =
    (if atomic_test_bit st BT_MESH_IV_PENDING then
       [if valid then StoreUpdate "IV" 1 (iv_val_bytes st)
        else StoreUpdate "IV" 0 []]
     else []) /\
  List.filter (writes_to "Cfg") evs =
    (if atomic_test_bit st BT_MESH_CFG_PENDING then
       if valid then
         match cfg_srv st with
         | Some c => [StoreUpdate "Cfg" 1 (cfg_val_bytes c)]
         | None => []
         end
       else [StoreUpdate "Cfg" 0 []]
     else []).
Proof.
  cbn zeta. split; [| split].
  - edestruct (flush_writes_of_block "Net" BT_MESH_NET_PENDING
                 (store_or_clear store_pending_net clear_net) ["Net"%string]
                 (firstn 2 store_blocks) (skipn 3 store_blocks)
                 (fun s => [if atomic_test_bit s BT_MESH_VALID
                            then StoreUpdate "Net" 1 (net_val_bytes s)
                            else StoreUpdate "Net" 0 []]))
      as [Hq ->]; [reflexivity | quiet_blocks | quiet_blocks | not_cleared | |].
    + intros s. unfold store_or_clear.
      destruct (atomic_test_bit s BT_MESH_VALID); split; try reflexivity.
      unfold store_pending_net. rewrite save_trace. cbn [Z.ltb Z.compare].
      rewrite take_ge; [reflexivity |].
      unfold net_val_bytes. rewrite length_app, length_fit, length_to_le. cbn. lia.
    + destruct Hq as (A1 & A2 & _ & _ & _ & Hbits & _).
      destruct (atomic_test_bit st BT_MESH_NET_PENDING); [| reflexivity].
      rewrite test_clear_other, Hbits by (discriminate || not_cleared).
      unfold net_val_bytes. cbn [dev_primary_addr dev_key atomic_clear_bit set_flags].
      rewrite A1, A2. reflexivity.
  - edestruct (flush_writes_of_block "IV" BT_MESH_IV_PENDING
                 (store_or_clear store_pending_iv clear_iv) ["IV"%string]
                 (firstn 3 store_blocks) (skipn 4 store_blocks)
                 (fun s => [if atomic_test_bit s BT_MESH_VALID
                            then StoreUpdate "IV" 1 (iv_val_bytes s)
                            else StoreUpdate "IV" 0 []]))
      as [Hq ->]; [reflexivity | quiet_blocks | quiet_blocks | not_cleared | |].
    + intros s. unfold store_or_clear.
      destruct (atomic_test_bit s BT_MESH_VALID); split; reflexivity.
    + destruct Hq as (_ & _ & A3 & A4 & _ & Hbits & _).
      destruct (atomic_test_bit st BT_MESH_IV_PENDING); [| reflexivity].
      rewrite test_clear_other, Hbits by (discriminate || not_cleared).
      unfold iv_val_bytes.
      rewrite test_clear_other, Hbits by (discriminate || not_cleared).
      cbn [iv_index ivu_duration atomic_clear_bit set_flags].
      rewrite A3, A4. reflexivity.
  - edestruct (flush_writes_of_block "Cfg" BT_MESH_CFG_PENDING
                 (store_or_clear store_pending_cfg clear_cfg) ["Cfg"%string]
                 (firstn 6 store_blocks) (skipn 7 store_blocks)
                 (fun s => if atomic_test_bit s BT_MESH_VALID
                           then match cfg_srv s with
                                | Some c => [StoreUpdate "Cfg" 1 (cfg_val_bytes c)]
                                | None => []
                                end
                           else [StoreUpdate "Cfg" 0 []]))
      as [Hq ->]; [reflexivity | quiet_blocks | quiet_blocks | not_cleared | |].
    + intros s. unfold store_or_clear, store_pending_cfg.
      destruct (atomic_test_bit s BT_MESH_VALID); [destruct (cfg_srv s) |];
        split; try reflexivity.
      cbn. rewrite app_nil_r. reflexivity.
    + destruct Hq as (_ & _ & _ & _ & A5 & Hbits & _).
      destruct (atomic_test_bit st BT_MESH_CFG_PENDING); [| reflexivity].
      rewrite test_clear_other, Hbits by (discriminate || not_cleared).
      cbn [cfg_srv atomic_clear_bit set_flags]. rewrite A5. reflexivity.
Qed.

(** ** Loading *)

Lemma conf_load_code (recs : list (string * bytes)) (last : Z) :
  forall st, fst (conf_load recs last st) = last.
Proof.
  induction recs as [| [key value] r IH]; intros st; cbn; [reflexivity | apply IH].
Qed.

(** C6, as the code has it.  A zero-length payload clears the entity in the
    decoders of the network, IV, sequence, replay-protection, NetKey, AppKey,
    heartbeat-publication, configuration, model binding, subscription and
    publication, and node records; it is never decoded as a record of
    zeros.  The decoder of the virtual-address labels and the decoder of the
    role ignore a zero-length payload: they return 0 and change nothing. *)
Theorem C6_zero_length_payload (key : string) (m : bt_mesh_model) (st : mesh) :
  net_set_bin [] st
    = (0, set_dev_key (zeros 16) (bt_mesh_comp_unprovision ext st)) /\
  iv_set_bin [] st
    = (0, atomic_clear_bit BT_MESH_IVU_IN_PROGRESS (set_iv_index 0 st)) /\
  seq_set_bin [] st = (0, set_seq 0 st) /\
  rpl_set_bin key [] st
    = (0, match rpl_find (u16 (strtol16 (string_drop 4 key))) st with
          | Some i => set_rpl (<[i := rpl_zero]> (rpl st)) st
          | None => st
          end) /\
  net_key_set_bin key [] st
    = match bt_mesh_subnet_get ext (u16 (strtol16 (string_drop 7 key))) (sub st) with
      | Some i => (0, bt_mesh_subnet_del ext i st)
      | None => (- ENOENT, st)
      end /\
  app_key_set_bin key [] st
    = (0, match bt_mesh_app_key_find ext (u16 (strtol16 (string_drop 7 key)))
                  (app_keys st) with
          | Some i => bt_mesh_app_key_del ext i st
          | None => st
          end) /\
  hb_pub_set_bin [] st
    = match hb_pub st with
      | Some pub =>
          (0, set_hb_pub
                (Some {| hb_dst := BT_MESH_ADDR_UNASSIGNED cfg; hb_count := 0;
                         hb_period := 0; hb_ttl := 0; hb_feat := 0;
                         hb_net_idx := hb_net_idx pub |}) st)
      | None => (- ENOENT, st)
      end /\
  cfg_set_bin [] st
    = match cfg_srv st with
      | Some _ => (0, set_stored_cfg_valid false st)
      | None => (- ENOENT, st)
      end /\
  mod_set_bind_bin [] m
    = (0, mod_set_keys (replicate (length (mod_keys m)) (BT_MESH_KEY_UNUSED cfg)) m) /\
  mod_set_sub_bin [] m
    = (0, mod_set_groups (replicate (length (mod_groups m)) 0) m) /\
  mod_set_pub_bin [] m
    = match mod_pub m with
      | Some p =>
          (0, mod_set_pub
                (Some {| pub_addr := BT_MESH_ADDR_UNASSIGNED cfg; pub_key := 0;
                         pub_ttl := 0; pub_retransmit := 0; pub_period := 0;
                         pub_period_div := pub_period_div p; pub_cred := 0;
                         pub_count := 0; pub_update := pub_update p |}) m)
      | None => (- EINVAL, m)
      end /\
  node_set_bin key [] st
    = (0, match bt_mesh_node_find ext (u16 (strtol16 (string_drop 5 key))) (nodes st) with
          | Some i => bt_mesh_node_del ext i st
          | None => st
          end) /\
  va_set_bin key [] st = (0, st) /\
  role_set_bin [] st = (0, st).
Proof.
  unfold rpl_set_bin, net_key_set_bin, app_key_set_bin, hb_pub_set_bin,
    cfg_set_bin, mod_set_pub_bin, node_set_bin.
  cbn [length Nat.eqb].
  repeat split;
    repeat match goal with
           | |- context [match ?o with Some _ => _ | None => _ end] => destruct o
           end; reflexivity.
Qed.

(** ** Record codecs *)

Lemma bits_low (w v : Z) : 0 <= w -> bits 0 w v = v mod 2 ^ w.
Proof. intros. rewrite bits_div_mod by lia. rewrite Z.pow_0_r, Z.div_1_r. reflexivity. Qed.

Lemma bool_to_Z_range (b : bool) : 0 <= bool_to_Z b < 2.
Proof. destruct b; cbn; lia. Qed.

Lemma bool_of_bool_to_Z (b : bool) : negb (bool_to_Z b =? 0) = b.
Proof. destruct b; reflexivity. Qed.

Lemma fit_exact (n : nat) (bs : bytes) : length bs = n -> fit n bs = bs.
Proof. intros <-. unfold fit. rewrite take_app_length. reflexivity. Qed.

Lemma hb_unit_fields (net indef junk : Z) :
  0 <= net < 4096 -> 0 <= indef < 2 ->
  let unit := Z.lor (Z.lor (Z.land net 4095) (Z.shiftl indef 12))
                    (Z.shiftl (Z.land junk 7) 13) in
  0 <= unit < 65536 /\ bits 0 12 unit = net /\ bits 12 1 unit = indef.
Proof.
  intros Hn Hi. cbn zeta.
  rewrite (land_ones_mod net 12), (land_ones_mod junk 3) by (reflexivity || lia).
  rewrite (Z.mod_small net) by lia.
  pose proof (Z.mod_pos_bound junk (2 ^ 3) ltac:(lia)) as Hj.
  rewrite (lor_shiftl_add net) by lia.
  rewrite lor_shiftl_add by lia.
  rewrite !bits_div_mod by lia.
  change (2 ^ 0) with 1. change (2 ^ 1) with 2. change (2 ^ 3) with 8 in *.
  change (2 ^ 12) with 4096. change (2 ^ 13) with 8192.
  Z.div_mod_to_equations. lia.
Qed.

Lemma rpl_unit_fields (sq old junk : Z) :
  0 <= sq < 16777216 -> 0 <= old < 2 ->
  let unit := Z.lor (Z.lor (Z.land sq 16777215) (Z.shiftl old 24))
                    (Z.shiftl (Z.land junk 127) 25) in
  0 <= unit < 4294967296 /\ bits 0 24 unit = sq /\ bits 24 1 unit = old.
Proof.
  intros Hs Ho. cbn zeta.
  rewrite (land_ones_mod sq 24), (land_ones_mod junk 7) by (reflexivity || lia).
  rewrite (Z.mod_small sq) by lia.
  pose proof (Z.mod_pos_bound junk (2 ^ 7) ltac:(lia)) as Hj.
  rewrite (lor_shiftl_add sq) by lia.
  rewrite lor_shiftl_add by lia.
  rewrite !bits_div_mod by lia.
  change (2 ^ 0) with 1. change (2 ^ 1) with 2. change (2 ^ 7) with 128 in *.
  change (2 ^ 24) with 16777216. change (2 ^ 25) with 33554432.
  Z.div_mod_to_equations. lia.
Qed.

Lemma flag_unit_fields (flag v : Z) :
  0 <= flag < 2 -> 0 <= v < 128 ->
  let unit := Z.lor flag (Z.shiftl (Z.land v 127) 1) in
  is_byte unit /\ bits 0 1 unit = flag /\ bits 1 7 unit = v.
Proof.
  intros Hf Hv. cbn zeta. unfold is_byte.
  rewrite (land_ones_mod v 7) by (reflexivity || lia).
  rewrite (Z.mod_small v) by lia.
  rewrite lor_shiftl_add by lia.
  rewrite !bits_div_mod by lia.
  change (2 ^ 0) with 1. change (2 ^ 1) with 2. change (2 ^ 7) with 128.
  Z.div_mod_to_equations. lia.
Qed.

Lemma hb_pub_round_trip (junk : Z) (pub p0 : bt_mesh_hb_pub) (st : mesh) :
  hb_pub_valid pub -> hb_pub st = Some p0 ->
  hb_pub_set_bin (hb_pub_val_bytes junk pub) st
  = (0, set_hb_pub (Some (hb_pub_restored pub)) st).
Proof.
  intros (Hne & Hd & Hp & Ht & Hf & Hn) Hst. unfold is_byte in *.
  unfold hb_pub_set_bin, hb_pub_val_bytes. rewrite Hst, !to_le_2.
  cbn [app length Nat.eqb negb slice take drop byte_at nth].
  destruct (hb_unit_fields (hb_net_idx pub) (bool_to_Z (hb_count pub =? 65535)) junk
              Hn (bool_to_Z_range _)) as (Hu & Hlo & Hhi).
  set (unit := Z.lor _ _) in *.
  rewrite !of_le_2 by (apply Z.mod_pos_bound; lia).
  replace (unit mod 256 + 256 * ((unit / 256) mod 256)) with unit
    by (Z.div_mod_to_equations; lia).
  rewrite Hlo, Hhi, bool_of_bool_to_Z. unfold hb_pub_restored, u8.
  do 3 f_equal. f_equal; try (Z.div_mod_to_equations; lia).
Qed.

Lemma iv_round_trip (src st : mesh) :
  iv_valid src ->
  iv_set_bin (iv_val_bytes src) st
  = (0, set_ivu_duration (ivu_duration src)
          (atomic_set_bit_to BT_MESH_IVU_IN_PROGRESS
             (atomic_test_bit src BT_MESH_IVU_IN_PROGRESS)
             (set_iv_index (iv_index src) st))).
Proof.
  intros [Hi Hd]. unfold iv_set_bin, iv_val_bytes.
  destruct (flag_unit_fields
              (bool_to_Z (atomic_test_bit src BT_MESH_IVU_IN_PROGRESS))
              (ivu_duration src) (bool_to_Z_range _) Hd) as (_ & Hlo & Hhi).
  set (unit := Z.lor _ _) in *.
  pose proof (of_le_to_le_4 (iv_index src) Hi) as Hidx.
  rewrite to_le_4 in *.
  cbn [app length Nat.eqb negb slice take drop byte_at nth].
  rewrite Hidx, Hlo, Hhi, bool_of_bool_to_Z. reflexivity.
Qed.

Lemma cfg_round_trip (c c0 : cfg_val) (st : mesh) :
  cfg_valid c -> cfg_srv st = Some c0 ->
  cfg_set_bin (cfg_val_bytes c) st
  = (0, set_stored_cfg_valid true (set_stored_cfg_cfg c st)).
Proof.
  intros (H1 & H2 & H3 & H4 & H5 & H6 & H7) Hst. unfold is_byte in *.
  unfold cfg_set_bin. rewrite Hst. cbn [cfg_val_bytes length Nat.eqb negb].
  unfold cfg_val_of_bytes, cfg_val_bytes, byte_at, u8. cbn [nth].
  rewrite !Z.mod_small by assumption. destruct c. reflexivity.
Qed.

Lemma rpl_round_trip (junk : Z) (e : bt_mesh_rpl) (key : string) (i : nat) (st : mesh) :
  rpl_valid e ->
  rpl_find (u16 (strtol16 (string_drop 4 key))) st = Some i ->
  rpl_set_bin key (rpl_val_bytes junk e) st
  = (0, set_rpl (alter (rpl_restored e) i (rpl st)) st).
Proof.
  intros He Hfind. unfold rpl_set_bin. rewrite Hfind.
  unfold rpl_val_bytes.
  destruct (rpl_unit_fields (rpl_seq e) (bool_to_Z (rpl_old_iv e)) junk He
              (bool_to_Z_range _)) as (Hu & Hlo & Hhi).
  set (unit := Z.lor _ _) in *.
  rewrite length_to_le. cbn [Nat.eqb negb].
  rewrite of_le_to_le_4 by exact Hu.
  do 2 f_equal. apply list_alter_ext; [| reflexivity].
  intros e0 _. unfold rpl_restore, rpl_restored.
  rewrite Hlo, Hhi, bool_of_bool_to_Z. reflexivity.
Qed.

Lemma net_key_round_trip (s : bt_mesh_subnet) (key : string) (i : nat) (st : mesh) :
  subnet_valid s ->
  bt_mesh_subnet_get ext (u16 (strtol16 (string_drop 7 key))) (sub st) = Some i ->
  net_key_set_bin key (net_key_val_bytes s) st
  = (0, set_sub (alter (fun s0 => subnet_restored (net_idx s0) s s0) i (sub st)) st).
Proof.
  intros (Hp & H0 & H1) Hget. unfold net_key_set_bin. rewrite Hget.
  unfold net_key_val_bytes.
  destruct (flag_unit_fields (bool_to_Z (kr_flag s)) (kr_phase s)
              (bool_to_Z_range _) Hp) as (_ & Hlo & Hhi).
  set (unit := Z.lor _ _) in *.
  rewrite !fit_exact by assumption.
  cbn [length]. rewrite length_app, H0, H1. cbn [Nat.add Nat.eqb negb].
  cbn [byte_at nth]. unfold slice. cbn [drop].
  rewrite drop_0, take_app_length', drop_app_length' by (symmetry; assumption).
  rewrite take_ge by lia.
  do 2 f_equal. apply list_alter_ext; [| reflexivity].
  intros s0 _. unfold subnet_restore, subnet_restored.
  rewrite Hlo, Hhi, bool_of_bool_to_Z. reflexivity.
Qed.

Lemma va_round_trip (l : label) (key : string) (i : nat) (st : mesh) :
  label_valid l ->
  get_label (u16 (strtol16 (string_drop 3 key))) st = Some i ->
  va_set_bin key (va_val_bytes l) st
  = (0, set_labels (alter (label_restored l) i (labels st)) st).
Proof.
  intros (Hr & Ha & Hu) Hget. unfold va_set_bin, va_val_bytes.
  rewrite !to_le_2, fit_exact by assumption.
  cbn [app length]. rewrite Hu. cbn [Nat.eqb negb]. unfold slice.
  cbn [take drop].
  rewrite !of_le_2 by (apply Z.mod_pos_bound; lia).
  replace (lab_ref l mod 256 + 256 * ((lab_ref l / 256) mod 256)) with (lab_ref l)
    by (Z.div_mod_to_equations; lia).
  replace (lab_addr l mod 256 + 256 * ((lab_addr l / 256) mod 256)) with (lab_addr l)
    by (Z.div_mod_to_equations; lia).
  replace (lab_ref l =? 0) with false by (symmetry; apply Z.eqb_neq; lia).
  rewrite Hget, ?drop_0, take_ge by lia. reflexivity.
Qed.

Lemma store_pending_hb_pub_payload (pub : bt_mesh_hb_pub) (st : mesh) :
  hb_pub st = Some pub -> hb_dst pub <> BT_MESH_ADDR_UNASSIGNED cfg ->
  trace (store_pending_hb_pub st)
  = trace st ++ [StoreUpdate "HBPub" 1
                   (hb_pub_val_bytes (stack_junk ext (trace st)) pub)].
Proof.
  intros Hst Hne. unfold store_pending_hb_pub. rewrite Hst.
  apply Z.eqb_neq in Hne. rewrite Hne, save_trace.
  unfold hb_pub_val_bytes. rewrite !to_le_2. reflexivity.
Qed.

(** * Further properties of the code *)

(** ** Lookups *)

Lemma find_index_first {A} (p : A -> bool) (l : list A) :
  forall i, find_index p l = Some i ->
  (exists x, l !! i = Some x /\ p x = true) /\
  (forall j y, (j < i)%nat -> l !! j = Some y -> p y = false).
Proof.
  induction l as [| a l IH]; intros i; cbn [find_index]; [discriminate |].
  destruct (p a) eqn:Hp.
  - intros [= <-]. split; [exists a; split; [reflexivity | exact Hp] |].
    intros j y Hj. lia.
  - destruct (find_index p l) as [k |] eqn:E; cbn; [| discriminate].
    intros [= <-]. destruct (IH k eq_refl) as [Hx Hlt]. split; [exact Hx |].
    intros [| j] y Hj; cbn.
    + intros [= <-]. exact Hp.
    + apply Hlt. lia.
Qed.

Lemma find_index_none {A} (p : A -> bool) (l : list A) :
  find_index p l = None -> forall j y, l !! j = Some y -> p y = false.
Proof.
  induction l as [| a l IH]; cbn [find_index]; intros H j y Hy.
  - rewrite lookup_nil in Hy. discriminate.
  - destruct (p a) eqn:Hp; [discriminate |].
    destruct (find_index p l) eqn:E; [discriminate |].
    destruct j as [| j]; cbn in Hy.
    + injection Hy as <-. exact Hp.
    + eapply IH; [reflexivity | exact Hy].
Qed.

Lemma find_index_intro {A} (p : A -> bool) (l : list A) :
  forall i x, l !! i = Some x -> p x = true ->
  (forall j y, (j < i)%nat -> l !! j = Some y -> p y = false) ->
  find_index p l = Some i.
Proof.
  induction l as [| a l IH]; intros i x Hx Hp Hlt.
  - rewrite lookup_nil in Hx. discriminate.
  - cbn [find_index]. destruct i as [| i]; cbn in Hx.
    + injection Hx as ->. rewrite Hp. reflexivity.
    + rewrite (Hlt 0%nat a) by (lia || reflexivity).
      rewrite (IH i x Hx Hp); [reflexivity |].
      intros j y Hj Hy. apply (Hlt (S j) y); [lia | exact Hy].
Qed.

(** ** Dispatch of a record to its decoder *)

Lemma dispatch_Net (key : string) (value : bytes) (st : mesh) :
  chop_slash key = "Net"%string -> mesh_set_bin key value st = net_set_bin value st.
Proof. by_dispatch. Qed.

Lemma dispatch_IV (key : string) (value : bytes) (st : mesh) :
  chop_slash key = "IV"%string -> mesh_set_bin key value st = iv_set_bin value st.
Proof. by_dispatch. Qed.

Lemma dispatch_Seq (key : string) (value : bytes) (st : mesh) :
  chop_slash key = "Seq"%string -> mesh_set_bin key value st = seq_set_bin value st.
Proof. by_dispatch. Qed.

Lemma dispatch_RPL (key : string) (value : bytes) (st : mesh) :
  chop_slash key = "RPL"%string -> mesh_set_bin key value st = rpl_set_bin key value st.
Proof. by_dispatch. Qed.

Lemma dispatch_NetKey (key : string) (value : bytes) (st : mesh) :
  chop_slash key = "NetKey"%string ->
  mesh_set_bin key value st = net_key_set_bin key value st.
Proof. by_dispatch. Qed.

Lemma dispatch_AppKey (key : string) (value : bytes) (st : mesh) :
  chop_slash key = "AppKey"%string ->
  mesh_set_bin key value st = app_key_set_bin key value st.
Proof. by_dispatch. Qed.

Lemma dispatch_HBPub (key : string) (value : bytes) (st : mesh) :
  chop_slash key = "HBPub"%string ->
  mesh_set_bin key value st = hb_pub_set_bin value st.
Proof. by_dispatch. Qed.

Lemma dispatch_Cfg (key : string) (value : bytes) (st : mesh) :
  chop_slash key = "Cfg"%string -> mesh_set_bin key value st = cfg_set_bin value st.
Proof. by_dispatch. Qed.

Lemma dispatch_Role (key : string) (value : bytes) (st : mesh) :
  chop_slash key = "Role"%string -> mesh_set_bin key value st = role_set_bin value st.
Proof. by_dispatch. Qed.

Lemma dispatch_model (vnd : bool) (key : string) (value : bytes) (st : mesh) :
  chop_slash key = (if vnd then "v" else "s")%string ->
  mesh_set_bin key value st = mod_set_bin vnd key value st.
Proof. destruct vnd; by_dispatch. Qed.

Lemma dispatch_Va (key : string) (value : bytes) (st : mesh) :
  chop_slash key = "Va"%string ->
  mesh_set_bin key value st =
  if 0 <? CONFIG_BT_MESH_LABEL_COUNT cfg then va_set_bin key value st
  else (- ENOENT, st).
Proof.
  intros. unfold mesh_set_bin, settings. rewrite H.
  destruct (0 <? CONFIG_BT_MESH_LABEL_COUNT cfg), (CONFIG_BT_MESH_PROVISIONER cfg);
    cbn [app dispatch]; eval_string_eqb; reflexivity.
Qed.

Lemma dispatch_Node (key : string) (value : bytes) (st : mesh) :
  chop_slash key = "Node"%string ->
  mesh_set_bin key value st =
  if CONFIG_BT_MESH_PROVISIONER cfg then node_set_bin key value st
  else (- ENOENT, st).
Proof.
  intros. unfold mesh_set_bin, settings. rewrite H.
  destruct (0 <? CONFIG_BT_MESH_LABEL_COUNT cfg), (CONFIG_BT_MESH_PROVISIONER cfg);
    cbn [app dispatch]; eval_string_eqb; reflexivity.
Qed.

Lemma dispatch_unknown (tbl : list (string * handler)) (name key : string)
    (value : bytes) (st : mesh) :
  forallb (fun nf => negb (String.eqb (fst nf) name)) tbl = true ->
  dispatch tbl name key value st = (- ENOENT, st).
Proof.
  induction tbl as [| [n f] tbl IH]; cbn [forallb dispatch fst]; [reflexivity |].
  intros H. apply andb_true_iff in H as [Hn Ht].
  apply negb_true_iff in Hn. rewrite Hn. exact (IH Ht).
Qed.

Lemma conf_load_app (a b : list (string * bytes)) (last : Z) :
  forall st, conf_load (a ++ b) last st = conf_load b last (snd (conf_load a last st)).
Proof.
  induction a as [| [k v] a IH]; intros st; cbn [app conf_load snd]; [reflexivity |].
  apply IH.
Qed.

(** X1.  A record of one of the fixed-size categories (Net, IV, Seq, NetKey,
    AppKey, HBPub, Cfg, Va, Node) whose payload is neither empty nor of the
    size of the category's struct is rejected by the loader: [mesh_set_bin]
    leaves the whole state as it was and returns [-EINVAL], or [-ENOENT]
    when the object the record belongs to is not there (no heartbeat
    publication or configuration server, or a build without labels or
    without the provisioner role). *)
Theorem X1_wrong_length_rejected
    (name key : string) (n : nat) (value : bytes) (st : mesh) :
  record_size name = Some n -> chop_slash key = name ->
  length value <> 0%nat -> length value <> n ->
  snd (mesh_set_bin key value st) = st /\
  (fst (mesh_set_bin key value st) = - EINVAL \/
   fst (mesh_set_bin key value st) = - ENOENT) /\
  (hb_pub st <> None -> cfg_srv st <> None ->
   (0 <? CONFIG_BT_MESH_LABEL_COUNT cfg) = true ->
   CONFIG_BT_MESH_PROVISIONER cfg = true ->
   fst (mesh_set_bin key value st) = - EINVAL).
Proof.
  intros Hn Hk H0 Hlen. apply Nat.eqb_neq in H0.
  unfold record_size, record_sizes in Hn. cbn [List.find fst snd] in Hn.
  repeat match type of Hn with
         | context [String.eqb ?a name] =>
             destruct (String.eqb_spec a name) as [<- | ?]
         end; cbn in Hn; try discriminate; injection Hn as <-;
    apply Nat.eqb_neq in Hlen.
  - rewrite dispatch_Net by assumption. unfold net_set_bin.
    rewrite H0, Hlen. cbn. auto.
  - rewrite dispatch_IV by assumption. unfold iv_set_bin.
    rewrite H0, Hlen. cbn. auto.
  - rewrite dispatch_Seq by assumption. unfold seq_set_bin.
    rewrite H0, Hlen. cbn. auto.
  - rewrite dispatch_NetKey by assumption. unfold net_key_set_bin.
    rewrite H0, Hlen. cbn. auto.
  - rewrite dispatch_AppKey by assumption. unfold app_key_set_bin.
    rewrite H0, Hlen. cbn. auto.
  - rewrite dispatch_HBPub by assumption. unfold hb_pub_set_bin.
    destruct (hb_pub st); [rewrite H0, Hlen |]; cbn; intuition congruence.
  - rewrite dispatch_Cfg by assumption. unfold cfg_set_bin.
    destruct (cfg_srv st); [rewrite H0, Hlen |]; cbn; intuition congruence.
  - rewrite dispatch_Va by assumption. unfold va_set_bin.
    destruct (0 <? CONFIG_BT_MESH_LABEL_COUNT cfg);
      [rewrite H0, Hlen |]; cbn; intuition congruence.
  - rewrite dispatch_Node by assumption. unfold node_set_bin.
    destruct (CONFIG_BT_MESH_PROVISIONER cfg);
      [rewrite H0, Hlen |]; cbn; intuition congruence.
Qed.

(** X2.  The replay-protection decoder looks its entry up, and allocates one
    if there is none, before it tests the payload length.  A record whose
    payload is neither empty nor four bytes long is therefore rejected with
    [-EINVAL] without a change when the source address has an entry, but
    when it has none the first free entry is claimed for the address first
    and stays claimed; with no free entry the result is [-ENOMEM]. *)
Theorem X2_rpl_wrong_length_takes_slot (key : string) (value : bytes) (st : mesh) :
  let src := u16 (strtol16 (string_drop 4 key)) in
  length value <> 0%nat -> length value <> 4%nat ->
  (forall i, rpl_find src st = Some i -> rpl_set_bin key value st = (- EINVAL, st)) /\
  (rpl_find src st = None ->
   forall j, find_index (fun e => rpl_src e =? 0) (rpl st) = Some j ->
   let st' := set_rpl (alter (rpl_set_src src) j (rpl st)) st in
   rpl_set_bin key value st = (- EINVAL, st') /\ rpl_find src st' = Some j) /\
  (rpl_find src st = None ->
   find_index (fun e => rpl_src e =? 0) (rpl st) = None ->
   rpl_set_bin key value st = (- ENOMEM, st)).
Proof.
  intros src H0 H4. apply Nat.eqb_neq in H0, H4. unfold rpl_set_bin.
  fold src. rewrite H0. repeat split.
  - intros i Hi. rewrite Hi, H4. reflexivity.
  - rewrite H. unfold rpl_alloc. rewrite H1, H4. reflexivity.
  - unfold rpl_find in *. cbn [rpl set_rpl].
    destruct (find_index_first _ _ _ H1) as [(x & Hx & _) Hlt].
    eapply find_index_intro.
    + rewrite list_lookup_alter_eq, Hx. reflexivity.
    + cbn [rpl_set_src rpl_src]. apply Z.eqb_refl.
    + intros k y Hk Hy. rewrite list_lookup_alter_ne in Hy by lia.
      exact (find_index_none _ _ H k y Hy).
  - intros Hnone Hfull. rewrite Hnone. unfold rpl_alloc. rewrite Hfull. reflexivity.
Qed.

(** X3.  A record whose key names no entry of [settings] is answered with
    [-ENOENT] and changes nothing; the scan of the store does not look at
    the answer, so it ends in the same state and with the same code as a
    scan of the store without that record. *)
Theorem X3_unknown_key_skipped
    (key : string) (value : bytes) (before after : list (string * bytes))
    (last : Z) (st : mesh) :
  unknown_name (chop_slash key) = true ->
  mesh_set_bin key value st = (- ENOENT, st) /\
  conf_load (before ++ (key, value) :: after) last st
  = conf_load (before ++ after) last st.
Proof.
  intros Hu.
  assert (Hm : forall s, mesh_set_bin key value s = (- ENOENT, s)).
  { intros s. apply dispatch_unknown. exact Hu. }
  split; [apply Hm |].
  rewrite !conf_load_app. cbn [conf_load]. rewrite Hm. reflexivity.
Qed.

(** ** Store keys, printed and parsed back *)

Lemma hex_digits_shape (fuel : nat) :
  forall n acc, exists d r, 0 <= d < 16 /\
    hex_digits (S fuel) n acc = String (hex_digit d) r /\
    (r = acc \/ exists d' r', 0 <= d' < 16 /\ r = String (hex_digit d') r').
Proof.
  induction fuel as [| fuel IH]; intros n acc;
    assert (Hd : 0 <= n mod 16 < 16) by (apply Z.mod_pos_bound; lia).
  - exists (n mod 16), acc. split; [exact Hd |]. split; [| left; reflexivity].
    cbn [hex_digits]. destruct (n / 16 =? 0); reflexivity.
  - change (hex_digits (S (S fuel)) n acc) with
      (if n / 16 =? 0 then String (hex_digit (n mod 16)) acc
       else hex_digits (S fuel) (n / 16) (String (hex_digit (n mod 16)) acc)).
    destruct (n / 16 =? 0).
    + exists (n mod 16), acc. auto.
    + destruct (IH (n / 16) (String (hex_digit (n mod 16)) acc))
        as (d & r & Hdr & E & Hr).
      exists d, r. split; [exact Hdr |]. split; [exact E |]. right.
      destruct Hr as [-> | Hr]; [exists (n mod 16), acc; auto | exact Hr].
Qed.

Lemma hex_digits_append (fuel : nat) (s : string) :
  forall n acc,
  String.append (hex_digits fuel n acc) s = hex_digits fuel n (String.append acc s).
Proof.
  induction fuel as [| fuel IH]; intros n acc; cbn [hex_digits]; [reflexivity |].
  destruct (n / 16 =? 0); [reflexivity |]. rewrite IH. reflexivity.
Qed.

(** [strtol] on a string that starts with a hex digit which is followed by
    the end of the string, a slash or another hex digit: no blank, sign or
    [0x] is skipped. *)
Lemma strtol16_digits (d : Z) (r : string) :
  0 <= d < 16 ->
  r = EmptyString \/ (exists r', r = String "/" r') \/
  (exists d' r', 0 <= d' < 16 /\ r = String (hex_digit d') r') ->
  strtol16 (String (hex_digit d) r)
  = Z.min (hex_prefix (String (hex_digit d) r) 0) LONG_MAX.
Proof.
  intros Hd Hr.
  assert (d = 0 \/ d = 1 \/ d = 2 \/ d = 3 \/ d = 4 \/ d = 5 \/ d = 6 \/ d = 7 \/
          d = 8 \/ d = 9 \/ d = 10 \/ d = 11 \/ d = 12 \/ d = 13 \/ d = 14 \/
          d = 15) as Ed by lia.
  destruct Hr as [-> | [(r' & ->) | (d' & r' & Hd' & ->)]].
  - repeat destruct Ed as [-> | Ed]; try subst d; reflexivity.
  - repeat destruct Ed as [-> | Ed]; try subst d; reflexivity.
  - assert (d' = 0 \/ d' = 1 \/ d' = 2 \/ d' = 3 \/ d' = 4 \/ d' = 5 \/ d' = 6 \/
            d' = 7 \/ d' = 8 \/ d' = 9 \/ d' = 10 \/ d' = 11 \/ d' = 12 \/
            d' = 13 \/ d' = 14 \/ d' = 15) as Ed' by lia.
    repeat destruct Ed' as [-> | Ed']; try subst d';
      repeat destruct Ed as [-> | Ed]; try subst d; reflexivity.
Qed.

(** What [strtol] reads from the hex digits of [n], whatever follows them
    after a slash. *)
Lemma strtol16_fmt_x_slash (n : Z) (rest : string) :
  0 <= n < 2147483648 ->
  (rest = EmptyString \/ exists r, rest = String "/" r) ->
  strtol16 (String.append (fmt_x n) rest) = n.
Proof.
  intros Hn Hrest. unfold fmt_x. rewrite hex_digits_append. cbn [String.append].
  destruct (hex_digits_parse 8 n rest) as (k & _ & Hp).
  { change (16 ^ Z.of_nat 8) with 4294967296. lia. }
  destruct (hex_digits_shape 7 n rest) as (d & r & Hd & E & Hr).
  specialize (Hp 0). rewrite Z.mul_0_l, Z.add_0_l in Hp.
  rewrite E in *. rewrite strtol16_digits.
  - rewrite Hp. replace (hex_prefix rest n) with n.
    + unfold LONG_MAX. lia.
    + destruct Hrest as [-> | (r0 & ->)]; reflexivity.
  - exact Hd.
  - destruct Hr as [-> | Hr]; [| right; right; exact Hr].
    destruct Hrest as [-> | Hs]; [left; reflexivity | right; left; exact Hs].
Qed.

Lemma strtol16_fmt_x (n : Z) : 0 <= n < 65536 -> u16 (strtol16 (fmt_x n)) = n.
Proof.
  intros Hn. pose proof (strtol16_fmt_x_slash n EmptyString) as H.
  replace (String.append (fmt_x n) EmptyString) with (fmt_x n) in H.
  - rewrite H by (lia || auto). unfold u16. apply Z.mod_small. lia.
  - clear. induction (fmt_x n) as [| c s IH]; cbn; [reflexivity | rewrite <- IH; reflexivity].
Qed.

(** X4.  Every key the encoders print for an indexed record (a NetKey or
    AppKey index, a replay-protection source address, a label index, a node
    address, each below 2^16) is dispatched by the loader on the name of its
    category, and the index the decoder parses out of the key with
    [strtol(..., 16)] is the index that was printed with [%x]. *)
Theorem X4_store_key_print_parse (app : bool) (n : Z) :
  0 <= n < 65536 ->
  (chop_slash (key_path app n) = (if app then "AppKey" else "NetKey")%string /\
   u16 (strtol16 (string_drop 7 (key_path app n))) = n) /\
  (chop_slash (String.append "RPL/" (fmt_x n)) = "RPL"%string /\
   u16 (strtol16 (string_drop 4 (String.append "RPL/" (fmt_x n)))) = n) /\
  (chop_slash (String.append "Va/" (fmt_x n)) = "Va"%string /\
   u16 (strtol16 (string_drop 3 (String.append "Va/" (fmt_x n)))) = n) /\
  (chop_slash (String.append "Node/" (fmt_x n)) = "Node"%string /\
   u16 (strtol16 (string_drop 5 (String.append "Node/" (fmt_x n)))) = n).
Proof.
  intros Hn. pose proof (strtol16_fmt_x n Hn) as H.
  repeat split; try exact H; destruct app; try reflexivity; exact H.
Qed.

(** ** A NetKey record, from the flush to the next boot *)

Lemma net_key_set_bin_encoded (s : bt_mesh_subnet) (key : string) (st : mesh) :
  subnet_valid s ->
  let idx := u16 (strtol16 (string_drop 7 key)) in
  net_key_set_bin key (net_key_val_bytes s) st
  = match bt_mesh_subnet_get ext idx (sub st) with
    | Some k =>
        (0, set_sub (alter (fun s0 => subnet_restored (net_idx s0) s s0) k (sub st)) st)
    | None =>
        match find_index (fun x => net_idx x =? BT_MESH_KEY_UNUSED cfg) (sub st) with
        | Some i => (0, set_sub (alter (subnet_restored idx s) i (sub st)) st)
        | None => (- ENOMEM, st)
        end
    end.
Proof.
  intros Hs idx. destruct (bt_mesh_subnet_get ext idx (sub st)) as [k |] eqn:Hget.
  - apply net_key_round_trip; assumption.
  - destruct Hs as (Hp & H0 & H1). unfold net_key_set_bin. fold idx. rewrite Hget.
    unfold net_key_val_bytes.
    destruct (flag_unit_fields (bool_to_Z (kr_flag s)) (kr_phase s)
                (bool_to_Z_range _) Hp) as (_ & Hlo & Hhi).
    set (unit := Z.lor _ _) in *.
    rewrite !fit_exact by assumption.
    cbn [length]. rewrite length_app, H0, H1. cbn [Nat.add Nat.eqb negb].
    cbn [byte_at nth]. unfold slice. cbn [drop].
    rewrite drop_0, take_app_length', drop_app_length' by (symmetry; assumption).
    rewrite take_ge by lia.
    destruct (find_index _ (sub st)); [| reflexivity].
    do 2 f_equal. apply list_alter_ext; [| reflexivity].
    intros s0 _. unfold subnet_restore, subnet_restored.
    rewrite Hlo, Hhi, bool_of_bool_to_Z. reflexivity.
Qed.

(** X5.  A NetKey survives a reboot.  The flush writes the subnet under the
    key [NetKey/<index in hex>]; when the loader meets that record it
    restores the key-refresh flag, the phase and both keys into the subnet
    that has this index, or, if there is none, into the first unused subnet,
    which also gets the index; only when no subnet is unused is the record
    refused with [-ENOMEM].  The derived key material and the node-identity
    state of the slot are not part of the record and stay as they were. *)
Theorem X5_net_key_survives_reboot (s : bt_mesh_subnet) (st0 st : mesh) :
  subnet_valid s -> 0 <= net_idx s < 65536 ->
  let key := key_path false (net_idx s) in
  let payload := net_key_val_bytes s in
  trace (store_net_key s st0) = trace st0 ++ [StoreUpdate key 1 payload] /\
  mesh_set_bin key payload st
  = match bt_mesh_subnet_get ext (net_idx s) (sub st) with
    | Some k =>
        (0, set_sub (alter (fun s0 => subnet_restored (net_idx s0) s s0) k (sub st)) st)
    | None =>
        match find_index (fun x => net_idx x =? BT_MESH_KEY_UNUSED cfg) (sub st) with
        | Some i => (0, set_sub (alter (subnet_restored (net_idx s) s) i (sub st)) st)
        | None => (- ENOMEM, st)
        end
    end.
Proof.
  intros Hs Hidx key payload. split.
  - unfold store_net_key. rewrite save_trace. cbn [Z.ltb Z.compare].
    rewrite take_ge; [reflexivity |].
    destruct Hs as (_ & H0 & H1). unfold net_key_val_bytes.
    cbn [length]. rewrite length_app, !length_fit. cbn. lia.
  - subst key payload. rewrite dispatch_NetKey by reflexivity.
    rewrite net_key_set_bin_encoded by exact Hs.
    replace (u16 (strtol16 (string_drop 7 (key_path false (net_idx s)))))
      with (net_idx s); [reflexivity |].
    symmetry. exact (strtol16_fmt_x _ Hidx).
Qed.

(** ** The flush and the pending flags *)

Lemma flush_flags_blocks : map (fun b => fst (fst b)) store_blocks = flush_flags.
Proof.
  unfold store_blocks, flush_flags.
  destruct (CONFIG_BT_MESH_PROVISIONER cfg); reflexivity.
Qed.

Lemma store_blocks_ok :
  Forall (fun b => body_ok (snd b) (snd (fst b))) store_blocks.
Proof.
  unfold store_blocks. destruct (CONFIG_BT_MESH_PROVISIONER cfg); cbn [app];
    repeat (apply List.Forall_cons; [cbn [fst snd]; auto with flush |]);
    apply List.Forall_nil.
Qed.

Lemma when_pending_bits (f g : mesh_flag) (body : mesh -> mesh) (qs : list string)
    (st : mesh) :
  body_ok qs body ->
  atomic_test_bit (when_pending f body st) g =
  if decide (f = g) then false else atomic_test_bit st g.
Proof.
  intros Hbody. unfold when_pending, atomic_test_and_clear_bit.
  destruct (atomic_test_bit st f).
  - rewrite (test_bit_flags (body (atomic_clear_bit f st)) (atomic_clear_bit f st))
      by apply Hbody.
    apply test_clear_bit.
  - apply test_clear_bit.
Qed.

Lemma run_blocks_bits (bs : list (mesh_flag * (mesh -> mesh) * list string)) :
  Forall (fun b => body_ok (snd b) (snd (fst b))) bs ->
  forall st g,
  atomic_test_bit (run_blocks bs st) g =
  if decide (g ∈ map (fun b => fst (fst b)) bs) then false else atomic_test_bit st g.
Proof.
  induction 1 as [| [[f body] qs] bs Hb _ IH]; intros st g.
  - cbn. destruct (decide (g ∈ [])) as [Hin |]; [| reflexivity].
    apply elem_of_nil in Hin. contradiction.
  - change (run_blocks ((f, body, qs) :: bs) st)
      with (run_blocks bs (when_pending f body st)).
    cbn [map fst snd]. rewrite IH. cbn [fst snd] in Hb.
    rewrite (when_pending_bits f g body qs) by exact Hb.
    destruct (decide (g ∈ map (fun b => fst (fst b)) bs)) as [Hin | Hnin].
    + rewrite decide_True by (apply elem_of_cons; right; exact Hin). reflexivity.
    + destruct (decide (f = g)) as [-> | Hne].
      * rewrite decide_True by (apply elem_of_cons; left; reflexivity). reflexivity.
      * rewrite decide_False; [reflexivity |].
        rewrite elem_of_cons. intros [E | Hin]; [congruence | contradiction].
Qed.

Lemma set_flags_same (st : mesh) : set_flags (flags st) st = st.
Proof. destruct st. reflexivity. Qed.

Lemma clear_bit_unset (f : mesh_flag) (st : mesh) :
  atomic_test_bit st f = false -> atomic_clear_bit f st = st.
Proof.
  unfold atomic_test_bit, atomic_clear_bit. intros H.
  replace (Z.land (flags st) (Z.lnot (BIT (flag_bit cfg f)))) with (flags st);
    [apply set_flags_same |].
  apply Z.bits_inj'. intros n Hn.
  rewrite Z.land_spec, Z.lnot_spec, BIT_testbit by (lia || apply flag_bit_nonneg).
  destruct (Z.eqb_spec (flag_bit cfg f) n) as [<- | _].
  - rewrite H. reflexivity.
  - cbn. rewrite andb_true_r. reflexivity.
Qed.

Lemma when_pending_noop (f : mesh_flag) (body : mesh -> mesh) (st : mesh) :
  atomic_test_bit st f = false -> when_pending f body st = st.
Proof.
  intros H. unfold when_pending, atomic_test_and_clear_bit. rewrite H.
  apply clear_bit_unset, H.
Qed.

Lemma run_blocks_noop (bs : list (mesh_flag * (mesh -> mesh) * list string)) (st : mesh) :
  Forall (fun b => atomic_test_bit st (fst (fst b)) = false) bs ->
  run_blocks bs st = st.
Proof.
  induction 1 as [| b bs Hb _ IH]; [reflexivity |].
  unfold run_blocks. cbn [foldl]. rewrite when_pending_noop by exact Hb. exact IH.
Qed.

(** X6.  The flush consumes exactly the pending flags of its categories.
    After [store_pending] every flag it tests is clear, whatever the blocks
    did, and every other flag (valid, role, IV update in progress) is as
    before; a second flush right after the first therefore finds nothing to
    do and returns the state unchanged, without a single call to the
    store. *)
Theorem X6_flush_consumes_pending (st : mesh) :
  (forall g, atomic_test_bit (store_pending st) g =
             if decide (g ∈ flush_flags) then false else atomic_test_bit st g) /\
  store_pending (store_pending st) = store_pending st.
Proof.
  assert (Hbits : forall s g,
            atomic_test_bit (store_pending s) g =
            if decide (g ∈ flush_flags) then false else atomic_test_bit s g).
  { intros s g. rewrite store_pending_as_blocks, <- flush_flags_blocks.
    apply run_blocks_bits, store_blocks_ok. }
  split; [apply Hbits |].
  rewrite (store_pending_as_blocks (store_pending st)).
  apply run_blocks_noop. apply Forall_forall. intros b Hb.
  rewrite Hbits. rewrite decide_True; [reflexivity |].
  rewrite <- flush_flags_blocks. apply (list_elem_of_fmap_2 (fun b0 : mesh_flag * (mesh -> mesh) * list string => fst (fst b0))). exact Hb.
Qed.

(** ** Marking a category *)

Lemma schedule_store_flags (f : mesh_flag) (st : mesh) :
  flags (schedule_store f st) = flags (atomic_set_bit f st).
Proof.
  unfold schedule_store. cbv zeta.
  destruct (negb _ && _); reflexivity.
Qed.

Lemma store_timeout_values (st : mesh) :
  store_timeout st = 500 \/
  store_timeout st = K_SECONDS cfg (CONFIG_BT_MESH_RPL_STORE_TIMEOUT cfg) \/
  store_timeout st = K_SECONDS cfg (CONFIG_BT_MESH_STORE_TIMEOUT cfg).
Proof.
  unfold store_timeout, CONFIG_MESH_STORE_WORKAROUND_FLASH_FLUSH_TIMEOUT.
  destruct (negb _); [auto |]. destruct (_ && _); auto.
Qed.

Lemma schedule_store_timer (f : mesh_flag) (st : mesh) :
  0 <= pending_store st ->
  let t := store_timeout (atomic_set_bit f st) in
  0 < t ->
  0 < pending_store (schedule_store f st) <= t /\
  trace (schedule_store f st) = trace st \/
  pending_store (schedule_store f st) = t /\
  trace (schedule_store f st) = trace st ++ [DelayedWorkSubmit PENDING_STORE_TIMER t].
Proof.
  intros Hp t Ht. rewrite schedule_store_cases. cbv zeta. fold t.
  destruct (Z.eqb_spec (pending_store st) 0) as [E | NE]; cbn [negb andb].
  - right. split; reflexivity.
  - destruct (Z.ltb_spec (pending_store st) t).
    + left. cbn. split; [lia | reflexivity].
    + right. split; reflexivity.
Qed.

(** X7.  Marking a category dirty never touches the store and always leaves
    a flush armed.  For timeouts that are positive, after [schedule_store]
    the flag of the category is set, no other flag has changed, the
    [pending_store] timer is running and expires no later than the timeout
    computed for the flags now pending; the only call that leaves the file
    is at most one submission of that timer. *)
Theorem X7_mark_arms_flush (f : mesh_flag) (st : mesh) :
  0 <= pending_store st ->
  0 < K_SECONDS cfg (CONFIG_BT_MESH_RPL_STORE_TIMEOUT cfg) ->
  0 < K_SECONDS cfg (CONFIG_BT_MESH_STORE_TIMEOUT cfg) ->
  let st' := schedule_store f st in
  atomic_test_bit st' f = true /\
  (forall g, g <> f -> atomic_test_bit st' g = atomic_test_bit st g) /\
  0 < pending_store st' <= store_timeout (atomic_set_bit f st) /\
  conf_save_pending st' = conf_save_pending st /\
  (trace_since st st' = [] \/
   trace_since st st'
   = [DelayedWorkSubmit PENDING_STORE_TIMER (store_timeout (atomic_set_bit f st))]).
Proof.
  intros Hp Hr Hs st'.
  assert (Hbit : forall g, atomic_test_bit st' g = atomic_test_bit (atomic_set_bit f st) g).
  { intros g. apply test_bit_flags, schedule_store_flags. }
  assert (Ht : 0 < store_timeout (atomic_set_bit f st)).
  { destruct (store_timeout_values (atomic_set_bit f st)) as [E | [E | E]];
      rewrite E; lia. }
  split; [| split; [| split; [| split]]].
  - rewrite Hbit, test_set_bit, decide_True by reflexivity. reflexivity.
  - intros g Hg. rewrite Hbit, test_set_bit, decide_False by congruence. reflexivity.
  - destruct (schedule_store_timer f st Hp Ht) as [[H _] | [H _]];
      fold st' in H; lia.
  - subst st'. rewrite schedule_store_cases. cbv zeta.
    destruct (negb _ && _); reflexivity.
  - unfold trace_since.
    destruct (schedule_store_timer f st Hp Ht) as [[_ H] | [_ H]]; fold st' in H;
      rewrite H.
    + left. rewrite <- (app_nil_r (trace st)) at 2. apply drop_app_length.
    + right. apply drop_app_length.
Qed.

Lemma mark_urgent (f : mesh_flag) (st : mesh) :
  0 <= pending_store st ->
  no_wait_pending (atomic_test_bit (atomic_set_bit f st)) = true ->
  0 < pending_store (schedule_store f st) <= 500 /\
  no_wait_pending (atomic_test_bit (schedule_store f st)) = true.
Proof.
  intros Hp Hnw.
  assert (Ht : store_timeout (atomic_set_bit f st) = 500).
  { rewrite store_timeout_policy. unfold timeout_policy. rewrite Hnw. reflexivity. }
  split.
  - pose proof (schedule_store_timer f st Hp) as H. cbv zeta in H.
    rewrite Ht in H. destruct (H ltac:(lia)) as [[H1 _] | [H1 _]]; lia.
  - rewrite <- Hnw. unfold no_wait_pending.
    rewrite !(test_bit_flags _ _ _ (schedule_store_flags f st)). reflexivity.
Qed.

Lemma no_wait_after_mark (f : mesh_flag) (st : mesh) :
  In f [BT_MESH_NET_PENDING; BT_MESH_IV_PENDING; BT_MESH_ROLE_PENDING] \/
  no_wait_pending (atomic_test_bit st) = true ->
  no_wait_pending (atomic_test_bit (atomic_set_bit f st)) = true.
Proof.
  unfold no_wait_pending. rewrite !test_set_bit. intros [Hin | H].
  - cbn in Hin. destruct Hin as [<- | [<- | [<- | []]]];
      repeat (destruct (decide _); try congruence); rewrite ?orb_true_r; reflexivity.
  - repeat (destruct (decide _)); rewrite ?orb_true_r; try reflexivity; exact H.
Qed.

(** X8.  The network, IV and role records are urgent: whenever one of them
    is pending after a mark, whatever else is pending and whatever was left
    on the timer, the flush is due within the 500 ms of
    [CONFIG_MESH_STORE_WORKAROUND_FLASH_FLUSH_TIMEOUT].  This holds after
    [bt_mesh_store_net], [bt_mesh_store_iv], [bt_mesh_store_role] and
    [bt_mesh_clear_net], and after any later mark as long as the flush has
    not run. *)
Theorem X8_urgent_records_flush_soon
    (only_duration : bool) (f : mesh_flag) (st : mesh) :
  0 <= pending_store st ->
  (no_wait_pending (atomic_test_bit st) = true ->
   0 < pending_store (schedule_store f st) <= 500) /\
  0 < pending_store (bt_mesh_store_net st) <= 500 /\
  0 < pending_store (bt_mesh_store_iv only_duration st) <= 500 /\
  0 < pending_store (bt_mesh_store_role st) <= 500 /\
  0 < pending_store (bt_mesh_clear_net st) <= 500.
Proof.
  intros Hp.
  assert (Hfirst : forall g s,
            0 <= pending_store s ->
            In g [BT_MESH_NET_PENDING; BT_MESH_IV_PENDING; BT_MESH_ROLE_PENDING] ->
            0 < pending_store (schedule_store g s) <= 500 /\
            no_wait_pending (atomic_test_bit (schedule_store g s)) = true).
  { intros g s Hs Hg. apply mark_urgent; [exact Hs |].
    apply no_wait_after_mark. left. exact Hg. }
  assert (Hnext : forall g s,
            0 < pending_store s <= 500 /\ no_wait_pending (atomic_test_bit s) = true ->
            0 < pending_store (schedule_store g s) <= 500 /\
            no_wait_pending (atomic_test_bit (schedule_store g s)) = true).
  { intros g s [Hs Hnw]. apply mark_urgent; [lia |].
    apply no_wait_after_mark. right. exact Hnw. }
  split; [| split; [| split; [| split]]].
  - intros Hnw. apply mark_urgent; [exact Hp |].
    apply no_wait_after_mark. right. exact Hnw.
  - apply Hfirst; [exact Hp | cbn; auto].
  - unfold bt_mesh_store_iv.
    assert (H : 0 < pending_store (schedule_store BT_MESH_IV_PENDING st) <= 500 /\
                no_wait_pending (atomic_test_bit (schedule_store BT_MESH_IV_PENDING st))
                = true) by (apply Hfirst; [exact Hp | cbn; auto]).
    destruct only_duration; cbn [negb]; [apply H | apply Hnext, H].
  - apply Hfirst; [exact Hp | cbn; auto].
  - unfold bt_mesh_clear_net. apply Hnext, Hnext, Hfirst; [exact Hp | cbn; auto].
Qed.

(** ** Managed nodes *)

Lemma schedule_store_frame (f : mesh_flag) (st : mesh) :
  nodes (schedule_store f st) = nodes st /\
  node_updates (schedule_store f st) = node_updates st /\
  rpl (schedule_store f st) = rpl st /\
  models (schedule_store f st) = models st /\
  exists evs, trace (schedule_store f st) = trace st ++ evs /\
              List.filter is_store_update evs = [].
Proof.
  rewrite schedule_store_cases. cbv zeta.
  destruct (negb _ && _).
  - repeat split; try reflexivity. exists []. rewrite app_nil_r. split; reflexivity.
  - repeat split; try reflexivity. eexists [_]. split; reflexivity.
Qed.

Lemma node_scan_free (addr : Z) (tbl : list node_update) :
  forall i acc,
  Forall (fun u => nu_addr u = BT_MESH_ADDR_UNASSIGNED cfg) tbl -> tbl <> [] ->
  node_update_scan addr i tbl acc = (fst acc, Some (i + length tbl - 1)%nat).
Proof.
  induction tbl as [| u r IH]; intros i acc Hall Hne; [contradiction |].
  apply Forall_cons in Hall as [Hu Hr]. cbn [node_update_scan].
  rewrite Hu, Z.eqb_refl. destruct r as [| u' r'].
  - cbn. do 2 f_equal. lia.
  - rewrite IH by (assumption || discriminate). cbn [fst length].
    do 2 f_equal. lia.
Qed.

Lemma nodes_loop_free_prefix (pre rest : list node_update) (s : mesh) :
  Forall (fun u => nu_addr u = BT_MESH_ADDR_UNASSIGNED cfg) pre ->
  store_pending_nodes_loop (pre ++ rest) s
  = (pre ++ fst (store_pending_nodes_loop rest s),
     snd (store_pending_nodes_loop rest s)).
Proof.
  induction 1 as [| u r Hu _ IH]; cbn [app].
  - destruct (store_pending_nodes_loop rest s). reflexivity.
  - cbn [store_pending_nodes_loop]. rewrite Hu, Z.eqb_refl, IH. reflexivity.
Qed.

Lemma nodes_loop_one (u : node_update) (s : mesh) :
  nu_addr u <> BT_MESH_ADDR_UNASSIGNED cfg ->
  store_pending_nodes_loop [u] s
  = ([nu_set_addr (BT_MESH_ADDR_UNASSIGNED cfg) u],
     if nu_clear u then clear_node (nu_addr u) s
     else match bt_mesh_node_find ext (nu_addr u) (nodes s) with
          | Some i =>
              match nodes s !! i with
              | Some n => store_node n s
              | None => s
              end
          | None => s
          end).
Proof.
  intros H. apply Z.eqb_neq in H. cbn [store_pending_nodes_loop]. rewrite H.
  reflexivity.
Qed.

Lemma length_node_val_bytes (m : bt_mesh_node) : length (node_val_bytes m) = 19%nat.
Proof.
  unfold node_val_bytes. rewrite !length_app, length_to_le, length_fit. reflexivity.
Qed.

(** X9.  An intent for a node that has no pending entry goes into the last
    free slot of the table, and both [bt_mesh_store_node] and
    [bt_mesh_clear_node] only set the address of that slot: its [clear] flag
    keeps the value the previous use of the slot left.  The two calls
    therefore give the same state, and the flush acts on the old flag, not
    on the intent: if the flag was unset the node record is written when the
    node is still in the node table and nothing at all is written when it is
    gone (a clear intent deletes nothing); if the flag was set the record
    is deleted (also for a store intent).  Either way the slot is free
    again after the flush. *)
Theorem X9_node_intent_into_free_slot
    (n : bt_mesh_node) (u : node_update) (st : mesh) :
  Forall (fun x => nu_addr x = BT_MESH_ADDR_UNASSIGNED cfg) (node_updates st) ->
  last (node_updates st) = Some u ->
  node_addr n <> BT_MESH_ADDR_UNASSIGNED cfg ->
  let st1 := bt_mesh_clear_node n st in
  st1 = bt_mesh_store_node n st /\
  trace_since st1 (store_pending_nodes st1)
  = (if nu_clear u then
       [StoreUpdate (String.append "Node/" (fmt_x (node_addr n))) 0 []]
     else
       match bt_mesh_node_find ext (node_addr n) (nodes st) with
       | Some k =>
           match nodes st !! k with
           | Some m => [StoreUpdate (String.append "Node/" (fmt_x (node_addr m))) 1
                          (node_val_bytes m)]
           | None => []
           end
       | None => []
       end) /\
  Forall (fun x => nu_addr x = BT_MESH_ADDR_UNASSIGNED cfg)
    (node_updates (store_pending_nodes st1)).
Proof.
  intros Hfree Hlast Haddr st1.
  apply last_Some in Hlast as (pre & Htbl).
  assert (Hpre : Forall (fun x => nu_addr x = BT_MESH_ADDR_UNASSIGNED cfg) pre).
  { rewrite Htbl in Hfree. apply Forall_app in Hfree. apply Hfree. }
  assert (Hfind : node_update_find (node_addr n) st = (None, Some (length pre))).
  { unfold node_update_find. rewrite node_scan_free; [| exact Hfree |].
    - rewrite Htbl, length_app. cbn. do 2 f_equal. lia.
    - rewrite Htbl. intros E. apply app_eq_nil in E as [_ E]. discriminate. }
  subst st1. unfold bt_mesh_clear_node, bt_mesh_store_node, node_intent.
  rewrite Hfind. split; [reflexivity |].
  set (st0 := set_node_updates _ st).
  destruct (schedule_store_frame BT_MESH_NODES_PENDING st0)
    as (Hn & Hu & _ & _ & _).
  set (st1 := schedule_store BT_MESH_NODES_PENDING st0) in *.
  assert (Htbl1 : node_updates st1 = pre ++ [nu_set_addr (node_addr n) u]).
  { rewrite Hu. cbn [st0 node_updates set_node_updates]. rewrite Htbl.
    rewrite alter_app_r_alt by lia. rewrite Nat.sub_diag. reflexivity. }
  unfold store_pending_nodes. rewrite Htbl1, nodes_loop_free_prefix by exact Hpre.
  rewrite nodes_loop_one by exact Haddr.
  cbn [nu_set_addr nu_addr nu_clear fst snd node_updates trace set_node_updates].
  assert (Hfinal : Forall (fun x => nu_addr x = BT_MESH_ADDR_UNASSIGNED cfg)
                     (pre ++ [{| nu_addr := BT_MESH_ADDR_UNASSIGNED cfg;
                                 nu_clear := nu_clear u |}])).
  { apply Forall_app. split; [exact Hpre |]. repeat constructor. }
  split; [| exact Hfinal].
  unfold trace_since. rewrite Hn. cbn [st0 nodes trace set_node_updates].
  destruct (nu_clear u).
  - unfold clear_node. rewrite save_trace, drop_app_length. reflexivity.
  - destruct (bt_mesh_node_find ext (node_addr n) (nodes st)) as [k |];
      [destruct (nodes st !! k) as [m |] |];
      try (rewrite <- (app_nil_r (trace st1)) at 2; apply drop_app_length).
    unfold store_node. rewrite save_trace, drop_app_length.
    rewrite take_ge by (rewrite length_node_val_bytes; cbn; lia). reflexivity.
Qed.

(** ** Replay-protection list *)

Lemma find_index_exists {A} (p : A -> bool) (l : list A) :
  forall i x, l !! i = Some x -> p x = true ->
  exists k, (k <= i)%nat /\ find_index p l = Some k.
Proof.
  induction l as [| a l IH]; intros i x Hx Hp.
  - rewrite lookup_nil in Hx. discriminate.
  - cbn [find_index]. destruct (p a) eqn:Ha.
    + exists 0%nat. split; [lia | reflexivity].
    + destruct i as [| i]; cbn in Hx.
      * injection Hx as ->. congruence.
      * destruct (IH i x Hx Hp) as (k & Hk & E). exists (S k).
        rewrite E. split; [lia | reflexivity].
Qed.

Lemma rpl_set_bin_encoded (junk : Z) (e : bt_mesh_rpl) (key : string) (st : mesh) :
  rpl_valid e ->
  let src := u16 (strtol16 (string_drop 4 key)) in
  rpl_set_bin key (rpl_val_bytes junk e) st
  = match rpl_find src st with
    | Some i => (0, set_rpl (alter (rpl_restored e) i (rpl st)) st)
    | None =>
        match find_index (fun x => rpl_src x =? 0) (rpl st) with
        | Some j =>
            (0, set_rpl (alter (fun e0 => rpl_restored e (rpl_set_src src e0)) j
                           (rpl st)) st)
        | None => (- ENOMEM, st)
        end
    end.
Proof.
  intros He src. destruct (rpl_find src st) as [i |] eqn:Hfind.
  - apply rpl_round_trip; assumption.
  - unfold rpl_set_bin. fold src. rewrite Hfind. unfold rpl_val_bytes.
    destruct (rpl_unit_fields (rpl_seq e) (bool_to_Z (rpl_old_iv e)) junk He
                (bool_to_Z_range _)) as (Hu & Hlo & Hhi).
    set (unit := Z.lor _ _) in *.
    rewrite length_to_le. cbn [Nat.eqb negb]. unfold rpl_alloc.
    destruct (find_index _ (rpl st)) as [j |]; [| reflexivity].
    rewrite of_le_to_le_4 by exact Hu.
    transitivity (0, set_rpl (alter (rpl_restore unit) j
                                (alter (rpl_set_src src) j (rpl st))) st);
      [reflexivity |].
    do 2 f_equal. rewrite list_alter_alter_eq.
    apply list_alter_ext; [| reflexivity].
    intros e0 _. unfold rpl_restore, rpl_restored, rpl_set_src. cbn.
    rewrite Hlo, Hhi, bool_of_bool_to_Z. reflexivity.
Qed.

(** X10.  A replay-protection entry survives a reboot.  [store_rpl] writes
    the entry under [RPL/<source address in hex>]; the loader restores the
    sequence number and the old-IV flag of that record into the entry of
    the address, claiming the first free entry for the address when it has
    none, and refuses the record with [-ENOMEM] only when the list is full.
    The bits of the record the encoder leaves uninitialised do not
    matter. *)
Theorem X10_rpl_survives_reboot (e : bt_mesh_rpl) (st0 st : mesh) :
  rpl_valid e -> 0 <= rpl_src e < 65536 ->
  let key := String.append "RPL/" (fmt_x (rpl_src e)) in
  (exists junk,
     trace (store_rpl e st0) = trace st0 ++ [StoreUpdate key 1 (rpl_val_bytes junk e)]) /\
  forall junk,
    mesh_set_bin key (rpl_val_bytes junk e) st
    = match rpl_find (rpl_src e) st with
      | Some i => (0, set_rpl (alter (rpl_restored e) i (rpl st)) st)
      | None =>
          match find_index (fun x => rpl_src x =? 0) (rpl st) with
          | Some j =>
              (0, set_rpl (alter (fun e0 => rpl_restored e (rpl_set_src (rpl_src e) e0))
                             j (rpl st)) st)
          | None => (- ENOMEM, st)
          end
      end.
Proof.
  intros He Hsrc key. split.
  - exists (stack_junk ext (trace st0)). unfold store_rpl. rewrite save_trace.
    cbn [Z.ltb Z.compare]. rewrite take_ge; [reflexivity |].
    unfold rpl_val_bytes. rewrite length_to_le. cbn. lia.
  - intros junk. subst key. rewrite dispatch_RPL by reflexivity.
    rewrite rpl_set_bin_encoded by exact He.
    replace (u16 (strtol16 (string_drop 4 (String.append "RPL/" (fmt_x (rpl_src e))))))
      with (rpl_src e); [reflexivity |].
    symmetry. exact (strtol16_fmt_x _ Hsrc).
Qed.

(** X11.  A zero-length replay record frees the entry of its source
    address: the entry is zeroed in place, nothing else in the list
    changes, and from then on an allocation succeeds, at that entry or at a
    free one before it. *)
Theorem X11_rpl_clear_frees_entry (key : string) (i : nat) (st : mesh) :
  let src := u16 (strtol16 (string_drop 4 key)) in
  rpl_find src st = Some i ->
  let st' := snd (rpl_set_bin key [] st) in
  rpl st' = <[i := rpl_zero]> (rpl st) /\
  rpl st' !! i = Some rpl_zero /\
  forall src', exists k, (k <= i)%nat /\ fst (rpl_alloc src' st') = Some k.
Proof.
  intros src Hfind st'.
  assert (E : rpl st' = <[i := rpl_zero]> (rpl st)).
  { subst st'. unfold rpl_set_bin. fold src. rewrite Hfind. reflexivity. }
  assert (Hi : rpl st' !! i = Some rpl_zero).
  { rewrite E. apply list_lookup_insert_eq.
    destruct (find_index_first _ _ _ Hfind) as [(x & Hx & _) _].
    eapply lookup_lt_Some, Hx. }
  split; [exact E |]. split; [exact Hi |].
  intros src'. unfold rpl_alloc.
  destruct (find_index_exists (fun e => rpl_src e =? 0) (rpl st') i rpl_zero Hi eq_refl)
    as (k & Hk & Ek).
  exists k. rewrite Ek. split; [exact Hk | reflexivity].
Qed.

Lemma clear_rpl_loop_spec (todo : list bt_mesh_rpl) :
  forall st,
  fst (clear_rpl_loop todo st)
  = map (fun e => if rpl_src e =? 0 then e else rpl_zero) todo /\
  trace (snd (clear_rpl_loop todo st))
  = trace st ++ map (fun e => StoreUpdate (String.append "RPL/" (fmt_x (rpl_src e))) 0 [])
                  (List.filter (fun e => negb (rpl_src e =? 0)) todo).
Proof.
  induction todo as [| e r IH]; intros st; cbn [clear_rpl_loop map List.filter].
  - rewrite app_nil_r. split; reflexivity.
  - destruct (rpl_src e =? 0); cbn [negb].
    + specialize (IH st). destruct (clear_rpl_loop r st) as [r' st'].
      cbn [fst snd] in *. destruct IH as [-> ->]. split; reflexivity.
    + specialize (IH (save (String.append "RPL/" (fmt_x (rpl_src e))) 0 [] st)).
      destruct (clear_rpl_loop r _) as [r' st']. cbn [fst snd] in *.
      destruct IH as [-> ->]. rewrite save_trace. cbn [map].
      rewrite <- app_assoc. split; reflexivity.
Qed.

(** X12.  [bt_mesh_clear_rpl] wipes the replay-protection list: every entry
    in use is deleted from the store with one zero-length write under its
    own key, in the order of the list, and is zeroed in memory; free
    entries cause no write.  Afterwards every entry is free; the pending
    flags and the timer are not touched. *)
Theorem X12_clear_rpl_wipes (st : mesh) :
  let st' := bt_mesh_clear_rpl st in
  rpl st' = map (fun e => if rpl_src e =? 0 then e else rpl_zero) (rpl st) /\
  Forall (fun e => rpl_src e = 0) (rpl st') /\
  trace st'
  = trace st ++ map (fun e => StoreUpdate (String.append "RPL/" (fmt_x (rpl_src e))) 0 [])
                  (List.filter (fun e => negb (rpl_src e =? 0)) (rpl st)) /\
  flags st' = flags st /\ pending_store st' = pending_store st.
Proof.
  intros st'. subst st'. unfold bt_mesh_clear_rpl, clear_rpl.
  pose proof (clear_rpl_loop_spec (rpl st) st) as [Hl Ht].
  pose proof (clear_rpl_loop_keeps (rpl st) st) as [Hf _].
  assert (Hp : forall todo s, pending_store (snd (clear_rpl_loop todo s)) = pending_store s).
  { induction todo as [| e r IH]; intros s; cbn [clear_rpl_loop]; [reflexivity |].
    destruct (rpl_src e =? 0).
    - specialize (IH s). destruct (clear_rpl_loop r s). exact IH.
    - specialize (IH (save (String.append "RPL/" (fmt_x (rpl_src e))) 0 [] s)).
      destruct (clear_rpl_loop r _). exact IH. }
  specialize (Hp (rpl st) st).
  destruct (clear_rpl_loop (rpl st) st) as [l s1]. cbn [fst snd] in *.
  cbn [rpl trace flags pending_store set_rpl]. subst l.
  repeat split; try assumption.
  apply Forall_forall. intros x Hx.
  apply list_elem_of_fmap in Hx as (e & -> & _).
  destruct (Z.eqb_spec (rpl_src e) 0); [assumption | reflexivity].
Qed.

Lemma store_pending_rpl_loop_spec (todo : list bt_mesh_rpl) :
  forall st,
  fst (store_pending_rpl_loop todo st) = map (rpl_set_store false) todo /\
  exists evs,
    trace (snd (store_pending_rpl_loop todo st)) = trace st ++ evs /\
    Forall2 (fun ev e => exists junk,
               ev = StoreUpdate (String.append "RPL/" (fmt_x (rpl_src e))) 1
                      (rpl_val_bytes junk e))
      evs (List.filter rpl_store todo).
Proof.
  induction todo as [| e r IH]; intros st;
    cbn [store_pending_rpl_loop map List.filter].
  - split; [reflexivity |]. exists []. rewrite app_nil_r. split; [reflexivity | constructor].
  - destruct (rpl_store e) eqn:Hs.
    + specialize (IH (store_rpl (rpl_set_store false e) st)).
      destruct (store_pending_rpl_loop r _) as [r' st']. cbn [fst snd] in *.
      destruct IH as [-> (evs & Ht & Hevs)]. split; [reflexivity |].
      eexists (_ :: evs). split.
      * rewrite Ht. unfold store_rpl. rewrite save_trace, <- app_assoc. reflexivity.
      * constructor; [| exact Hevs].
        exists (stack_junk ext (trace st)). cbn [Z.ltb Z.compare].
        rewrite take_ge by (unfold rpl_val_bytes; rewrite length_to_le; cbn; lia).
        reflexivity.
    + specialize (IH st). destruct (store_pending_rpl_loop r st) as [r' st'].
      cbn [fst snd] in *. destruct IH as [-> H]. split; [| exact H].
      f_equal. destruct e; cbn in *. subst. reflexivity.
Qed.

(** X13.  The flush of the replay-protection list writes exactly the
    entries that were marked with [bt_mesh_store_rpl]: one record per
    entry whose [store] flag is set, under the key of its source address
    and in the order of the list, holding its sequence number and old-IV
    flag; every [store] flag is clear afterwards and nothing else in the
    list has changed. *)
Theorem X13_flush_rpl_writes_marked (st : mesh) :
  let st' := store_pending_rpl st in
  rpl st' = map (rpl_set_store false) (rpl st) /\
  Forall (fun e => rpl_store e = false) (rpl st') /\
  exists evs,
    trace st' = trace st ++ evs /\
    Forall2 (fun ev e => exists junk,
               ev = StoreUpdate (String.append "RPL/" (fmt_x (rpl_src e))) 1
                      (rpl_val_bytes junk e))
      evs (List.filter rpl_store (rpl st)).
Proof.
  intros st'. subst st'. unfold store_pending_rpl.
  pose proof (store_pending_rpl_loop_spec (rpl st) st) as [Hl (evs & Ht & Hevs)].
  destruct (store_pending_rpl_loop (rpl st) st) as [l s1]. cbn [fst snd] in *.
  cbn [rpl trace set_rpl]. subst l. split; [reflexivity |]. split.
  - apply Forall_forall. intros x Hx.
    apply list_elem_of_fmap in Hx as (e & -> & _). reflexivity.
  - exists evs. split; assumption.
Qed.

(** ** Commit phase *)

Lemma commit_frame_refl (st : mesh) : commit_frame st st.
Proof.
  repeat split. exists []. rewrite app_nil_r. split; reflexivity.
Qed.

Lemma commit_frame_trans (a b c : mesh) :
  commit_frame a b -> commit_frame b c -> commit_frame a c.
Proof.
  intros (F1 & P1 & C1 & e1 & T1 & E1) (F2 & P2 & C2 & e2 & T2 & E2).
  repeat split; try congruence.
  exists (e1 ++ e2). rewrite T2, T1, <- app_assoc. split; [reflexivity |].
  rewrite forallb_app, E1, E2. reflexivity.
Qed.

Lemma commit_frame_emit (e : event) (st : mesh) :
  commit_event e = true -> commit_frame st (emit e st).
Proof.
  intros He. repeat split. exists [e]. split; [reflexivity |]. cbn.
  rewrite He. reflexivity.
Qed.

Lemma commit_subnets_frame (todo : list bt_mesh_subnet) :
  forall i st, commit_frame st (commit_subnets i todo st).
Proof.
  induction todo as [| s r IH]; intros i st; cbn [commit_subnets].
  - apply commit_frame_refl.
  - destruct (net_idx s =? BT_MESH_KEY_UNUSED cfg); [apply IH |].
    destruct (subnet_init s) as [[err s'] beacon].
    eapply commit_frame_trans; [| apply IH].
    assert (H : commit_frame st (set_sub (<[i := s']> (sub st)) st)).
    { repeat split. exists []. rewrite app_nil_r. split; reflexivity. }
    destruct beacon; [| exact H].
    eapply commit_frame_trans; [exact H | apply commit_frame_emit; reflexivity].
Qed.

Lemma commit_mod_frame (i : nat) (m : bt_mesh_model) (st : mesh) :
  commit_frame st (commit_mod i m st) /\ sub (commit_mod i m st) = sub st.
Proof.
  unfold commit_mod.
  set (s1 := match mod_pub m with Some _ => _ | None => _ end).
  assert (H : commit_frame st s1 /\ sub s1 = sub st).
  { subst s1. destruct (mod_pub m) as [p |];
      [| split; [apply commit_frame_refl | reflexivity]].
    destruct (_ && _); [| split; [apply commit_frame_refl | reflexivity]].
    destruct (negb _); [| split; [apply commit_frame_refl | reflexivity]].
    split; [apply commit_frame_emit; reflexivity | reflexivity]. }
  destruct H as [H Hs]. destruct (mod_cb_settings_commit m); [| split; assumption].
  split; [| exact Hs].
  eapply commit_frame_trans; [exact H | apply commit_frame_emit; reflexivity].
Qed.

Lemma foreach_commit_mod_frame (ms : list bt_mesh_model) :
  forall i st,
  commit_frame st (foreach_commit_mod i ms st) /\
  sub (foreach_commit_mod i ms st) = sub st.
Proof.
  induction ms as [| m r IH]; intros i st; cbn [foreach_commit_mod].
  - split; [apply commit_frame_refl | reflexivity].
  - destruct (commit_mod_frame i m st) as [H Hs].
    destruct (IH (S i) (commit_mod i m st)) as [H' Hs'].
    split; [eapply commit_frame_trans; eassumption | congruence].
Qed.

Lemma commit_subnets_sub (todo : list bt_mesh_subnet) :
  forall done st,
  sub st = done ++ todo ->
  sub (commit_subnets (length done) todo st) = done ++ map commit_subnet todo.
Proof.
  induction todo as [| s r IH]; intros done st Hsub; cbn [commit_subnets map].
  - exact Hsub.
  - assert (Hnext : forall s' st1,
              sub st1 = done ++ s' :: r ->
              sub (commit_subnets (S (length done)) r st1)
              = done ++ s' :: map commit_subnet r).
    { intros s' st1 H1.
      replace (S (length done)) with (length (done ++ [s']))
        by (rewrite length_app; cbn; lia).
      rewrite (IH (done ++ [s']) st1) by (rewrite <- app_assoc; exact H1).
      rewrite <- app_assoc. reflexivity. }
    unfold commit_subnet at 1.
    destruct (net_idx s =? BT_MESH_KEY_UNUSED cfg); [apply Hnext, Hsub |].
    destruct (subnet_init s) as [[err s'] beacon]. cbn [fst snd].
    apply Hnext.
    assert (E : <[length done := s']> (sub st) = done ++ s' :: r).
    { rewrite Hsub, insert_app_r_alt by lia.
      rewrite Nat.sub_diag. reflexivity. }
    destruct beacon; cbn [sub emit set_trace set_sub]; exact E.
Qed.

Lemma mesh_commit_steps (st : mesh) :
  unprovisioned st = false ->
  exists s,
    commit_frame st s /\ sub s = map commit_subnet (sub st) /\
    mesh_commit st
    = (0, if negb (atomic_test_bit (atomic_set_bit BT_MESH_VALID s) BT_MESH_PROVISIONER)
          then emit NetStart (atomic_set_bit BT_MESH_VALID s)
          else atomic_set_bit BT_MESH_VALID s).
Proof.
  unfold unprovisioned. intros H. unfold mesh_commit. rewrite H. cbv zeta.
  set (s1 := if CONFIG_BT_MESH_PB_GATT cfg then emit ProxyProvDisable st else st).
  set (s2 := commit_subnets 0 (sub s1) s1).
  set (s3 := if ivu_duration s2 <? BT_MESH_IVU_MIN_HOURS cfg
             then emit (DelayedWorkSubmit IVU_TIMER (BT_MESH_IVU_TIMEOUT cfg)) s2
             else s2).
  set (s4 := foreach_commit_mod 0 (models s3) s3).
  set (s5 := match hb_pub s4 with Some _ => _ | None => _ end).
  set (s6 := match cfg_srv s5 with Some _ => _ | None => _ end).
  exists s6.
  assert (F1 : commit_frame st s1 /\ sub s1 = sub st).
  { subst s1. destruct (CONFIG_BT_MESH_PB_GATT cfg);
      (split; [| reflexivity]);
      [apply commit_frame_emit; reflexivity | apply commit_frame_refl]. }
  assert (F2 : commit_frame st s2 /\ sub s2 = map commit_subnet (sub st)).
  { split.
    - eapply commit_frame_trans; [apply F1 | apply commit_subnets_frame].
    - subst s2. pose proof (commit_subnets_sub (sub s1) [] s1 eq_refl) as E.
      cbn [length app] in E. rewrite E, (proj2 F1). reflexivity. }
  assert (F3 : commit_frame st s3 /\ sub s3 = map commit_subnet (sub st)).
  { subst s3. destruct (ivu_duration s2 <? _); [| exact F2].
    split; [| apply F2].
    eapply commit_frame_trans; [apply F2 | apply commit_frame_emit; reflexivity]. }
  assert (F4 : commit_frame st s4 /\ sub s4 = map commit_subnet (sub st)).
  { destruct (foreach_commit_mod_frame (models s3) 0 s3) as [H4 Hs4].
    split; [eapply commit_frame_trans; [apply F3 | exact H4] |].
    subst s4. rewrite Hs4. apply F3. }
  assert (F5 : commit_frame st s5 /\ sub s5 = map commit_subnet (sub st)).
  { subst s5. destruct (hb_pub s4) as [p |]; [| exact F4].
    destruct (_ && _); [| exact F4].
    split; [| apply F4].
    eapply commit_frame_trans; [apply F4 | apply commit_frame_emit; reflexivity]. }
  assert (F6 : commit_frame st s6 /\ sub s6 = map commit_subnet (sub st)).
  { subst s6. destruct (cfg_srv s5) as [c |]; [| exact F5].
    destruct (stored_cfg_valid s5); [| exact F5].
    split; [| apply F5].
    eapply commit_frame_trans; [apply F5 |].
    repeat split. exists []. rewrite app_nil_r. split; reflexivity. }
  split; [apply F6 |]. split; [apply F6 | reflexivity].
Qed.

(** X14.  What the commit phase does to the dirty tracker and the outside
    world.  [mesh_commit] always returns 0.  On an unprovisioned node
    ([sub[0]] unused) it changes nothing.  Otherwise the only flag that
    changes is [BT_MESH_VALID], which is set; the flush timer and the pending
    backend flush are not touched; nothing is written to the store; and the
    network is started as the very last call exactly when the node is not a
    provisioner. *)
Theorem X14_commit_activates (st : mesh) :
  let st' := snd (mesh_commit st) in
  fst (mesh_commit st) = 0 /\
  (unprovisioned st = true -> st' = st) /\
  (unprovisioned st = false ->
   (forall g, atomic_test_bit st' g =
              if decide (BT_MESH_VALID = g) then true else atomic_test_bit st g) /\
   pending_store st' = pending_store st /\
   conf_save_pending st' = conf_save_pending st /\
   exists evs,
     trace st' = trace st ++ evs
                 ++ (if atomic_test_bit st BT_MESH_PROVISIONER then [] else [NetStart]) /\
     forallb commit_event evs = true).
Proof.
  intros st'. subst st'. destruct (unprovisioned st) eqn:Hu.
  - unfold mesh_commit. unfold unprovisioned in Hu. rewrite Hu.
    split; [reflexivity |]. split; [reflexivity | discriminate].
  - destruct (mesh_commit_steps st Hu) as (s & (Ff & Fp & Fc & evs & Ft & Fe) & _ & ->).
    cbn [fst snd]. split; [reflexivity |]. split; [discriminate |]. intros _.
    assert (Hbit : forall g, atomic_test_bit (atomic_set_bit BT_MESH_VALID s) g =
                             if decide (BT_MESH_VALID = g) then true
                             else atomic_test_bit st g).
    { intros g. rewrite test_set_bit. destruct (decide _); [reflexivity |].
      apply test_bit_flags, Ff. }
    rewrite (Hbit BT_MESH_PROVISIONER), decide_False by discriminate.
    destruct (atomic_test_bit st BT_MESH_PROVISIONER); cbn [negb].
    + split; [exact Hbit |]. split; [exact Fp |]. split; [exact Fc |].
      exists evs. rewrite app_nil_r. split; [exact Ft | exact Fe].
    + split; [exact Hbit |]. split; [exact Fp |]. split; [exact Fc |].
      exists evs. split; [| exact Fe].
      cbn [trace emit set_trace atomic_set_bit set_flags]. rewrite Ft, <- app_assoc.
      reflexivity.
Qed.

(** X15.  The commit phase derives the key material of every subnet in
    use, and of no other.  After [mesh_commit] on a provisioned node each
    slot holds what [subnet_init] made of it, unused slots are as they were.
    For a subnet in use the index, the key-refresh state and the second
    NetKey never change; if the first derivation fails the subnet is left
    alone; in the normal phase only the first key gets derived material; in
    a key-refresh phase both do, and if that second derivation fails the
    whole first key entry, the NetKey included, is zeroed. *)
Theorem X15_commit_derives_keys (st : mesh) :
  unprovisioned st = false ->
  sub (snd (mesh_commit st)) = map commit_subnet (sub st) /\
  forall s,
    (net_idx s = BT_MESH_KEY_UNUSED cfg -> commit_subnet s = s) /\
    (net_idx s <> BT_MESH_KEY_UNUSED cfg ->
     let s' := commit_subnet s in
     net_idx s' = net_idx s /\ kr_flag s' = kr_flag s /\ kr_phase s' = kr_phase s /\
     sk_net (keys1 s') = sk_net (keys1 s) /\
     match bt_mesh_net_keys_create ext (sk_net (keys0 s)) with
     | None => s' = s
     | Some d0 =>
         if kr_phase s =? BT_MESH_KR_NORMAL cfg then
           keys0 s' = {| sk_net := sk_net (keys0 s); sk_derived := Some d0 |} /\
           keys1 s' = keys1 s
         else
           match bt_mesh_net_keys_create ext (sk_net (keys1 s)) with
           | Some d1 =>
               keys0 s' = {| sk_net := sk_net (keys0 s); sk_derived := Some d0 |} /\
               keys1 s' = {| sk_net := sk_net (keys1 s); sk_derived := Some d1 |}
           | None => keys0 s' = sk_zero /\ keys1 s' = keys1 s
           end
     end).
Proof.
  intros Hu. split.
  - destruct (mesh_commit_steps st Hu) as (s & _ & Hs & ->). cbn [snd].
    destruct (negb _); exact Hs.
  - intros s. unfold commit_subnet. split.
    + intros E. apply Z.eqb_eq in E. rewrite E. reflexivity.
    + intros NE. apply Z.eqb_neq in NE. rewrite NE. cbv zeta. unfold subnet_init.
      destruct (bt_mesh_net_keys_create ext (sk_net (keys0 s))) as [d0 |];
        [| cbn; repeat split; reflexivity].
      cbn [kr_phase subnet_set_keys keys1 keys0].
      destruct (kr_phase s =? BT_MESH_KR_NORMAL cfg); cbn [negb].
      * cbn. repeat split; reflexivity.
      * destruct (bt_mesh_net_keys_create ext (sk_net (keys1 s))) as [d1 |];
          cbn; repeat split; reflexivity.
Qed.

(** ** Model data *)

Lemma land_lor_same (a p : Z) : Z.land (Z.lor a p) p = p.
Proof.
  apply Z.bits_inj'. intros n Hn. rewrite Z.land_spec, Z.lor_spec.
  destruct (Z.testbit a n), (Z.testbit p n); reflexivity.
Qed.

Lemma land_lnot_same (a p : Z) : Z.land (Z.land a (Z.lnot p)) p = 0.
Proof.
  apply Z.bits_inj'. intros n Hn.
  rewrite !Z.land_spec, Z.lnot_spec, Z.bits_0 by lia.
  destruct (Z.testbit a n), (Z.testbit p n); reflexivity.
Qed.

Lemma data_store_write (i : nat) (vnd : bool) (data : bytes) (m : bt_mesh_model)
    (st : mesh) :
  models st !! i = Some m -> data <> [] ->
  bt_mesh_model_data_store i vnd data st
  = (0, save (encode_mod_path m vnd "data") (Z.of_nat (length data)) data
          (set_models
             (<[i := mod_set_flags
                       (Z.lor (mod_flags m) (BT_MESH_MOD_DATA_PRESENT cfg)) m]>
                (models st)) st)).
Proof.
  intros Hm Hd. unfold bt_mesh_model_data_store. rewrite Hm.
  destruct data; [contradiction | reflexivity].
Qed.

Lemma data_store_delete (i : nat) (vnd : bool) (m : bt_mesh_model) (st : mesh) :
  models st !! i = Some m ->
  Z.land (mod_flags m) (BT_MESH_MOD_DATA_PRESENT cfg) <> 0 ->
  bt_mesh_model_data_store i vnd [] st
  = (0, save (encode_mod_path m vnd "data") 0 []
          (set_models
             (<[i := mod_set_flags
                       (Z.land (mod_flags m) (Z.lnot (BT_MESH_MOD_DATA_PRESENT cfg))) m]>
                (models st)) st)).
Proof.
  intros Hm Hp. unfold bt_mesh_model_data_store. rewrite Hm.
  apply Z.eqb_neq in Hp. rewrite Hp. reflexivity.
Qed.

Lemma data_store_nothing (i : nat) (vnd : bool) (m : bt_mesh_model) (st : mesh) :
  models st !! i = Some m ->
  Z.land (mod_flags m) (BT_MESH_MOD_DATA_PRESENT cfg) = 0 ->
  bt_mesh_model_data_store i vnd [] st = (0, st).
Proof.
  intros Hm Hp. unfold bt_mesh_model_data_store. rewrite Hm.
  apply Z.eqb_eq in Hp. rewrite Hp. reflexivity.
Qed.

(** X16.  The data of a model is written, deleted once, and not deleted
    twice.  [bt_mesh_model_data_store] with a non-empty buffer writes the
    buffer under [s/<key>/data] (or [v/...]) and remembers that data is
    present; a following call with an empty buffer issues one zero-length
    write under the same key and forgets it; a further empty call finds
    nothing to delete and returns 0 without touching the store or the
    state. *)
Theorem X16_model_data_store
    (i : nat) (vnd : bool) (data : bytes) (m : bt_mesh_model) (st : mesh) :
  models st !! i = Some m -> data <> [] -> BT_MESH_MOD_DATA_PRESENT cfg <> 0 ->
  let path := encode_mod_path m vnd "data" in
  let r1 := bt_mesh_model_data_store i vnd data st in
  let r2 := bt_mesh_model_data_store i vnd [] (snd r1) in
  let r3 := bt_mesh_model_data_store i vnd [] (snd r2) in
  fst r1 = 0 /\ trace (snd r1) = trace st ++ [StoreUpdate path 1 data] /\
  fst r2 = 0 /\ trace (snd r2) = trace (snd r1) ++ [StoreUpdate path 0 []] /\
  r3 = (0, snd r2).
Proof.
  intros Hm Hd Hp path r1 r2 r3.
  pose proof (lookup_lt_Some _ _ _ Hm) as Hi.
  set (P := BT_MESH_MOD_DATA_PRESENT cfg) in *.
  set (m1 := mod_set_flags (Z.lor (mod_flags m) P) m).
  set (m2 := mod_set_flags (Z.land (mod_flags m1) (Z.lnot P)) m1).
  assert (E1 : r1 = (0, save path (Z.of_nat (length data)) data
                          (set_models (<[i := m1]> (models st)) st))).
  { apply data_store_write; assumption. }
  assert (L1 : models (snd r1) !! i = Some m1).
  { rewrite E1. cbn. apply list_lookup_insert_eq. exact Hi. }
  assert (E2 : r2 = (0, save path 0 []
                          (set_models (<[i := m2]> (models (snd r1))) (snd r1)))).
  { apply (data_store_delete i vnd m1 (snd r1) L1).
    cbn [m1 mod_flags mod_set_flags]. rewrite land_lor_same. exact Hp. }
  assert (L2 : models (snd r2) !! i = Some m2).
  { rewrite E2. cbn [snd save settings_save_one conf_save_one models
                     set_conf_save_pending emit set_trace set_models].
    apply list_lookup_insert_eq. eapply lookup_lt_Some, L1. }
  assert (E3 : r3 = (0, snd r2)).
  { apply (data_store_nothing i vnd m2 (snd r2) L2).
    cbn [m2 mod_flags mod_set_flags]. apply land_lnot_same. }
  split; [rewrite E1; reflexivity |]. split.
  - rewrite E1. cbn [snd]. rewrite save_trace. cbn [trace set_models].
    destruct data as [| b data]; [contradiction |].
    rewrite Nat2Z.id, take_ge by lia. reflexivity.
  - split; [rewrite E2; reflexivity |]. split; [| exact E3].
    rewrite E2. cbn [snd]. rewrite save_trace. reflexivity.
Qed.

(** ** Model bindings and subscriptions *)

Lemma u16s_cons (x : Z) (l : list Z) :
  u16s_to_bytes (x :: l) = [x mod 256; (x / 256) mod 256] ++ u16s_to_bytes l.
Proof. rewrite <- to_le_2. reflexivity. Qed.

Lemma u16s_app (a b : list Z) :
  u16s_to_bytes (a ++ b) = u16s_to_bytes a ++ u16s_to_bytes b.
Proof. unfold u16s_to_bytes. apply bind_app. Qed.

Lemma u16s_bytes_length (l : list Z) :
  length (u16s_to_bytes l) = (2 * length l)%nat.
Proof.
  induction l as [| x l IH]; [reflexivity |].
  rewrite u16s_cons. cbn [app length]. rewrite IH. lia.
Qed.

Lemma bytes_u16s_round (l : list Z) :
  Forall (fun k => 0 <= k < 65536) l -> bytes_to_u16s (u16s_to_bytes l) = l.
Proof.
  induction 1 as [| x l Hx _ IH]; [reflexivity |].
  rewrite u16s_cons. cbn [app bytes_to_u16s]. rewrite IH. f_equal.
  rewrite lor_shiftl_add by (try apply Z.mod_pos_bound; lia).
  change (2 ^ 8) with 256. Z.div_mod_to_equations. lia.
Qed.

Lemma decode_u16s (n : nat) (fill : Z) (ks : list Z) :
  Forall (fun k => 0 <= k < 65536) ks -> 0 <= fill < 65536 ->
  (length ks <= n)%nat ->
  bytes_to_u16s (memcpy_into (u16s_to_bytes (replicate n fill)) (u16s_to_bytes ks))
  = ks ++ replicate (n - length ks) fill.
Proof.
  intros Hks Hfill Hlen. unfold memcpy_into.
  replace n with (length ks + (n - length ks))%nat at 1 2 by lia.
  rewrite replicate_add, u16s_app, length_app.
  rewrite drop_app_length' by (rewrite !u16s_bytes_length, length_replicate; lia).
  rewrite take_ge by (rewrite !length_app, !u16s_bytes_length, !length_replicate; lia).
  rewrite <- u16s_app. apply bytes_u16s_round.
  apply Forall_app. split; [exact Hks |]. apply Forall_replicate. exact Hfill.
Qed.

Lemma Forall_filter_keep {A} (P : A -> Prop) `{!forall x, Decision (P x)}
    (Q : A -> Prop) (l : list A) :
  Forall Q l -> Forall Q (filter P l).
Proof.
  induction 1 as [| x l Hx _ IH]; [constructor |].
  rewrite filter_cons. destruct (decide (P x)); [constructor |]; assumption.
Qed.

(** X17.  The bindings and subscriptions of a model survive a reboot up to
    their position in the array.  The flush writes the AppKey indices in
    use, compacted, under [s/<key>/bind]; decoded into the same model
    after a reboot they fill the front of the key array in the same order,
    and the rest of the array is unused.  The subscription record always
    holds the whole group array, compacted and padded with zero; decoding
    it gives that array back. *)
Theorem X17_model_lists_round_trip
    (m m0 : bt_mesh_model) (vnd : bool) (st : mesh) :
  Forall (fun k => 0 <= k < 65536) (mod_keys m) ->
  Forall (fun g => 0 <= g < 65536) (mod_groups m) ->
  0 <= BT_MESH_KEY_UNUSED cfg < 65536 ->
  length (mod_keys m0) = length (mod_keys m) ->
  length (mod_groups m0) = length (mod_groups m) ->
  let keys := filter (fun k => k <> BT_MESH_KEY_UNUSED cfg) (mod_keys m) in
  let groups := filter (fun g => g <> BT_MESH_ADDR_UNASSIGNED cfg) (mod_groups m) in
  (exists keep,
     trace (store_pending_mod_bind m vnd st)
     = trace st ++ [StoreUpdate (encode_mod_path m vnd "bind") keep
                      (u16s_to_bytes keys)]) /\
  mod_set_bind_bin (u16s_to_bytes keys) m0
  = (0, mod_set_keys
          (keys ++ replicate (length (mod_keys m) - length keys)
                     (BT_MESH_KEY_UNUSED cfg)) m0) /\
  exists keep payload,
    trace (store_pending_mod_sub m vnd st)
    = trace st ++ [StoreUpdate (encode_mod_path m vnd "sub") keep payload] /\
    mod_set_sub_bin payload m0
    = (0, mod_set_groups
            (groups ++ replicate (length (mod_groups m) - length groups) 0) m0).
Proof.
  intros Hk Hg Hu Lk Lg keys groups.
  assert (Hkeys : Forall (fun k => 0 <= k < 65536) keys)
    by (apply Forall_filter_keep; exact Hk).
  assert (Hgroups : Forall (fun k => 0 <= k < 65536) groups)
    by (apply Forall_filter_keep; exact Hg).
  assert (Lkeys : (length keys <= length (mod_keys m))%nat) by apply length_filter.
  assert (Lgroups : (length groups <= length (mod_groups m))%nat)
    by apply length_filter.
  split; [| split].
  - eexists. unfold store_pending_mod_bind. rewrite save_trace. fold keys.
    rewrite take_ge by (rewrite u16s_bytes_length; lia). reflexivity.
  - unfold mod_set_bind_bin. rewrite Lk, u16s_bytes_length.
    destruct (Nat.eqb_spec (2 * length keys) 0) as [E0 | NE0].
    + assert (Enil : keys = []) by (apply nil_length_inv; lia).
      rewrite Enil. cbn [length app]. rewrite Nat.sub_0_r. reflexivity.
    + rewrite (proj2 (Nat.leb_le _ _)) by lia.
      rewrite decode_u16s by assumption. reflexivity.
  - set (n := length (mod_groups m)) in *.
    set (padded := take n (groups ++ replicate n 0)).
    assert (Epad : padded = groups ++ replicate (n - length groups) 0).
    { unfold padded. rewrite take_app_ge by exact Lgroups.
      rewrite take_replicate. f_equal. f_equal. lia. }
    assert (Lpad : length padded = n).
    { rewrite Epad, length_app, length_replicate. lia. }
    exists (if 0 <? Z.of_nat n * 2 then 1 else 0), (u16s_to_bytes padded). split.
    + unfold store_pending_mod_sub. rewrite save_trace. fold n groups padded.
      rewrite take_ge by (rewrite u16s_bytes_length; lia). reflexivity.
    + unfold mod_set_sub_bin. rewrite Lg. fold n. rewrite u16s_bytes_length, Lpad.
      destruct (Nat.eqb_spec (2 * n) 0) as [E0 | NE0].
      * assert (Enil : groups = []) by (apply nil_length_inv; lia).
        rewrite Enil. cbn [length app]. rewrite Nat.sub_0_r. reflexivity.
      * rewrite Nat.leb_refl. rewrite decode_u16s; [| | lia | lia].
        -- rewrite Lpad, Nat.sub_diag, app_nil_r, Epad. reflexivity.
        -- rewrite Epad. apply Forall_app. split; [exact Hgroups |].
           apply Forall_replicate. lia.
Qed.

(** ** Sequence number, from the flush to the next boot *)

Lemma seq_val_bytes_decode (s : Z) :
  0 <= s < 16777216 ->
  Z.lor (Z.lor (u8 s) (Z.shiftl (u8 (Z.shiftr s 8)) 8))
        (Z.shiftl (u8 (Z.shiftr s 16)) 16) = s.
Proof.
  intros Hs. unfold u8. rewrite !Z.shiftr_div_pow2 by lia.
  change (2 ^ 8) with 256. change (2 ^ 16) with 65536.
  rewrite seq_bytes_value by (unfold is_byte; apply Z.mod_pos_bound; lia).
  Z.div_mod_to_equations. lia.
Qed.

Lemma seq_restore_value (s r : Z) :
  0 <= s < 16777216 -> 0 < r <= 2147483647 ->
  u32 (u32 (s + u32 (r - s mod r)) - 1) = s + (r - s mod r) - 1.
Proof.
  intros Hs Hr. pose proof (Z.mod_pos_bound s r ltac:(lia)) as Hm.
  unfold u32. rewrite (Z.mod_small (r - s mod r)) by lia.
  rewrite (Z.mod_small (s + (r - s mod r))) by lia.
  apply Z.mod_small. lia.
Qed.

(** X18.  The sequence number across a reboot.  The flush writes the low 24
    bits of the counter under [Seq]; for a store rate [R > 0] the loader
    restores from that record a value that is not below the stored one,
    less than [R] above it, and one short of a multiple of [R].  So the
    first transmission after the reboot, which brings the counter to that
    multiple, makes [bt_mesh_store_seq] mark the sequence number for
    storing again. *)
Theorem X18_seq_restore_forces_store (st0 st : mesh) :
  0 <= seq st0 < 16777216 ->
  0 < CONFIG_BT_MESH_SEQ_STORE_RATE cfg <= 2147483647 ->
  let r := seq_set_bin (seq_val_bytes st0) st in
  let restored := seq (snd r) in
  trace (store_pending_seq st0)
  = trace st0 ++ [StoreUpdate "Seq" 1 (seq_val_bytes st0)] /\
  fst r = 0 /\
  seq st0 <= restored < seq st0 + CONFIG_BT_MESH_SEQ_STORE_RATE cfg /\
  (restored + 1) mod CONFIG_BT_MESH_SEQ_STORE_RATE cfg = 0 /\
  atomic_test_bit (bt_mesh_store_seq (set_seq (restored + 1) (snd r)))
    BT_MESH_SEQ_PENDING = true.
Proof.
  intros Hs HR r restored.
  set (R := CONFIG_BT_MESH_SEQ_STORE_RATE cfg) in *.
  assert (Er : r = (0, set_seq (seq st0 + (R - seq st0 mod R) - 1) st)).
  { subst r. unfold seq_set_bin, seq_val_bytes. cbn [length Nat.eqb negb byte_at nth].
    rewrite seq_val_bytes_decode by exact Hs. fold R.
    replace (0 <? R) with true by (symmetry; apply Z.ltb_lt; lia).
    rewrite seq_restore_value by assumption. reflexivity. }
  assert (Erest : restored = seq st0 + (R - seq st0 mod R) - 1)
    by (subst restored; rewrite Er; reflexivity).
  pose proof (Z.mod_pos_bound (seq st0) R ltac:(lia)) as Hm.
  assert (Hmul : (restored + 1) mod R = 0).
  { rewrite Erest.
    replace (seq st0 + (R - seq st0 mod R) - 1 + 1) with ((seq st0 / R + 1) * R)
      by (pose proof (Z.div_mod (seq st0) R ltac:(lia)); lia).
    apply Z.mod_mul. lia. }
  split; [reflexivity |]. split; [rewrite Er; reflexivity |].
  split; [lia |]. split; [exact Hmul |].
  unfold bt_mesh_store_seq. cbn [seq set_seq]. fold R. rewrite Hmul.
  rewrite Z.eqb_refl. cbn [negb]. rewrite andb_false_r.
  rewrite (test_bit_flags _ _ _ (schedule_store_flags _ _)), test_set_bit.
  rewrite decide_True by reflexivity. reflexivity.
Qed.

(** ** Virtual address labels *)

Lemma va_flush_writes_cons (k : nat) (l : label) (r : list label) :
  va_flush_writes k (l :: r)
  = (if lab_changed l && negb (lab_ref l =? 0)
     then [StoreUpdate (String.append "Va/" (fmt_x (Z.of_nat k))) 1 (va_val_bytes l)]
     else [])
    ++ va_flush_writes (S k) r.
Proof.
  unfold va_flush_writes. rewrite imap_cons. cbn [omap list_omap fst snd].
  rewrite Nat.add_0_r.
  rewrite (imap_ext _ (fun j x => ((S k + j)%nat, x)) r)
    by (intros; cbn; f_equal; lia).
  destruct (lab_changed l && negb (lab_ref l =? 0)); reflexivity.
Qed.

Lemma length_va_val_bytes (l : label) : length (va_val_bytes l) = 20%nat.
Proof.
  unfold va_val_bytes. rewrite !length_app, !length_to_le, length_fit. reflexivity.
Qed.

Lemma store_pending_va_loop_spec (todo : list label) :
  forall k st,
  fst (store_pending_va_loop k todo st) = map lab_clear_changed todo /\
  trace (snd (store_pending_va_loop k todo st)) = trace st ++ va_flush_writes k todo.
Proof.
  induction todo as [| l r IH]; intros k st; cbn [store_pending_va_loop map].
  - split; [reflexivity |]. cbn. rewrite app_nil_r. reflexivity.
  - rewrite va_flush_writes_cons. destruct (lab_changed l) eqn:Hc; cbn [negb andb].
    + set (st1 := if lab_ref l =? 0 then st else _).
      specialize (IH (S k) st1).
      destruct (store_pending_va_loop (S k) r st1) as [r' st']. cbn [fst snd] in *.
      destruct IH as [-> ->]. split; [reflexivity |]. subst st1.
      destruct (lab_ref l =? 0); cbn [negb]; [reflexivity |].
      rewrite save_trace, <- app_assoc. cbn [Z.ltb Z.compare].
      rewrite take_ge by (rewrite length_va_val_bytes; cbn; lia). reflexivity.
    + specialize (IH (S k) st).
      destruct (store_pending_va_loop (S k) r st) as [r' st']. cbn [fst snd] in *.
      destruct IH as [-> ->]. split; [| reflexivity].
      f_equal. destruct l; cbn in *. subst. reflexivity.
Qed.

Lemma va_flush_writes_keep (ls : list label) :
  forall k, Forall (fun e => exists p v, e = StoreUpdate p 1 v) (va_flush_writes k ls).
Proof.
  induction ls as [| l r IH]; intros k; [constructor |].
  rewrite va_flush_writes_cons. apply Forall_app. split; [| apply IH].
  destruct (_ && _); repeat constructor. eauto.
Qed.

(** X19.  The flush of the virtual address labels writes one record,
    under [Va/<index in hex>], for every label that is marked changed and is
    in use, in the order of the indices, and clears every changed mark.  A
    changed label whose reference count is zero gets no write: this build
    never issues a zero-length write for a label, so the record of a
    deleted label stays in the store. *)
Theorem X19_flush_labels (st : mesh) :
  let st' := store_pending_va st in
  labels st' = map lab_clear_changed (labels st) /\
  Forall (fun l => lab_changed l = false) (labels st') /\
  trace st' = trace st ++ va_flush_writes 0 (labels st) /\
  Forall (fun e => exists p v, e = StoreUpdate p 1 v) (va_flush_writes 0 (labels st)).
Proof.
  intros st'. subst st'. unfold store_pending_va.
  pose proof (store_pending_va_loop_spec (labels st) 0 st) as [Hl Ht].
  destruct (store_pending_va_loop 0 (labels st) st) as [l s1]. cbn [fst snd] in *.
  cbn [labels trace set_labels]. subst l.
  split; [reflexivity |]. split; [| split; [exact Ht | apply va_flush_writes_keep]].
  apply Forall_forall. intros x Hx.
  apply list_elem_of_fmap in Hx as (e & -> & _). reflexivity.
Qed.

(** ** Role *)

(** X20.  The role record.  The flush writes one byte under [Role]: 2 for
    a provisioner, otherwise 1 for a node, and nothing at all when neither
    role flag is set (a provisioner flag wins over a node flag).  Loading
    that record sets the flag of the role that was stored and no other, so
    a state restored from it passes the role test of
    [bt_mesh_settings_load] for that role. *)
Theorem X20_role_round_trip (st0 st : mesh) :
  let prov := atomic_test_bit st0 BT_MESH_PROVISIONER in
  let payload := [if prov then 2 else 1] in
  let flag := if prov then BT_MESH_PROVISIONER else BT_MESH_NODE in
  (prov || atomic_test_bit st0 BT_MESH_NODE = false -> store_pending_role st0 = st0) /\
  (prov || atomic_test_bit st0 BT_MESH_NODE = true ->
   trace (store_pending_role st0) = trace st0 ++ [StoreUpdate "Role" 1 payload]) /\
  mesh_set_bin "Role" payload st = (0, atomic_set_bit flag st) /\
  role_matches (atomic_set_bit flag st) (negb prov) = true.
Proof.
  intros prov payload flag. subst payload flag. unfold store_pending_role.
  fold prov. rewrite dispatch_Role by reflexivity. unfold role_matches.
  rewrite !test_set_bit.
  destruct prov; cbn [orb].
  - split; [discriminate |]. split; [intros _; apply save_trace |].
    split; [reflexivity |].
    rewrite (decide_True (P := BT_MESH_PROVISIONER = BT_MESH_PROVISIONER)) by reflexivity.
    cbn. apply orb_true_r.
  - destruct (atomic_test_bit st0 BT_MESH_NODE).
    + split; [discriminate |]. split; [intros _; apply save_trace |].
      split; [reflexivity |].
      rewrite (decide_True (P := BT_MESH_NODE = BT_MESH_NODE)) by reflexivity.
      reflexivity.
    + split; [reflexivity |]. split; [discriminate |].
      split; [reflexivity |].
      rewrite (decide_True (P := BT_MESH_NODE = BT_MESH_NODE)) by reflexivity.
      reflexivity.
Qed.

(** ** The pending key table *)

(** X21.  What [key_update_find] reports.  A reported match is a valid entry
    of the table for the key that was asked for (same kind, same index); if
    no match is reported the table holds no valid entry for the key.  A
    reported free slot is an entry that is not valid; if none is reported
    every entry of the table is valid. *)
Theorem X21_key_update_find_contract (app : bool) (idx : Z) (st : mesh) :
  let r := key_update_find app idx st in
  (forall k, fst r = Some k ->
     exists u, key_updates st !! k = Some u /\ ku_matches app idx u = true) /\
  (fst r = None ->
   forallb (fun u => negb (ku_matches app idx u)) (key_updates st) = true) /\
  (forall j, snd r = Some j ->
     exists u, key_updates st !! j = Some u /\ ku_valid u = false) /\
  (snd r = None -> forallb ku_valid (key_updates st) = true).
Proof.
  intros r. subst r.
  destruct (key_find_sound app idx st) as [Hm Hf].
  pose proof (key_scan_complete app idx (key_updates st) 0 (None, None)) as Hc.
  cbv zeta in Hc. fold (key_update_find app idx st) in Hc. destruct Hc as [Hc1 Hc2].
  split; [exact Hm |]. split; [intros H; apply Hc1, H |].
  split; [exact Hf |]. intros H. apply Hc2, H.
Qed.

Lemma store_pending_keys_loop_table (tbl : list key_update) :
  forall st,
  fst (store_pending_keys_loop tbl st) = map ku_invalidate tbl.
Proof.
  induction tbl as [| u r IH]; intros st; cbn [store_pending_keys_loop map];
    [reflexivity |].
  destruct (ku_valid u) eqn:Hv; cbn [negb].
  - specialize (IH (flush_key_update u st)).
    destruct (store_pending_keys_loop r _) as [r' st']. cbn [fst] in *.
    rewrite IH. reflexivity.
  - specialize (IH st). destruct (store_pending_keys_loop r st) as [r' st'].
    cbn [fst] in *. rewrite IH. f_equal. destruct u; cbn in *. subst. reflexivity.
Qed.

Lemma key_intent_wf (app : bool) (idx : Z) (c : bool) (direct : mesh -> mesh)
    (st : mesh) :
  0 <= idx < 4096 -> Forall ku_wf (key_updates st) ->
  key_updates (direct st) = key_updates st ->
  Forall ku_wf (key_updates (key_intent app idx c direct st)).
Proof.
  intros Hidx Hwf Hdirect. unfold key_intent.
  destruct (key_update_find app idx st) as [[k |] [j |]];
    rewrite ?schedule_store_key_updates, ?Hdirect; cbn [key_updates set_key_updates];
    try exact Hwf.
  - apply Forall_alter; [exact Hwf | intros u _ H; exact H].
  - apply Forall_alter; [exact Hwf | intros u _ H; exact H].
  - apply Forall_insert; [exact Hwf |]. unfold ku_wf, ku_make. cbn [ku_key_idx].
    rewrite (land_ones_mod idx 12) by (reflexivity || lia).
    apply Z.mod_pos_bound. lia.
Qed.

(** X22.  The pending key table never holds two valid entries for one key.
    If every entry carries a 12-bit index and no key has more than one
    valid entry, the same holds after a store or a clear intent for any
    NetKey or AppKey with a 12-bit index, whether it was coalesced, took a
    free slot or was written through, and after the flush, which leaves no
    valid entry at all. *)
Theorem X22_key_table_invariant (r : key_ref) (st : mesh) :
  0 <= key_ref_idx r < 4096 -> key_table_ok st ->
  key_table_ok (store_key r st) /\ key_table_ok (clear_key r st) /\
  key_table_ok (store_pending_keys st) /\
  Forall (fun u => ku_valid u = false) (key_updates (store_pending_keys st)).
Proof.
  intros Hidx [Hwf Huniq].
  assert (Hflush : key_updates (store_pending_keys st)
                   = map ku_invalidate (key_updates st)).
  { unfold store_pending_keys.
    pose proof (store_pending_keys_loop_table (key_updates st) st) as H.
    destruct (store_pending_keys_loop (key_updates st) st). exact H. }
  assert (Hinv : Forall (fun u => ku_valid u = false)
                   (key_updates (store_pending_keys st))).
  { rewrite Hflush. apply Forall_forall. intros x Hx.
    apply list_elem_of_fmap in Hx as (u & -> & _). reflexivity. }
  split; [| split; [| split; [| exact Hinv]]].
  - split.
    + destruct r; cbn in *; apply key_intent_wf; auto.
    + eapply key_intents_keep_unique; eauto.
  - split.
    + destruct r; cbn in *; apply key_intent_wf; auto.
    + eapply key_intents_keep_unique; eauto.
  - split.
    + rewrite Hflush. apply Forall_forall. intros x Hx.
      apply list_elem_of_fmap in Hx as (u & -> & Hu).
      rewrite Forall_forall in Hwf. exact (Hwf u Hu).
    + intros a j. rewrite filter_none; [cbn; lia |].
      apply forallb_forall. intros x Hx. apply list_elem_of_In in Hx.
      rewrite Forall_forall in Hinv. unfold ku_matches. rewrite (Hinv x Hx).
      reflexivity.
Qed.

(** ** AppKey, node and model publication records across a reboot *)

Lemma u16_le_bytes (v : Z) :
  0 <= v < 65536 -> of_le [v mod 256; (v / 256) mod 256] = v.
Proof.
  intros Hv. rewrite of_le_2 by (apply Z.mod_pos_bound; lia).
  Z.div_mod_to_equations. lia.
Qed.

(** X23.  An AppKey survives a reboot.  The flush writes the key under
    [AppKey/<index in hex>]; the loader restores the bound NetKey index,
    the updated flag and both key values from that record into the AppKey
    with this index, or into the slot [bt_mesh_app_key_alloc] hands out
    when there is none, and computes both AIDs anew from the restored
    values; with no slot left the record is refused with [-ENOMEM]. *)
Theorem X23_app_key_survives_reboot (a : bt_mesh_app_key) (st0 st : mesh) :
  app_key_valid a -> 0 <= ak_app_idx a < 65536 ->
  let key := key_path true (ak_app_idx a) in
  let payload := app_key_val_bytes a in
  trace (store_app_key a st0) = trace st0 ++ [StoreUpdate key 1 payload] /\
  mesh_set_bin key payload st
  = match match bt_mesh_app_key_find ext (ak_app_idx a) (app_keys st) with
          | Some i => Some i
          | None => bt_mesh_app_key_alloc ext (ak_app_idx a) (app_keys st)
          end with
    | Some i =>
        (0, set_app_keys
              (<[i := app_key_restore (ak_net_idx a) (ak_app_idx a) (ak_updated a)
                        (ak_val0 a) (ak_val1 a)]> (app_keys st)) st)
    | None => (- ENOMEM, st)
    end.
Proof.
  intros (Hn & Hu & H0 & H1) Hidx key payload. subst key payload.
  assert (Hlen : length (app_key_val_bytes a) = 35%nat).
  { unfold app_key_val_bytes. rewrite !length_app, length_to_le, !length_fit.
    reflexivity. }
  split.
  - unfold store_app_key. rewrite save_trace. cbn [Z.ltb Z.compare].
    rewrite take_ge by (rewrite Hlen; cbn; lia). reflexivity.
  - rewrite dispatch_AppKey by reflexivity. unfold app_key_set_bin.
    replace (u16 (strtol16 (string_drop 7 (key_path true (ak_app_idx a)))))
      with (ak_app_idx a) by (symmetry; exact (strtol16_fmt_x _ Hidx)).
    rewrite Hlen. cbn [Nat.eqb negb].
    unfold app_key_val_bytes. rewrite to_le_2, !fit_exact by assumption.
    cbn [app byte_at nth]. unfold slice. cbn [drop take].
    rewrite u16_le_bytes by exact Hn.
    unfold u8. rewrite (Z.mod_small (ak_updated a)) by exact Hu.
    rewrite drop_0, take_app_length', drop_app_length' by (symmetry; assumption).
    rewrite take_ge by lia. reflexivity.
Qed.

(** X24.  A managed node survives a reboot of the provisioner.  The flush
    writes the node under [Node/<address in hex>]; the loader looks the
    address up and, when the node is not known, allocates it with the
    element count and the NetKey index of the record; the device key of
    the record then goes into the node.  For a node that is already in the
    table only the device key is restored. *)
Theorem X24_node_survives_reboot (m : bt_mesh_node) (st0 st : mesh) :
  node_valid m -> 0 <= node_addr m < 65536 ->
  CONFIG_BT_MESH_PROVISIONER cfg = true ->
  let key := String.append "Node/" (fmt_x (node_addr m)) in
  let payload := node_val_bytes m in
  trace (store_node m st0) = trace st0 ++ [StoreUpdate key 1 payload] /\
  mesh_set_bin key payload st
  = let '(node, st1) :=
      match bt_mesh_node_find ext (node_addr m) (nodes st) with
      | Some i => (Some i, st)
      | None => bt_mesh_node_alloc ext (node_addr m) (node_num_elem m)
                  (node_net_idx m) st
      end in
    match node with
    | Some i =>
        (0, set_nodes (alter (node_set_dev_key (node_dev_key m)) i (nodes st1)) st1)
    | None => (- ENOMEM, st1)
    end.
Proof.
  intros (Hn & He & Hk) Haddr Hprov key payload. subst key payload. split.
  - unfold store_node. rewrite save_trace. cbn [Z.ltb Z.compare].
    rewrite take_ge by (rewrite length_node_val_bytes; cbn; lia). reflexivity.
  - rewrite dispatch_Node by reflexivity. rewrite Hprov. unfold node_set_bin.
    replace (u16 (strtol16 (string_drop 5 (String.append "Node/" (fmt_x (node_addr m))))))
      with (node_addr m) by (symmetry; exact (strtol16_fmt_x _ Haddr)).
    rewrite length_node_val_bytes. cbn [Nat.eqb negb].
    unfold node_val_bytes. rewrite to_le_2, fit_exact by assumption.
    unfold byte_at, slice. cbn [app drop take].
    rewrite u16_le_bytes by exact Hn.
    rewrite drop_0, take_app_length' by (symmetry; assumption).
    replace (nth 18 (node_net_idx m mod 256 :: (node_net_idx m / 256) mod 256
                       :: node_dev_key m ++ [u8 (node_num_elem m)]) 0)
      with (node_num_elem m); [reflexivity |].
    cbn [nth]. rewrite app_nth2 by lia. rewrite Hk. cbn.
    unfold u8. symmetry. apply Z.mod_small. exact He.
Qed.

Lemma pub_unit_fields (div cred junk : Z) :
  0 <= div < 16 -> 0 <= cred < 2 ->
  let unit := Z.lor (Z.lor (Z.land div 15) (Z.shiftl (Z.land cred 1) 4))
                    (Z.shiftl (Z.land junk 7) 5) in
  bits 4 1 unit = cred.
Proof.
  intros Hd Hc. cbn zeta.
  rewrite (land_ones_mod div 4), (land_ones_mod cred 1), (land_ones_mod junk 3)
    by (reflexivity || lia).
  rewrite (Z.mod_small div), (Z.mod_small cred) by lia.
  pose proof (Z.mod_pos_bound junk (2 ^ 3) ltac:(lia)) as Hj.
  rewrite (lor_shiftl_add div) by lia.
  rewrite lor_shiftl_add by lia.
  rewrite bits_div_mod by lia.
  change (2 ^ 1) with 2. change (2 ^ 3) with 8 in *.
  change (2 ^ 4) with 16. change (2 ^ 5) with 32.
  Z.div_mod_to_equations. lia.
Qed.

(** X25.  The publication of a model across a reboot.  For an assigned
    publication address the flush writes address, AppKey index, ttl,
    retransmit, period, period divisor and credential flag under
    [s/<key>/pub]; the loader restores address, AppKey index, credential
    flag, ttl, period and retransmit from the record and resets the
    publication count to 0.  The period divisor of the record is not read
    back: the context keeps the divisor it had. *)
Theorem X25_model_pub_round_trip
    (junk : Z) (p p0 : bt_mesh_model_pub) (m m0 : bt_mesh_model) (vnd : bool)
    (st : mesh) :
  mod_pub_valid p -> mod_pub m = Some p -> mod_pub m0 = Some p0 ->
  trace (store_pending_mod_pub m vnd st)
  = trace st ++ [StoreUpdate (encode_mod_path m vnd "pub") 1
                   (mod_pub_val_bytes (stack_junk ext (trace st)) p)] /\
  mod_set_pub_bin (mod_pub_val_bytes junk p) m0
  = (0, mod_set_pub (Some (mod_pub_restored p p0)) m0).
Proof.
  intros (Hne & Ha & Hk & Ht & Hr & Hp & Hd & Hc) Hm Hm0. unfold is_byte in *.
  assert (Hlen : forall j, length (mod_pub_val_bytes j p) = 8%nat).
  { intros j. unfold mod_pub_val_bytes. rewrite !length_app, !length_to_le.
    reflexivity. }
  split.
  - unfold store_pending_mod_pub. rewrite Hm.
    apply Z.eqb_neq in Hne. rewrite Hne, save_trace. cbn [Z.ltb Z.compare].
    rewrite take_ge by (rewrite Hlen; cbn; lia). reflexivity.
  - unfold mod_set_pub_bin. rewrite Hm0, Hlen. cbn [Nat.eqb negb].
    pose proof (pub_unit_fields (pub_period_div p) (pub_cred p) junk Hd Hc) as Hu.
    cbv zeta in Hu. unfold mod_pub_val_bytes. rewrite !to_le_2.
    set (unit := Z.lor _ _) in *.
    unfold slice, byte_at. cbn [app drop take nth].
    rewrite !u16_le_bytes by assumption. rewrite Hu.
    unfold mod_pub_restored, u8. rewrite !Z.mod_small by assumption. reflexivity.
Qed.

(** ** Keys of the model records *)

Lemma is_prefix_occurs (c : ascii) (p : string) :
  forall s, is_prefix p s = true -> occurs c p = true -> occurs c s = true.
Proof.
  induction p as [| a p IH]; intros s Hp Hc; [discriminate |].
  destruct s as [| b s]; [discriminate |]. cbn [is_prefix occurs] in *.
  apply andb_true_iff in Hp as [Hab Hp]. apply Ascii.eqb_eq in Hab. subst b.
  apply orb_true_iff in Hc as [Hc | Hc].
  - rewrite Hc. reflexivity.
  - rewrite (IH s Hp Hc). apply orb_true_r.
Qed.

Lemma contains_occurs (c : ascii) (p : string) :
  forall s, contains p s = true -> occurs c p = true -> occurs c s = true.
Proof.
  induction s as [| b s IH]; intros Hs Hc.
  - cbn [contains] in Hs. rewrite orb_false_r in Hs.
    exact (is_prefix_occurs c p _ Hs Hc).
  - cbn [contains] in Hs. apply orb_true_iff in Hs as [Hs | Hs].
    + exact (is_prefix_occurs c p _ Hs Hc).
    + cbn [occurs]. rewrite (IH Hs Hc). apply orb_true_r.
Qed.

Lemma occurs_append (c : ascii) (a b : string) :
  occurs c (String.append a b) = occurs c a || occurs c b.
Proof.
  induction a as [| x a IH]; cbn [String.append occurs]; [reflexivity |].
  rewrite IH. apply orb_assoc.
Qed.

Lemma occurs_hex_digits (c : ascii) (fuel : nat) :
  (forall d, 0 <= d < 16 -> Ascii.eqb (hex_digit d) c = false) ->
  forall n acc, occurs c (hex_digits fuel n acc) = occurs c acc.
Proof.
  intros Hc. induction fuel as [| fuel IH]; intros n acc; cbn [hex_digits];
    [reflexivity |].
  assert (E : occurs c (String (hex_digit (n mod 16)) acc) = occurs c acc).
  { cbn [occurs]. rewrite Hc by (apply Z.mod_pos_bound; lia). reflexivity. }
  destruct (n / 16 =? 0); [exact E |]. rewrite IH. exact E.
Qed.

Lemma not_hex_digit (c : ascii) :
  forallb (fun d => negb (Ascii.eqb (hex_digit d) c))
    [0; 1; 2; 3; 4; 5; 6; 7; 8; 9; 10; 11; 12; 13; 14; 15] = true ->
  forall d, 0 <= d < 16 -> Ascii.eqb (hex_digit d) c = false.
Proof.
  intros H d Hd. rewrite forallb_forall in H. apply negb_true_iff, H.
  assert (d = 0 \/ d = 1 \/ d = 2 \/ d = 3 \/ d = 4 \/ d = 5 \/ d = 6 \/ d = 7 \/
          d = 8 \/ d = 9 \/ d = 10 \/ d = 11 \/ d = 12 \/ d = 13 \/ d = 14 \/
          d = 15) as Ed by lia.
  cbn. intuition.
Qed.

Lemma contains_refl (p : string) : contains p p = true.
Proof.
  assert (H : is_prefix p p = true).
  { induction p as [| a p IH]; cbn [is_prefix]; [reflexivity |].
    rewrite Ascii.eqb_refl. exact IH. }
  destruct p; cbn [contains]; rewrite H; reflexivity.
Qed.

Lemma contains_append_r (p a s : string) :
  contains p s = true -> contains p (String.append a s) = true.
Proof.
  intros H. induction a as [| x a IH]; cbn [String.append contains]; [exact H |].
  rewrite IH. apply orb_true_r.
Qed.

(** The key of a model record holds the part name it was printed with. *)
Lemma mod_path_contains_self (m : bt_mesh_model) (vnd : bool) (part : string) :
  contains part (encode_mod_path m vnd part) = true.
Proof.
  unfold encode_mod_path. do 2 apply contains_append_r.
  cbn [String.append contains]. rewrite contains_refl. apply orb_true_r.
Qed.

(** No other part name occurs in it when that name has a character which is
    neither a hex digit nor a character of the prefix and of the part. *)
Lemma mod_path_occurs (c : ascii) (m : bt_mesh_model) (vnd : bool) (part : string) :
  (forall d, 0 <= d < 16 -> Ascii.eqb (hex_digit d) c = false) ->
  occurs c (encode_mod_path m vnd part)
  = occurs c (if vnd then "v/" else "s/") || occurs c (String "/" part).
Proof.
  intros Hc. unfold encode_mod_path, fmt_x.
  rewrite !occurs_append, occurs_hex_digits by exact Hc.
  cbn [occurs orb]. rewrite orb_false_r. reflexivity.
Qed.

Lemma mod_path_no_bind (m : bt_mesh_model) (vnd : bool) (part : string) :
  occurs "i" part = false ->
  contains "bind" (encode_mod_path m vnd part) = false.
Proof.
  intros Hp. destruct (contains "bind" _) eqn:E; [| reflexivity].
  apply (contains_occurs "i") in E; [| reflexivity].
  rewrite mod_path_occurs in E by (apply not_hex_digit; reflexivity).
  cbn [occurs] in E. rewrite Hp in E. destruct vnd; discriminate.
Qed.

Lemma mod_path_no_sub (m : bt_mesh_model) (vnd : bool) (part : string) :
  occurs "s" part = false ->
  contains "sub" (encode_mod_path m vnd part) = false.
Proof.
  intros Hp. unfold encode_mod_path.
  set (rest := String.append (fmt_x _) _).
  assert (E : contains "sub" (String.append (if vnd then "v/" else "s/") rest)
              = contains "sub" rest) by (destruct vnd; reflexivity).
  rewrite E. destruct (contains "sub" rest) eqn:C; [| reflexivity].
  apply (contains_occurs "s") in C; [| reflexivity].
  subst rest. unfold fmt_x in C.
  rewrite occurs_append, occurs_hex_digits in C by (apply not_hex_digit; reflexivity).
  cbn [occurs String.append] in C. rewrite Hp in C. discriminate.
Qed.

Lemma mod_key_fields (e i : Z) :
  is_byte e -> is_byte i ->
  let k := u16 (Z.lor (Z.shiftl e 8) i) in
  0 <= k < 65536 /\ u8 (Z.shiftr k 8) = e /\ u8 k = i.
Proof.
  unfold is_byte. intros He Hi. cbn zeta.
  rewrite Z.lor_comm, lor_shiftl_add by lia. change (2 ^ 8) with 256.
  unfold u16, u8. rewrite Z.shiftr_div_pow2 by lia. change (2 ^ 8) with 256.
  rewrite (Z.mod_small (i + e * 256)) by lia.
  repeat split; try lia; Z.div_mod_to_equations; lia.
Qed.

Lemma mod_path_parse (m : bt_mesh_model) (vnd : bool) (part : string) :
  is_byte (mod_elem_idx m) -> is_byte (mod_idx m) ->
  let k := u16 (strtol16 (string_drop 2 (encode_mod_path m vnd part))) in
  u8 (Z.shiftr k 8) = mod_elem_idx m /\ u8 k = mod_idx m.
Proof.
  intros He Hi. cbn zeta.
  destruct (mod_key_fields _ _ He Hi) as (Hk & H8 & H0). cbv zeta in *.
  set (k := u16 (Z.lor (Z.shiftl (mod_elem_idx m) 8) (mod_idx m))) in *.
  assert (E : string_drop 2 (encode_mod_path m vnd part)
              = String.append (fmt_x k) (String "/" part))
    by (unfold encode_mod_path; destruct vnd; reflexivity).
  rewrite E, strtol16_fmt_x_slash by (lia || eauto).
  assert (Ek : u16 k = k) by (apply Z.mod_small; exact Hk).
  rewrite Ek. split; assumption.
Qed.

(** X26.  The keys of the model records are read back as they were
    printed.  For a model whose element and model index are bytes, the key
    [s/<hex>/bind], [.../sub] or [.../pub] the flush prints is dispatched to
    the model decoder of its kind, the two indices parsed from the hex part
    are those of the model, and the substring tests of [mod_set_bin] pick
    the decoder of that part and no other, although hex digits such as [b],
    [d] and [a] may occur in the key: the record reaches the binding,
    subscription or publication decoder of the model that
    [bt_mesh_model_get] returns for the two indices, and is answered with
    [-ENOENT] if there is no such model. *)
Theorem X26_model_key_dispatch
    (m : bt_mesh_model) (vnd : bool) (value : bytes) (st : mesh) :
  is_byte (mod_elem_idx m) -> is_byte (mod_idx m) ->
  let run f :=
    match bt_mesh_model_get ext vnd (mod_elem_idx m) (mod_idx m) (models st) with
    | Some i => on_model i f st
    | None => (- ENOENT, st)
    end in
  mesh_set_bin (encode_mod_path m vnd "bind") value st = run (mod_set_bind_bin value) /\
  mesh_set_bin (encode_mod_path m vnd "sub") value st = run (mod_set_sub_bin value) /\
  mesh_set_bin (encode_mod_path m vnd "pub") value st = run (mod_set_pub_bin value).
Proof.
  intros He Hi run. subst run.
  assert (Hd : forall part,
            mesh_set_bin (encode_mod_path m vnd part) value st
            = mod_set_bin vnd (encode_mod_path m vnd part) value st).
  { intros part. apply dispatch_model. unfold encode_mod_path.
    destruct vnd; reflexivity. }
  rewrite !Hd. unfold mod_set_bin.
  repeat split.
  - destruct (mod_path_parse m vnd "bind" He Hi) as [-> ->].
    rewrite mod_path_contains_self. reflexivity.
  - destruct (mod_path_parse m vnd "sub" He Hi) as [-> ->].
    rewrite mod_path_no_bind by reflexivity.
    rewrite mod_path_contains_self. reflexivity.
  - destruct (mod_path_parse m vnd "pub" He Hi) as [-> ->].
    rewrite mod_path_no_bind, mod_path_no_sub by reflexivity.
    rewrite mod_path_contains_self. reflexivity.
Qed.

(** ** The flush of the models *)

Lemma land_lnot_unset (f b : Z) : Z.land f b = 0 -> Z.land f (Z.lnot b) = f.
Proof.
  intros H. apply Z.bits_inj'. intros n Hn.
  pose proof (f_equal (fun z => Z.testbit z n) H) as Hb. cbn beta in Hb.
  rewrite Z.land_spec, Z.bits_0 in Hb.
  rewrite Z.land_spec, Z.lnot_spec by lia.
  destruct (Z.testbit f n), (Z.testbit b n); cbn in *; congruence.
Qed.

Lemma land_lnot_other (f b s : Z) :
  Z.land b s = 0 -> Z.land (Z.land f (Z.lnot b)) s = Z.land f s.
Proof.
  intros H. apply Z.bits_inj'. intros n Hn.
  pose proof (f_equal (fun z => Z.testbit z n) H) as Hb. cbn beta in Hb.
  rewrite Z.land_spec, Z.bits_0 in Hb.
  rewrite !Z.land_spec, Z.lnot_spec by lia.
  destruct (Z.testbit f n), (Z.testbit b n), (Z.testbit s n); cbn in *; congruence.
Qed.

Lemma land_lnot_three (f b s p : Z) :
  Z.land (Z.land (Z.land f (Z.lnot b)) (Z.lnot s)) (Z.lnot p)
  = Z.land f (Z.lnot (Z.lor (Z.lor b s) p)).
Proof.
  apply Z.bits_inj'. intros n Hn.
  rewrite !Z.land_spec, !Z.lnot_spec, !Z.lor_spec by lia.
  destruct (Z.testbit f n), (Z.testbit b n), (Z.testbit s n), (Z.testbit p n);
    reflexivity.
Qed.

Lemma land_lnot_mask (f m : Z) : Z.land (Z.land f (Z.lnot m)) m = 0.
Proof. apply land_lnot_same. Qed.

Lemma mod_set_flags_same (m : bt_mesh_model) : mod_set_flags (mod_flags m) m = m.
Proof. destruct m. reflexivity. Qed.

(** One step of [store_pending_mod]: test a pending bit, clear it, encode. *)
Lemma pending_step (m0 m : bt_mesh_model) (mask : Z)
    (enc : bt_mesh_model -> bool -> mesh -> mesh) (st : mesh) :
  (forall f s, enc (mod_set_flags f m0) (mod_vnd m0) s = enc m0 (mod_vnd m0) s) ->
  m = mod_set_flags (mod_flags m) m0 ->
  (if negb (Z.land (mod_flags m) mask =? 0) then
     (mod_set_flags (Z.land (mod_flags m) (Z.lnot mask)) m,
      enc (mod_set_flags (Z.land (mod_flags m) (Z.lnot mask)) m) (mod_vnd m0) st)
   else (m, st))
  = (mod_set_flags (Z.land (mod_flags m) (Z.lnot mask)) m0,
     if Z.land (mod_flags m) mask =? 0 then st else enc m0 (mod_vnd m0) st).
Proof.
  intros Henc Hm. destruct (Z.eqb_spec (Z.land (mod_flags m) mask) 0) as [E | NE];
    cbn [negb].
  - rewrite land_lnot_unset by exact E. rewrite <- Hm. reflexivity.
  - assert (E : forall x, mod_set_flags x m = mod_set_flags x m0)
      by (intros x; rewrite Hm; reflexivity).
    rewrite !E, Henc. reflexivity.
Qed.

Lemma store_pending_mod_spec (m : bt_mesh_model) (st : mesh) :
  mod_masks_disjoint ->
  store_pending_mod m st
  = (mod_set_flags (Z.land (mod_flags m) (Z.lnot mod_pending_mask)) m,
     when_marked m (BT_MESH_MOD_PUB_PENDING cfg) store_pending_mod_pub
       (when_marked m (BT_MESH_MOD_SUB_PENDING cfg) store_pending_mod_sub
          (when_marked m (BT_MESH_MOD_BIND_PENDING cfg) store_pending_mod_bind st))).
Proof.
  intros (Hbs & Hbp & Hsp). unfold store_pending_mod, when_marked, mod_pending_mask.
  set (B := BT_MESH_MOD_BIND_PENDING cfg) in *.
  set (S := BT_MESH_MOD_SUB_PENDING cfg) in *.
  set (P := BT_MESH_MOD_PUB_PENDING cfg) in *.
  destruct (Z.eqb_spec (mod_flags m) 0) as [E0 | NE0].
  - rewrite E0, !Z.land_0_l. cbn [Z.eqb]. rewrite <- E0, mod_set_flags_same.
    reflexivity.
  - rewrite (pending_step m m B store_pending_mod_bind st)
      by (reflexivity || (symmetry; apply mod_set_flags_same)).
    set (m1 := mod_set_flags (Z.land (mod_flags m) (Z.lnot B)) m).
    change (mod_vnd m) with (mod_vnd m1) at 1 2.
    change (mod_vnd m1) with (mod_vnd m).
    rewrite (pending_step m m1 S store_pending_mod_sub) by reflexivity.
    set (m2 := mod_set_flags (Z.land (mod_flags m1) (Z.lnot S)) m).
    rewrite (pending_step m m2 P store_pending_mod_pub) by reflexivity.
    cbn [m2 m1 mod_flags mod_set_flags].
    rewrite land_lnot_three.
    rewrite (land_lnot_other (mod_flags m) B S) by exact Hbs.
    rewrite (land_lnot_other (Z.land (mod_flags m) (Z.lnot B)) S P) by exact Hsp.
    rewrite (land_lnot_other (mod_flags m) B P) by exact Hbp.
    reflexivity.
Qed.

Lemma foreach_store_pending_mod_flags (todo : list bt_mesh_model) :
  mod_masks_disjoint ->
  forall st,
  fst (foreach_store_pending_mod todo st)
  = map (fun m => mod_set_flags (Z.land (mod_flags m) (Z.lnot mod_pending_mask)) m)
      todo.
Proof.
  intros Hd. induction todo as [| m r IH]; intros st;
    cbn [foreach_store_pending_mod map]; [reflexivity |].
  rewrite store_pending_mod_spec by exact Hd.
  match goal with
  | |- context [foreach_store_pending_mod r ?s] =>
      specialize (IH s); destruct (foreach_store_pending_mod r s)
  end.
  cbn [fst] in *. rewrite IH. reflexivity.
Qed.

(** X27.  The flush of a model.  With the three pending bits of a model
    being different bits, [store_pending_mod] writes the binding, the
    subscription and the publication record of the model, in this order,
    each exactly when its bit was set when the flush reached the model, and
    leaves the model with the three bits clear and nothing else changed (the
    data-present bit included).  After [store_pending_models] no model has a
    part marked. *)
Theorem X27_flush_model (m : bt_mesh_model) (st : mesh) :
  mod_masks_disjoint ->
  store_pending_mod m st
  = (mod_set_flags (Z.land (mod_flags m) (Z.lnot mod_pending_mask)) m,
     when_marked m (BT_MESH_MOD_PUB_PENDING cfg) store_pending_mod_pub
       (when_marked m (BT_MESH_MOD_SUB_PENDING cfg) store_pending_mod_sub
          (when_marked m (BT_MESH_MOD_BIND_PENDING cfg) store_pending_mod_bind st))) /\
  models (store_pending_models st)
  = map (fun x => mod_set_flags (Z.land (mod_flags x) (Z.lnot mod_pending_mask)) x)
      (models st) /\
  Forall (fun x => Z.land (mod_flags x) mod_pending_mask = 0)
    (models (store_pending_models st)).
Proof.
  intros Hd. split; [apply store_pending_mod_spec, Hd |].
  assert (E : models (store_pending_models st)
              = map (fun x => mod_set_flags
                                (Z.land (mod_flags x) (Z.lnot mod_pending_mask)) x)
                  (models st)).
  { unfold store_pending_models.
    pose proof (foreach_store_pending_mod_flags (models st) Hd st) as H.
    destruct (foreach_store_pending_mod (models st) st). exact H. }
  split; [exact E |]. rewrite E. apply Forall_forall. intros x Hx.
  apply list_elem_of_fmap in Hx as (y & -> & _). cbn [mod_flags mod_set_flags].
  apply land_lnot_mask.
Qed.

(** ** A disabled heartbeat publication *)

(** X28.  A heartbeat publication whose destination is unassigned is not
    deleted from the store: the flush writes a record of eight zero bytes
    under [HBPub].  The loader takes that record like any other, so the
    publication comes back with destination 0, count 0, period 0, ttl 0, no
    features and NetKey index 0, whatever index the publication had when it
    was stored (a zero-length record, in contrast, keeps the index). *)
Theorem X28_disabled_hb_pub_record (pub p0 : bt_mesh_hb_pub) (st0 st : mesh) :
  hb_pub st0 = Some pub -> hb_dst pub = BT_MESH_ADDR_UNASSIGNED cfg ->
  hb_pub st = Some p0 ->
  trace (store_pending_hb_pub st0) = trace st0 ++ [StoreUpdate "HBPub" 1 (zeros 8)] /\
  hb_pub_set_bin (zeros 8) st
  = (0, set_hb_pub (Some {| hb_dst := 0; hb_count := 0; hb_period := 0;
                            hb_ttl := 0; hb_feat := 0; hb_net_idx := 0 |}) st) /\
  hb_pub_set_bin [] st
  = (0, set_hb_pub (Some {| hb_dst := BT_MESH_ADDR_UNASSIGNED cfg; hb_count := 0;
                            hb_period := 0; hb_ttl := 0; hb_feat := 0;
                            hb_net_idx := hb_net_idx p0 |}) st).
Proof.
  intros Hpub Hdst Hst. split; [| split].
  - unfold store_pending_hb_pub. rewrite Hpub, Hdst, Z.eqb_refl, save_trace.
    reflexivity.
  - unfold hb_pub_set_bin. rewrite Hst. reflexivity.
  - unfold hb_pub_set_bin. rewrite Hst. reflexivity.
Qed.

(** ** The scan of the store and the role *)

Lemma same_control_refl (st : mesh) : same_control st st.
Proof. repeat split. Qed.

Lemma same_control_trans (a b c : mesh) :
  same_control a b -> same_control b c -> same_control a c.
Proof. intros (A1 & A2 & A3) (B1 & B2 & B3). repeat split; congruence. Qed.

Lemma same_control_scan (st st' : mesh) :
  same_control st st' -> scan_frame false false st st'.
Proof.
  intros (F & P & T). unfold scan_frame.
  rewrite !(test_bit_flags st' st) by exact F. rewrite !orb_false_r.
  repeat split; try assumption.
  - intros. apply test_bit_flags, F.
  - exists []. rewrite app_nil_r. split; [exact T | reflexivity].
Qed.

Lemma scan_frame_refl (st : mesh) : scan_frame false false st st.
Proof. apply same_control_scan, same_control_refl. Qed.

Lemma scan_frame_trans (n1 p1 n2 p2 : bool) (a b c : mesh) :
  scan_frame n1 p1 a b -> scan_frame n2 p2 b c ->
  scan_frame (n1 || n2) (p1 || p2) a c.
Proof.
  intros (A1 & A2 & A3 & A4 & e1 & T1 & F1) (B1 & B2 & B3 & B4 & e2 & T2 & F2).
  unfold scan_frame. repeat split.
  - rewrite B1, A1, orb_assoc. reflexivity.
  - rewrite B2, A2, orb_assoc. reflexivity.
  - intros f H1 H2 H3. rewrite B3, A3 by assumption. reflexivity.
  - congruence.
  - exists (e1 ++ e2). split; [rewrite T2, T1, app_assoc; reflexivity |].
    rewrite forallb_app, F1, F2. reflexivity.
Qed.

Lemma role_set_bin_scan (value : bytes) (st : mesh) :
  scan_frame (byte_at value 0 =? 1) (byte_at value 0 =? 2) st
    (snd (role_set_bin value st)).
Proof.
  unfold role_set_bin. cbv zeta.
  destruct (Z.eqb_spec (byte_at value 0) 1) as [E1 | N1].
  - rewrite E1. cbn [Z.eqb Pos.eqb snd]. unfold scan_frame.
    rewrite !test_set_bit. repeat case_decide; try congruence.
    rewrite orb_true_r, orb_false_r. repeat split.
    + intros f H1 _ _. rewrite test_set_bit. case_decide; congruence.
    + exists []. rewrite app_nil_r. split; reflexivity.
  - destruct (Z.eqb_spec (byte_at value 0) 2) as [E2 | N2]; cbn [snd].
    + unfold scan_frame.
      rewrite !test_set_bit. repeat case_decide; try congruence.
      rewrite orb_true_r, orb_false_r. repeat split.
      * intros f _ H2 _. rewrite test_set_bit. case_decide; congruence.
      * exists []. rewrite app_nil_r. split; reflexivity.
    + apply scan_frame_refl.
Qed.

Lemma iv_set_bin_scan (value : bytes) (st : mesh) :
  scan_frame false false st (snd (iv_set_bin value st)).
Proof.
  assert (H : forall b s, flags s = flags st -> pending_store s = pending_store st ->
                          trace s = trace st ->
                          scan_frame false false st
                            (atomic_set_bit_to BT_MESH_IVU_IN_PROGRESS b s)).
  { intros b s F P T. unfold scan_frame, atomic_set_bit_to.
    destruct b; rewrite ?test_set_bit, ?test_clear_bit;
      repeat case_decide; try congruence; rewrite !orb_false_r;
      (repeat split;
       [apply test_bit_flags, F | apply test_bit_flags, F
       | intros f _ _ H3; rewrite ?test_set_bit, ?test_clear_bit;
         case_decide; [congruence | apply test_bit_flags, F]
       | exact P
       | exists []; rewrite app_nil_r; split; [exact T | reflexivity]]). }
  unfold iv_set_bin. destruct (length value =? 0)%nat; cbn [snd].
  - apply (H false (set_iv_index 0 st)); reflexivity.
  - destruct (negb (length value =? 5)%nat); cbn [snd]; [apply scan_frame_refl |].
    cbv zeta.
    pose proof (H (negb (bits 0 1 (byte_at value 4) =? 0))
                  (set_iv_index (of_le (slice 0 4 value)) st)
                  eq_refl eq_refl eq_refl) as (A1 & A2 & A3 & A4 & A5).
    unfold scan_frame. repeat split; assumption.
Qed.

Section Scan.

Hypothesis Hext : ext_quiet.

Lemma net_set_bin_control (value : bytes) (st : mesh) :
  same_control st (snd (net_set_bin value st)).
Proof.
  destruct Hext as (H1 & H2 & _). unfold net_set_bin.
  destruct (length value =? 0)%nat; cbn [snd].
  - destruct (H2 st) as (A & B & C). repeat split; assumption.
  - destruct (negb (length value =? 18)%nat); cbn [snd]; [apply same_control_refl |].
    cbv zeta. eapply same_control_trans; [| apply H1]. repeat split.
Qed.

Lemma net_key_set_bin_control (key : string) (value : bytes) (st : mesh) :
  same_control st (snd (net_key_set_bin key value st)).
Proof.
  destruct Hext as (_ & _ & H3 & _). unfold net_key_set_bin. cbv zeta.
  destruct (length value =? 0)%nat.
  - destruct (bt_mesh_subnet_get ext _ _); cbn [snd];
      [apply H3 | apply same_control_refl].
  - destruct (negb (length value =? 33)%nat); cbn [snd]; [apply same_control_refl |].
    destruct (bt_mesh_subnet_get ext _ _); cbn [snd]; [repeat split |].
    destruct (find_index _ _); cbn [snd]; repeat split.
Qed.

Lemma app_key_set_bin_control (key : string) (value : bytes) (st : mesh) :
  same_control st (snd (app_key_set_bin key value st)).
Proof.
  destruct Hext as (_ & _ & _ & H4 & _). unfold app_key_set_bin. cbv zeta.
  destruct (length value =? 0)%nat.
  - destruct (bt_mesh_app_key_find ext _ _); cbn [snd];
      [apply H4 | apply same_control_refl].
  - destruct (negb (length value =? 35)%nat); cbn [snd]; [apply same_control_refl |].
    destruct (bt_mesh_app_key_find ext _ _); cbn [snd]; [repeat split |].
    destruct (bt_mesh_app_key_alloc ext _ _); cbn [snd]; repeat split.
Qed.

Lemma node_set_bin_control (key : string) (value : bytes) (st : mesh) :
  same_control st (snd (node_set_bin key value st)).
Proof.
  destruct Hext as (_ & _ & _ & _ & H5 & H6). unfold node_set_bin. cbv zeta.
  destruct (length value =? 0)%nat.
  - destruct (bt_mesh_node_find ext _ _); cbn [snd];
      [apply H6 | apply same_control_refl].
  - destruct (negb (length value =? 19)%nat); cbn [snd]; [apply same_control_refl |].
    destruct (bt_mesh_node_find ext _ _) as [i |]; cbn [snd]; [repeat split |].
    pose proof (H5 (u16 (strtol16 (string_drop 5 key))) (byte_at value 18)
                  (of_le (slice 0 2 value)) st) as Hs.
    destruct (bt_mesh_node_alloc ext _ _ _ st) as [[i |] s]; cbn [snd] in *;
      [| exact Hs].
    eapply same_control_trans; [exact Hs | repeat split].
Qed.

Lemma seq_set_bin_control (value : bytes) (st : mesh) :
  same_control st (snd (seq_set_bin value st)).
Proof.
  unfold seq_set_bin. destruct (length value =? 0)%nat; [repeat split |].
  destruct (negb _); [repeat split |]. cbv zeta.
  destruct (0 <? _); repeat split.
Qed.

Lemma rpl_set_bin_control (key : string) (value : bytes) (st : mesh) :
  same_control st (snd (rpl_set_bin key value st)).
Proof.
  unfold rpl_set_bin, rpl_alloc, rpl_find. cbv zeta.
  destruct (length value =? 0)%nat.
  - destruct (find_index _ _); repeat split.
  - destruct (find_index _ (rpl st)); [destruct (negb _); repeat split |].
    destruct (find_index _ (rpl st)); [destruct (negb _); repeat split |].
    repeat split.
Qed.

Lemma hb_pub_set_bin_control (value : bytes) (st : mesh) :
  same_control st (snd (hb_pub_set_bin value st)).
Proof.
  unfold hb_pub_set_bin. destruct (hb_pub st); [| repeat split].
  destruct (length value =? 0)%nat; [repeat split |].
  destruct (negb _); repeat split.
Qed.

Lemma cfg_set_bin_control (value : bytes) (st : mesh) :
  same_control st (snd (cfg_set_bin value st)).
Proof.
  unfold cfg_set_bin. destruct (cfg_srv st); [| repeat split].
  destruct (length value =? 0)%nat; [repeat split |].
  destruct (negb _); repeat split.
Qed.

Lemma va_set_bin_control (key : string) (value : bytes) (st : mesh) :
  same_control st (snd (va_set_bin key value st)).
Proof.
  unfold va_set_bin. cbv zeta.
  destruct (length value =? 0)%nat; [repeat split |].
  destruct (negb _); [repeat split |].
  destruct (_ =? 0); [repeat split |].
  destruct (get_label _ _); repeat split.
Qed.

Lemma on_model_control (i : nat) (f : bt_mesh_model -> Z * bt_mesh_model)
    (st : mesh) :
  same_control st (snd (on_model i f st)).
Proof.
  unfold on_model. destruct (models st !! i) as [m |]; [| repeat split].
  destruct (f m). repeat split.
Qed.

Lemma mod_set_bin_scan (vnd : bool) (key : string) (value : bytes) (st : mesh) :
  scan_frame false false st (snd (mod_set_bin vnd key value st)).
Proof.
  unfold mod_set_bin. cbv zeta.
  destruct (bt_mesh_model_get ext _ _ _ _) as [i |]; [| apply scan_frame_refl].
  destruct (contains "bind" key); [apply same_control_scan, on_model_control |].
  destruct (contains "sub" key); [apply same_control_scan, on_model_control |].
  destruct (contains "pub" key); [apply same_control_scan, on_model_control |].
  destruct (contains "data" key); [| apply scan_frame_refl].
  destruct (models st !! i) as [m |];
    [destruct (mod_cb_settings_set m) |]; cbn [snd];
    try (apply same_control_scan; repeat split; reflexivity).
  unfold scan_frame. rewrite !orb_false_r. repeat split.
  exists [ModSettingsSet i value]. split; reflexivity.
Qed.

Lemma dispatch_cases (P : Z * mesh -> Prop) (tbl : list (string * handler))
    (tmp key : string) (value : bytes) (st : mesh) :
  P (- ENOENT, st) ->
  Forall (fun nf => String.eqb (fst nf) tmp = true -> P (snd nf key value st)) tbl ->
  P (dispatch tbl tmp key value st).
Proof.
  intros Hno H. induction H as [| [n f] tbl Hf _ IH]; cbn [dispatch]; [exact Hno |].
  cbn [fst snd] in Hf. destruct (String.eqb n tmp); [apply Hf; reflexivity | exact IH].
Qed.

(** One record of the store: only a role record sets a role flag, and it
    sets the flag of the role its first byte names. *)
Lemma mesh_set_bin_scan (key : string) (value : bytes) (st : mesh) :
  scan_frame (String.eqb (chop_slash key) "Role" && (byte_at value 0 =? 1))
             (String.eqb (chop_slash key) "Role" && (byte_at value 0 =? 2))
             st (snd (mesh_set_bin key value st)).
Proof.
  destruct (String.eqb_spec (chop_slash key) "Role") as [E | N]; cbn [andb].
  - rewrite (dispatch_Role key value st E). apply role_set_bin_scan.
  - unfold mesh_set_bin.
    apply (dispatch_cases (fun r => scan_frame false false st (snd r)));
      [apply scan_frame_refl |].
    unfold settings.
    destruct (0 <? CONFIG_BT_MESH_LABEL_COUNT cfg), (CONFIG_BT_MESH_PROVISIONER cfg);
      cbn [app];
      repeat (apply List.Forall_cons; [cbn [fst snd]; intros Hn |]);
      try apply List.Forall_nil;
      try (apply String.eqb_eq in Hn; symmetry in Hn; contradiction);
      first [ apply iv_set_bin_scan | apply mod_set_bin_scan
            | apply same_control_scan;
              first [ apply net_set_bin_control | apply seq_set_bin_control
                    | apply rpl_set_bin_control | apply net_key_set_bin_control
                    | apply app_key_set_bin_control | apply hb_pub_set_bin_control
                    | apply cfg_set_bin_control | apply va_set_bin_control
                    | apply node_set_bin_control ] ].
Qed.

(** The whole scan: a role flag is set afterwards exactly when it was set
    before or the store holds a record of that role. *)
Lemma conf_load_scan (recs : list (string * bytes)) (last : Z) :
  forall st,
  scan_frame (role_stored true recs) (role_stored false recs) st
    (snd (conf_load recs last st)).
Proof.
  induction recs as [| [key value] r IH]; intros st; cbn [conf_load].
  - apply scan_frame_refl.
  - cbn [role_stored existsb fst snd role_byte].
    eapply scan_frame_trans; [apply mesh_set_bin_scan | apply IH].
Qed.

End Scan.

(** C7. The role flags are clear when the scan of the store starts, as they
    are at start-up, and the scan runs to the end of the store.  If the store
    holds no record of the requested role (it holds the other role, or none)
    [bt_mesh_settings_load] returns -2 with the state the scan left: the
    commit phase did not run, so since the call began no timer was armed or
    submitted and no call but model callbacks of the scan was made, the
    flush timer is as it was, the subnets hold what the scan restored, and
    the valid flag is as it was before the call.  If the store does hold a
    record of the requested role, the commit phase runs and 0 is
    returned. *)
Theorem C7_role_mismatch_no_activation
    (role_node : bool) (recs : list (string * bytes)) (st : mesh) :
  ext_quiet ->
  atomic_test_bit st BT_MESH_NODE = false ->
  atomic_test_bit st BT_MESH_PROVISIONER = false ->
  let loaded := snd (conf_load recs 0 st) in
  let r := bt_mesh_settings_load role_node recs 0 st in
  (role_stored role_node recs = false ->
   r = (-2, loaded) /\
   List.filter arms_timer (trace_since st (snd r)) = [] /\
   forallb is_model_callback (trace_since st (snd r)) = true /\
   pending_store (snd r) = pending_store st /\
   sub (snd r) = sub loaded /\
   atomic_test_bit (snd r) BT_MESH_VALID = atomic_test_bit st BT_MESH_VALID) /\
  (role_stored role_node recs = true ->
   r = (0, snd (mesh_commit loaded))).
Proof.
  intros Hext Hn Hp loaded r.
  pose proof (conf_load_scan Hext recs 0 st) as (A1 & A2 & A3 & A4 & evs & T & F).
  fold loaded in A1, A2, A3, A4, T. rewrite Hn in A1. rewrite Hp in A2.
  cbn [orb] in A1, A2.
  assert (Hr : r = if role_stored role_node recs
                   then (0, snd (mesh_commit loaded)) else (-2, loaded)).
  { subst r loaded. unfold bt_mesh_settings_load.
    pose proof (conf_load_code recs 0 st) as Hc.
    destruct (conf_load recs 0 st) as [err s]. cbn [fst snd] in *. subst err.
    cbn [Z.eqb]. rewrite A1, A2.
    destruct role_node; cbn [negb]; rewrite ?andb_true_r, ?andb_false_r, ?orb_false_r;
      cbn [orb]; destruct (role_stored _ recs); reflexivity. }
  split; intros Hrole; rewrite Hrole in Hr; [| exact Hr].
  rewrite Hr. cbn [snd]. unfold trace_since. rewrite T, drop_app_length.
  repeat split; try assumption.
  - clear T. induction evs as [| e evs IH]; [reflexivity |].
    cbn [forallb] in F. apply andb_true_iff in F as [Fe Fr].
    cbn [List.filter]. destruct e; try discriminate Fe. cbn [arms_timer].
    exact (IH Fr).
  - apply A3; discriminate.
Qed.

(** ** Records read back from their encoding *)

Lemma net_round_trip (src st : mesh) :
  net_valid src ->
  net_set_bin (net_val_bytes src) st
  = (0, bt_mesh_comp_provision ext (dev_primary_addr src)
          (set_dev_key (dev_key src) st)).
Proof.
  intros (Ha & Hk). unfold net_set_bin, net_val_bytes.
  rewrite length_app, length_to_le, length_fit. cbn [Nat.add Nat.eqb negb].
  rewrite to_le_2, fit_exact by exact Hk. unfold slice. cbn [app drop take].
  rewrite take_0, drop_0, u16_le_bytes by exact Ha.
  rewrite take_ge by lia. reflexivity.
Qed.

Lemma app_key_round_trip (a : bt_mesh_app_key) (key : string) (st : mesh) :
  app_key_valid a ->
  let idx := u16 (strtol16 (string_drop 7 key)) in
  app_key_set_bin key (app_key_val_bytes a) st
  = match match bt_mesh_app_key_find ext idx (app_keys st) with
          | Some i => Some i
          | None => bt_mesh_app_key_alloc ext idx (app_keys st)
          end with
    | Some i =>
        (0, set_app_keys
              (<[i := app_key_restore (ak_net_idx a) idx (ak_updated a)
                        (ak_val0 a) (ak_val1 a)]> (app_keys st)) st)
    | None => (- ENOMEM, st)
    end.
Proof.
  intros (Hn & Hu & H0 & H1) idx. subst idx.
  assert (Hlen : length (app_key_val_bytes a) = 35%nat).
  { unfold app_key_val_bytes. rewrite !length_app, length_to_le, !length_fit.
    reflexivity. }
  unfold app_key_set_bin. rewrite Hlen. cbn [Nat.eqb negb].
  unfold app_key_val_bytes. rewrite to_le_2, !fit_exact by assumption.
  cbn [app byte_at nth]. unfold slice. cbn [drop take].
  rewrite u16_le_bytes by exact Hn.
  unfold u8. rewrite (Z.mod_small (ak_updated a)) by exact Hu.
  rewrite drop_0, take_app_length', drop_app_length' by (symmetry; assumption).
  rewrite take_ge by lia. reflexivity.
Qed.

Lemma node_round_trip (n : bt_mesh_node) (key : string) (st : mesh) :
  node_valid n ->
  let addr := u16 (strtol16 (string_drop 5 key)) in
  node_set_bin key (node_val_bytes n) st
  = let '(node, st1) :=
      match bt_mesh_node_find ext addr (nodes st) with
      | Some i => (Some i, st)
      | None => bt_mesh_node_alloc ext addr (node_num_elem n) (node_net_idx n) st
      end in
    match node with
    | Some i =>
        (0, set_nodes (alter (node_set_dev_key (node_dev_key n)) i (nodes st1)) st1)
    | None => (- ENOMEM, st1)
    end.
Proof.
  intros (Hn & He & Hk) addr. subst addr. unfold node_set_bin.
  rewrite length_node_val_bytes. cbn [Nat.eqb negb].
  unfold node_val_bytes. rewrite to_le_2, fit_exact by assumption.
  unfold byte_at, slice. cbn [app drop take].
  rewrite u16_le_bytes by exact Hn.
  rewrite drop_0, take_app_length' by (symmetry; assumption).
  replace (nth 18 (node_net_idx n mod 256 :: (node_net_idx n / 256) mod 256
                     :: node_dev_key n ++ [u8 (node_num_elem n)]) 0)
    with (node_num_elem n); [reflexivity |].
  cbn [nth]. rewrite app_nth2 by lia. rewrite Hk. cbn.
  unfold u8. symmetry. apply Z.mod_small. exact He.
Qed.

Lemma role_record_round_trip (src st : mesh) :
  atomic_test_bit src BT_MESH_PROVISIONER || atomic_test_bit src BT_MESH_NODE = true ->
  trace (store_pending_role src)
  = trace src ++ [StoreUpdate "Role" 1 (role_val_bytes src)] /\
  role_set_bin (role_val_bytes src) st = (0, atomic_set_bit (role_flag src) st).
Proof.
  unfold store_pending_role, role_val_bytes, role_flag, role_set_bin.
  destruct (atomic_test_bit src BT_MESH_PROVISIONER); cbn [orb].
  - intros _. split; [apply save_trace | reflexivity].
  - intros ->. split; [apply save_trace | reflexivity].
Qed.

Lemma mod_bind_round_trip (m m0 : bt_mesh_model) (vnd : bool) (src : mesh) :
  Forall (fun k => 0 <= k < 65536) (mod_keys m) ->
  0 <= BT_MESH_KEY_UNUSED cfg < 65536 ->
  length (mod_keys m0) = length (mod_keys m) ->
  exists keep payload,
    trace (store_pending_mod_bind m vnd src)
    = trace src ++ [StoreUpdate (encode_mod_path m vnd "bind") keep payload] /\
    mod_set_bind_bin payload m0
    = (0, mod_set_keys (compacted (BT_MESH_KEY_UNUSED cfg) (mod_keys m)) m0).
Proof.
  intros Hk Hu Lk. unfold compacted. cbv zeta.
  set (keys := filter (fun k => k <> BT_MESH_KEY_UNUSED cfg) (mod_keys m)).
  assert (Hkeys : Forall (fun k => 0 <= k < 65536) keys)
    by (apply Forall_filter_keep; exact Hk).
  assert (Lkeys : (length keys <= length (mod_keys m))%nat) by apply length_filter.
  exists (if 0 <? Z.of_nat (length keys) * 2 then 1 else 0), (u16s_to_bytes keys).
  split.
  - unfold store_pending_mod_bind. rewrite save_trace. fold keys.
    rewrite take_ge by (rewrite u16s_bytes_length; lia). reflexivity.
  - unfold mod_set_bind_bin. rewrite Lk, u16s_bytes_length.
    destruct (Nat.eqb_spec (2 * length keys) 0) as [E0 | NE0].
    + assert (Enil : keys = []) by (apply nil_length_inv; lia).
      rewrite Enil. cbn [length app]. rewrite Nat.sub_0_r. reflexivity.
    + rewrite (proj2 (Nat.leb_le _ _)) by lia.
      rewrite decode_u16s by assumption. reflexivity.
Qed.

Lemma mod_sub_round_trip (m m0 : bt_mesh_model) (vnd : bool) (src : mesh) :
  Forall (fun g => 0 <= g < 65536) (mod_groups m) ->
  BT_MESH_ADDR_UNASSIGNED cfg = 0 ->
  length (mod_groups m0) = length (mod_groups m) ->
  exists keep payload,
    trace (store_pending_mod_sub m vnd src)
    = trace src ++ [StoreUpdate (encode_mod_path m vnd "sub") keep payload] /\
    mod_set_sub_bin payload m0
    = (0, mod_set_groups (compacted 0 (mod_groups m)) m0).
Proof.
  intros Hg Hz Lg. unfold compacted, store_pending_mod_sub. cbv zeta. rewrite Hz.
  set (groups := filter (fun g => g <> 0) (mod_groups m)).
  assert (Hgroups : Forall (fun k => 0 <= k < 65536) groups)
    by (apply Forall_filter_keep; exact Hg).
  assert (Lgroups : (length groups <= length (mod_groups m))%nat)
    by apply length_filter.
  set (n := length (mod_groups m)) in *.
  set (padded := take n (groups ++ replicate n 0)).
  assert (Epad : padded = groups ++ replicate (n - length groups) 0).
  { unfold padded. rewrite take_app_ge by exact Lgroups.
    rewrite take_replicate. f_equal. f_equal. lia. }
  assert (Lpad : length padded = n).
  { rewrite Epad, length_app, length_replicate. lia. }
  exists (if 0 <? Z.of_nat n * 2 then 1 else 0), (u16s_to_bytes padded). split.
  - rewrite save_trace. fold padded.
    rewrite take_ge by (rewrite u16s_bytes_length; lia). reflexivity.
  - unfold mod_set_sub_bin. rewrite Lg. fold n. rewrite u16s_bytes_length, Lpad.
    destruct (Nat.eqb_spec (2 * n) 0) as [E0 | NE0].
    + assert (Enil : groups = []) by (apply nil_length_inv; lia).
      rewrite Enil. cbn [length app]. rewrite Nat.sub_0_r. reflexivity.
    + rewrite Nat.leb_refl. rewrite decode_u16s; [| | lia | lia].
      * rewrite Lpad, Nat.sub_diag, app_nil_r, Epad. reflexivity.
      * rewrite Epad. apply Forall_app. split; [exact Hgroups |].
        apply Forall_replicate. lia.
Qed.

Lemma mod_pub_round_trip (junk : Z) (p p0 : bt_mesh_model_pub)
    (m m0 : bt_mesh_model) (vnd : bool) (src : mesh) :
  mod_pub_valid p -> mod_pub m = Some p -> mod_pub m0 = Some p0 ->
  trace (store_pending_mod_pub m vnd src)
  = trace src ++ [StoreUpdate (encode_mod_path m vnd "pub") 1
                    (mod_pub_val_bytes (stack_junk ext (trace src)) p)] /\
  mod_set_pub_bin (mod_pub_val_bytes junk p) m0
  = (0, mod_set_pub (Some (mod_pub_restored p p0)) m0).
Proof.
  intros (Hne & Ha & Hk & Ht & Hr & Hp & Hd & Hc) Hm Hm0. unfold is_byte in *.
  assert (Hlen : forall j, length (mod_pub_val_bytes j p) = 8%nat).
  { intros j. unfold mod_pub_val_bytes. rewrite !length_app, !length_to_le.
    reflexivity. }
  split.
  - unfold store_pending_mod_pub. rewrite Hm.
    apply Z.eqb_neq in Hne. rewrite Hne, save_trace. cbn [Z.ltb Z.compare].
    rewrite take_ge by (rewrite Hlen; cbn; lia). reflexivity.
  - unfold mod_set_pub_bin. rewrite Hm0, Hlen. cbn [Nat.eqb negb].
    pose proof (pub_unit_fields (pub_period_div p) (pub_cred p) junk Hd Hc) as Hu.
    cbv zeta in Hu. unfold mod_pub_val_bytes. rewrite !to_le_2.
    set (unit := Z.lor _ _) in *.
    unfold slice, byte_at. cbn [app drop take nth].
    rewrite !u16_le_bytes by assumption. rewrite Hu.
    unfold mod_pub_restored, u8. rewrite !Z.mod_small by assumption. reflexivity.
Qed.

Lemma mod_path_no_pub (m : bt_mesh_model) (vnd : bool) (part : string) :
  occurs "p" part = false ->
  contains "pub" (encode_mod_path m vnd part) = false.
Proof.
  intros Hp. destruct (contains "pub" _) eqn:E; [| reflexivity].
  apply (contains_occurs "p") in E; [| reflexivity].
  rewrite mod_path_occurs in E by (apply not_hex_digit; reflexivity).
  cbn [occurs] in E. rewrite Hp in E. destruct vnd; discriminate.
Qed.

(** The data of a model: the bytes written are the bytes its callback is
    handed when the record is read. *)
Lemma mod_data_round_trip (m m0 : bt_mesh_model) (vnd : bool) (data : bytes)
    (i j : nat) (src st : mesh) :
  is_byte (mod_elem_idx m) -> is_byte (mod_idx m) -> data <> [] ->
  models src !! i = Some m ->
  bt_mesh_model_get ext vnd (mod_elem_idx m) (mod_idx m) (models st) = Some j ->
  models st !! j = Some m0 -> mod_cb_settings_set m0 = true ->
  trace (snd (bt_mesh_model_data_store i vnd data src))
  = trace src ++ [StoreUpdate (encode_mod_path m vnd "data") 1 data] /\
  trace (snd (mod_set_bin vnd (encode_mod_path m vnd "data") data st))
  = trace st ++ [ModSettingsSet j data].
Proof.
  intros He Hi Hd Hsrc Hget Hst Hcb. split.
  - rewrite (data_store_write i vnd data m src Hsrc Hd). cbn [snd].
    rewrite save_trace. cbn [trace set_models].
    destruct data as [| b data]; [contradiction |].
    rewrite Nat2Z.id, take_ge by lia. reflexivity.
  - unfold mod_set_bin.
    destruct (mod_path_parse m vnd "data" He Hi) as [-> ->].
    rewrite Hget, mod_path_no_bind, mod_path_no_sub, mod_path_no_pub by reflexivity.
    rewrite mod_path_contains_self, Hst, Hcb. reflexivity.
Qed.


(** ** Store then clear of a key, through the flush *)

Lemma clear_rpl_loop_keys (todo : list bt_mesh_rpl) :
  forall st, key_updates (snd (clear_rpl_loop todo st)) = key_updates st.
Proof.
  induction todo as [| e r IH]; intros st; cbn [clear_rpl_loop snd]; [reflexivity |].
  destruct (rpl_src e =? 0); loop_step IH; [exact IH | rewrite IH; reflexivity].
Qed.

Lemma store_pending_rpl_loop_keys (todo : list bt_mesh_rpl) :
  forall st, key_updates (snd (store_pending_rpl_loop todo st)) = key_updates st.
Proof.
  induction todo as [| e r IH]; intros st; cbn [store_pending_rpl_loop snd];
    [reflexivity |].
  destruct (rpl_store e); loop_step IH; [rewrite IH; reflexivity | exact IH].
Qed.

Lemma rpl_body_keys : keeps_key_table (store_or_clear store_pending_rpl clear_rpl).
Proof.
  intros st. unfold store_or_clear, store_pending_rpl, clear_rpl.
  destruct (atomic_test_bit st BT_MESH_VALID).
  - pose proof (store_pending_rpl_loop_keys (rpl st) st) as H.
    destruct (store_pending_rpl_loop (rpl st) st). exact H.
  - pose proof (clear_rpl_loop_keys (rpl st) st) as H.
    destruct (clear_rpl_loop (rpl st) st). exact H.
Qed.

Lemma net_body_keys : keeps_key_table (store_or_clear store_pending_net clear_net).
Proof. intros st. unfold store_or_clear. destruct (atomic_test_bit _ _); reflexivity. Qed.

Lemma iv_body_keys : keeps_key_table (store_or_clear store_pending_iv clear_iv).
Proof. intros st. unfold store_or_clear. destruct (atomic_test_bit _ _); reflexivity. Qed.

Lemma seq_body_keys : keeps_key_table store_pending_seq.
Proof. intros st. reflexivity. Qed.

Lemma hb_pub_body_keys : keeps_key_table store_pending_hb_pub.
Proof.
  intros st. unfold store_pending_hb_pub.
  destruct (hb_pub st) as [p |]; [destruct (hb_dst p =? _) |]; reflexivity.
Qed.

Lemma cfg_body_keys : keeps_key_table (store_or_clear store_pending_cfg clear_cfg).
Proof.
  intros st. unfold store_or_clear, store_pending_cfg.
  destruct (atomic_test_bit _ _); [destruct (cfg_srv st) |]; reflexivity.
Qed.

Lemma role_body_keys : keeps_key_table store_pending_role.
Proof.
  intros st. unfold store_pending_role.
  repeat (destruct (atomic_test_bit _ _)); reflexivity.
Qed.

Lemma store_pending_mod_keys (m : bt_mesh_model) (st : mesh) :
  key_updates (snd (store_pending_mod m st)) = key_updates st.
Proof.
  unfold store_pending_mod.
  destruct (mod_flags m =? 0); [reflexivity |].
  repeat match goal with
         | |- context [if ?b then _ else _] => destruct b; cbn [snd fst negb]
         end; reflexivity.
Qed.

Lemma models_body_keys : keeps_key_table store_pending_models.
Proof.
  intros st. unfold store_pending_models.
  assert (H : forall todo s,
             key_updates (snd (foreach_store_pending_mod todo s)) = key_updates s).
  { induction todo as [| m r IH]; intros s; cbn [foreach_store_pending_mod snd];
      [reflexivity |].
    pose proof (store_pending_mod_keys m s) as Hm.
    destruct (store_pending_mod m s) as [m' s1]. cbn [snd] in Hm.
    loop_step IH. congruence. }
  specialize (H (models st) st).
  destruct (foreach_store_pending_mod (models st) st). exact H.
Qed.

Lemma va_body_keys : keeps_key_table store_pending_va.
Proof.
  intros st. unfold store_pending_va.
  assert (H : forall todo i s,
             key_updates (snd (store_pending_va_loop i todo s)) = key_updates s).
  { induction todo as [| l r IH]; intros i s; cbn [store_pending_va_loop snd];
      [reflexivity |].
    destruct (lab_changed l); cbn [negb]; loop_step IH; [| exact IH].
    rewrite IH. destruct (lab_ref l =? 0); reflexivity. }
  specialize (H (labels st) 0%nat st).
  destruct (store_pending_va_loop 0 (labels st) st). exact H.
Qed.

Lemma nodes_body_keys : keeps_key_table store_pending_nodes.
Proof.
  intros st. unfold store_pending_nodes.
  assert (H : forall todo s,
             key_updates (snd (store_pending_nodes_loop todo s)) = key_updates s).
  { induction todo as [| u r IH]; intros s; cbn [store_pending_nodes_loop snd];
      [reflexivity |].
    destruct (nu_addr u =? BT_MESH_ADDR_UNASSIGNED cfg); loop_step IH; [exact IH |].
    rewrite IH.
    repeat match goal with
           | |- context [if ?b then _ else _] => destruct b
           | |- context [match ?o with Some _ => _ | None => _ end] => destruct o
           end; reflexivity. }
  specialize (H (node_updates st) st).
  destruct (store_pending_nodes_loop (node_updates st) st). exact H.
Qed.

Lemma when_pending_keys (f : mesh_flag) (body : mesh -> mesh) (st : mesh) :
  keeps_key_table body -> key_updates (when_pending f body st) = key_updates st.
Proof.
  intros H. unfold when_pending, atomic_test_and_clear_bit.
  destruct (atomic_test_bit st f); [rewrite H |]; reflexivity.
Qed.

Lemma run_blocks_keys (bs : list (mesh_flag * (mesh -> mesh) * list string)) :
  Forall (fun b => keeps_key_table (snd (fst b))) bs ->
  forall st, key_updates (run_blocks bs st) = key_updates st.
Proof.
  induction 1 as [| [[f body] qs] bs Hb _ IH]; intros st; [reflexivity |].
  change (run_blocks ((f, body, qs) :: bs) st)
    with (run_blocks bs (when_pending f body st)).
  rewrite IH. apply when_pending_keys, Hb.
Qed.

(** The blocks of the flush after the key block leave the key table
    alone. *)
Lemma late_blocks_keys :
  Forall (fun b => keeps_key_table (snd (fst b))) (drop 2 store_blocks).
Proof.
  unfold store_blocks. destruct (CONFIG_BT_MESH_PROVISIONER cfg);
    cbn [skipn app];
    repeat (apply List.Forall_cons;
            [cbn [fst snd];
             first [ apply net_body_keys | apply iv_body_keys | apply seq_body_keys
                   | apply hb_pub_body_keys | apply cfg_body_keys
                   | apply models_body_keys | apply va_body_keys
                   | apply role_body_keys | apply nodes_body_keys ] |]);
    apply List.Forall_nil.
Qed.

Lemma store_pending_split (st : mesh) :
  store_pending st
  = run_blocks (drop 2 store_blocks)
      (when_pending BT_MESH_KEYS_PENDING store_pending_keys
         (when_pending BT_MESH_RPL_PENDING
            (store_or_clear store_pending_rpl clear_rpl) st)).
Proof.
  unfold store_pending, store_blocks, run_blocks.
  destruct (CONFIG_BT_MESH_PROVISIONER cfg); reflexivity.
Qed.

(** The network record goes to the key [Net], which is the key of no NetKey
    or AppKey record although it is a prefix of one. *)
Lemma net_block_no_key_write (app : bool) (idx : Z) (st : mesh) :
  exists evs,
    trace (when_pending BT_MESH_NET_PENDING
             (store_or_clear store_pending_net clear_net) st) = trace st ++ evs /\
    List.filter (writes_to (key_path app idx)) evs = [].
Proof.
  unfold when_pending, atomic_test_and_clear_bit, store_or_clear,
    store_pending_net, clear_net.
  destruct (atomic_test_bit st BT_MESH_NET_PENDING).
  - destruct (atomic_test_bit _ BT_MESH_VALID); eexists;
      (split; [rewrite save_trace; reflexivity |]);
      unfold key_path; destruct app; reflexivity.
  - exists []. rewrite app_nil_r. split; reflexivity.
Qed.

(** The blocks after the network block send nothing to the key of a NetKey
    or AppKey record. *)
Lemma last_blocks_quiet (app : bool) (idx : Z) :
  Forall (quiet_block (key_path app idx)) (drop 3 store_blocks).
Proof. unfold key_path. destruct app; quiet_blocks. Qed.

Lemma late_blocks_no_key_write (app : bool) (idx : Z) (st : mesh) :
  exists evs,
    trace (run_blocks (drop 2 store_blocks) st) = trace st ++ evs /\
    List.filter (writes_to (key_path app idx)) evs = [].
Proof.
  assert (E : run_blocks (drop 2 store_blocks) st
              = run_blocks (drop 3 store_blocks)
                  (when_pending BT_MESH_NET_PENDING
                     (store_or_clear store_pending_net clear_net) st)).
  { unfold store_blocks, run_blocks.
    destruct (CONFIG_BT_MESH_PROVISIONER cfg); reflexivity. }
  rewrite E.
  destruct (net_block_no_key_write app idx st) as (e1 & T1 & F1).
  destruct (run_blocks_quiet _ _ (last_blocks_quiet app idx)
              (when_pending BT_MESH_NET_PENDING
                 (store_or_clear store_pending_net clear_net) st))
    as (_ & _ & _ & _ & _ & _ & e2 & T2 & F2).
  exists (e1 ++ e2). split; [rewrite T2, T1, app_assoc; reflexivity |].
  rewrite List.filter_app, F1, F2. reflexivity.
Qed.

(** The flush of a state whose keys are pending and whose table holds one
    entry for the key, a clear: one zero-length write to the key and no
    other, no entry left valid, the keys no longer pending. *)
Lemma flush_clear_entry (app : bool) (idx : Z) (st : mesh) :
  lookup_by_index_ok -> 0 <= idx < 4096 ->
  Forall ku_wf (key_updates st) ->
  List.filter (ku_matches app idx) (key_updates st) = [ku_entry app idx true] ->
  atomic_test_bit st BT_MESH_KEYS_PENDING = true ->
  List.filter (writes_to (key_path app idx)) (trace_since st (store_pending st))
  = [StoreUpdate (key_path app idx) 0 []] /\
  Forall (fun u => ku_valid u = false) (key_updates (store_pending st)) /\
  atomic_test_bit (store_pending st) BT_MESH_KEYS_PENDING = false.
Proof.
  intros Hext Hidx Hwf Hf Hbit.
  set (P := key_path app idx).
  set (rpl_body := store_or_clear store_pending_rpl clear_rpl).
  set (stA := when_pending BT_MESH_RPL_PENDING rpl_body st).
  assert (HA : quiet P [BT_MESH_RPL_PENDING] st stA).
  { apply (when_pending_quiet P (BT_MESH_RPL_PENDING, rpl_body, ["RPL/"%string])).
    split; [apply rpl_body_ok |]. unfold P, key_path. destruct app; reflexivity. }
  destruct HA as (_ & _ & _ & _ & _ & HAbits & eA & TA & FA).
  assert (KA : key_updates stA = key_updates st)
    by apply when_pending_keys, rpl_body_keys.
  assert (BA : atomic_test_bit stA BT_MESH_KEYS_PENDING = true).
  { rewrite HAbits; [exact Hbit |]. rewrite elem_of_cons, elem_of_nil.
    intuition discriminate. }
  set (stB := when_pending BT_MESH_KEYS_PENDING store_pending_keys stA).
  assert (Hclr : Forall (fun u => ku_matches app idx u = true -> ku_clear u = true)
                   (key_updates st)).
  { apply Forall_forall. intros u Hin Hu.
    assert (Hi : In u (List.filter (ku_matches app idx) (key_updates st)))
      by (apply List.filter_In; split; [apply list_elem_of_In |]; assumption).
    rewrite Hf in Hi. destruct Hi as [<- | []]. reflexivity. }
  destruct (store_pending_keys_loop_events app idx (key_updates st)
              Hext Hidx Hwf Hclr (atomic_clear_bit BT_MESH_KEYS_PENDING stA))
    as (eB & TB & FB & IB).
  assert (EB : stB = store_pending_keys (atomic_clear_bit BT_MESH_KEYS_PENDING stA)).
  { unfold stB, when_pending, atomic_test_and_clear_bit. rewrite BA. reflexivity. }
  assert (TB' : trace stB = trace stA ++ eB /\
                Forall (fun u => ku_valid u = false) (key_updates stB)).
  { rewrite EB. unfold store_pending_keys.
    change (key_updates (atomic_clear_bit BT_MESH_KEYS_PENDING stA))
      with (key_updates stA). rewrite KA.
    destruct (store_pending_keys_loop (key_updates st)
                (atomic_clear_bit BT_MESH_KEYS_PENDING stA)) as [l s'].
    cbn [fst snd] in *. split; [exact TB | exact IB]. }
  destruct TB' as [TB' IB'].
  rewrite Hf in FB. cbn [length replicate] in FB.
  assert (Hbits : atomic_test_bit (store_pending st) BT_MESH_KEYS_PENDING = false).
  { rewrite store_pending_as_blocks, (run_blocks_bits _ store_blocks_ok).
    apply decide_True. unfold store_blocks. cbn [Datatypes.app map fst snd].
    rewrite !elem_of_cons. auto. }
  split; [| split; [| exact Hbits]]; clear Hbits;
    rewrite store_pending_split; fold rpl_body stA stB.
  - destruct (late_blocks_no_key_write app idx stB) as (eC & TC & FC).
    fold P in FC, FB, FA.
    unfold trace_since. rewrite TC, TB', TA, <- !app_assoc, drop_app_length.
    rewrite !List.filter_app, FA, FB, FC. reflexivity.
  - rewrite (run_blocks_keys _ late_blocks_keys). exact IB'.
Qed.

(** An intent that finds an entry for the key or a free slot changes the
    table and marks the keys. *)
Lemma key_intent_scheduled (app : bool) (idx : Z) (c : bool)
    (direct : mesh -> mesh) (st : mesh) :
  key_update_find app idx st <> (None, None) ->
  exists tbl,
    key_intent app idx c direct st
    = schedule_store BT_MESH_KEYS_PENDING (set_key_updates tbl st).
Proof.
  intros Hroom. unfold key_intent.
  destruct (key_update_find app idx st) as [[k |] [j |]]; eauto. contradiction.
Qed.

Lemma schedule_store_positive (f : mesh_flag) (st : mesh) :
  0 <= pending_store st ->
  0 < K_SECONDS cfg (CONFIG_BT_MESH_RPL_STORE_TIMEOUT cfg) ->
  0 < K_SECONDS cfg (CONFIG_BT_MESH_STORE_TIMEOUT cfg) ->
  0 < pending_store (schedule_store f st).
Proof.
  intros H0 Hr Hs.
  assert (Ht : 0 < store_timeout (atomic_set_bit f st))
    by (destruct (store_timeout_values (atomic_set_bit f st)) as [E | [E | E]];
        rewrite E; lia).
  destruct (schedule_store_timer f st H0 Ht) as [[H _] | [H _]]; lia.
Qed.

(** What a scheduled intent does besides the table: no write to the store,
    the keys pending, the flush timer running. *)
Lemma key_intent_marks (app : bool) (idx : Z) (c : bool)
    (direct : mesh -> mesh) (st : mesh) :
  key_update_find app idx st <> (None, None) ->
  let st' := key_intent app idx c direct st in
  (exists evs, trace st' = trace st ++ evs /\ List.filter is_store_update evs = []) /\
  atomic_test_bit st' BT_MESH_KEYS_PENDING = true /\
  (0 <= pending_store st ->
   0 < K_SECONDS cfg (CONFIG_BT_MESH_RPL_STORE_TIMEOUT cfg) ->
   0 < K_SECONDS cfg (CONFIG_BT_MESH_STORE_TIMEOUT cfg) ->
   0 < pending_store st').
Proof.
  intros Hroom. cbv zeta.
  destruct (key_intent_scheduled app idx c direct st Hroom) as (tbl & ->).
  split; [| split].
  - destruct (schedule_store_frame BT_MESH_KEYS_PENDING (set_key_updates tbl st))
      as (_ & _ & _ & _ & H). exact H.
  - rewrite (test_bit_flags _ _ _ (schedule_store_flags _ _)), test_set_bit.
    apply decide_True. reflexivity.
  - intros H0 Hr Hs. apply schedule_store_positive; assumption.
Qed.

(** C4. A store intent for a key followed, before the flush runs, by a clear
    intent for the same key.  When the table holds an entry for the key or a
    free slot (for a 12-bit key index, a table with at most one valid entry
    per key and key lookups that return the key asked for): the two intents
    write nothing to the store, leave the keys marked pending and the flush
    timer running, and leave one valid entry for the key, with the clear
    flag set; the deferred flush [store_pending] then sends exactly one
    write to the store key of the key, the zero-length clear, leaves no
    entry valid and the keys no longer pending.  When the table holds
    neither, nothing is coalesced: the store intent writes the record and
    the clear intent clears it, both at once, and table, flags and timer are
    as before. *)
Theorem C4_store_then_clear_coalesces (r : key_ref) (st : mesh) :
  let app := key_ref_app r in
  let idx := key_ref_idx r in
  let path := key_path app idx in
  let st2 := clear_key r (store_key r st) in
  (lookup_by_index_ok ->
   0 <= idx < 4096 ->
   Forall ku_wf (key_updates st) ->
   (length (List.filter (ku_matches app idx) (key_updates st)) <= 1)%nat ->
   key_update_find app idx st <> (None, None) ->
   List.filter is_store_update (trace_since st st2) = [] /\
   atomic_test_bit st2 BT_MESH_KEYS_PENDING = true /\
   (0 <= pending_store st ->
    0 < K_SECONDS cfg (CONFIG_BT_MESH_RPL_STORE_TIMEOUT cfg) ->
    0 < K_SECONDS cfg (CONFIG_BT_MESH_STORE_TIMEOUT cfg) ->
    0 < pending_store st2) /\
   List.filter (ku_matches app idx) (key_updates st2) = [ku_entry app idx true] /\
   List.filter (writes_to path) (trace_since st2 (store_pending st2))
   = [StoreUpdate path 0 []] /\
   Forall (fun u => ku_valid u = false) (key_updates (store_pending st2)) /\
   atomic_test_bit (store_pending st2) BT_MESH_KEYS_PENDING = false) /\
  (key_update_find app idx st = (None, None) ->
   trace st2 = trace st ++ [StoreUpdate path 1 (key_ref_val_bytes r);
                            StoreUpdate path 0 []] /\
   key_updates st2 = key_updates st /\ flags st2 = flags st /\
   pending_store st2 = pending_store st).
Proof.
  intros app idx path st2. split.
  - intros Hext Hidx Hwf Hlen Hroom.
    assert (Hst2 : exists d1 d2,
               st2 = key_intent app idx true d2 (key_intent app idx false d1 st)).
    { subst st2 app idx. destruct r; cbn; eauto. }
    destruct Hst2 as (d1 & d2 & Hst2).
    destruct (key_intent_coalesces app idx false d1 st Hidx Hwf Hlen Hroom)
      as [Hf1 Hwf1].
    destruct (key_intent_marks app idx false d1 st Hroom)
      as ((e1 & T1 & F1) & _ & P1).
    set (st1 := key_intent app idx false d1 st) in *.
    assert (Hroom1 : key_update_find app idx st1 <> (None, None)).
    { apply (key_find_room app idx st1 (ku_entry app idx false)).
      - apply list_elem_of_In. eapply proj1. apply List.filter_In.
        rewrite Hf1. left. reflexivity.
      - apply ku_matches_entry. }
    destruct (key_intent_coalesces app idx true d2 st1 Hidx Hwf1
                ltac:(rewrite Hf1; cbn; lia) Hroom1) as [Hf2 Hwf2].
    destruct (key_intent_marks app idx true d2 st1 Hroom1)
      as ((e2 & T2 & F2) & B2 & P2).
    rewrite <- Hst2 in Hf2, Hwf2, T2, B2, P2.
    destruct (flush_clear_entry app idx st2 Hext Hidx Hwf2 Hf2 B2) as (W & I & B).
    repeat split; try assumption.
    + unfold trace_since. rewrite T2, T1, <- app_assoc, drop_app_length.
      rewrite List.filter_app, F1, F2. reflexivity.
    + intros H0 Hr Hs. apply P2; try assumption.
      specialize (P1 H0 Hr Hs). lia.
  - intros Hfull. subst st2 path app idx.
    destruct r as [s | a]; cbn [key_ref_app key_ref_idx store_key clear_key
                                key_ref_val_bytes] in *;
      unfold bt_mesh_store_subnet, bt_mesh_store_app_key, bt_mesh_clear_subnet,
        bt_mesh_clear_app_key, key_intent; rewrite Hfull.
    + assert (E : key_update_find false (net_idx s) (store_net_key s st) = (None, None))
        by exact Hfull.
      rewrite E. unfold clear_net_key, store_net_key. rewrite !save_trace.
      rewrite <- app_assoc. cbn [Datatypes.app Z.ltb Z.compare Z.to_nat Pos.to_nat take].
      repeat split. do 3 f_equal. apply take_ge.
      unfold net_key_val_bytes. cbn [length]. rewrite length_app, !length_fit.
      cbn. lia.
    + assert (E : key_update_find true (ak_app_idx a) (store_app_key a st) = (None, None))
        by exact Hfull.
      rewrite E. unfold clear_app_key, store_app_key. rewrite !save_trace.
      rewrite <- app_assoc. cbn [Datatypes.app Z.ltb Z.compare Z.to_nat Pos.to_nat take].
      repeat split. do 3 f_equal. apply take_ge.
      unfold app_key_val_bytes. rewrite !length_app, !length_fit, length_to_le.
      cbn. lia.
Qed.

End Settings.

(** * The code on the reference configuration *)

Lemma find_index_Some {A} (p : A -> bool) (l : list A) :
  forall k, find_index p l = Some k -> exists x, l !! k = Some x /\ p x = true.
Proof.
  induction l as [| y l IH]; intros k; cbn; [discriminate |].
  destruct (p y) eqn:Hy.
  - intros [= <-]. eauto.
  - destruct (find_index p l) as [j |]; cbn; [| discriminate].
    intros [= <-]. apply IH. reflexivity.
Qed.

Lemma sample_lookup_ok : lookup_by_index_ok sample_externals.
Proof.
  split; intros idx l k x Hk Hx; cbn in Hk;
    apply find_index_Some in Hk as (y & Hy & Hp); rewrite Hx in Hy;
    injection Hy as <-.
  - apply Z.eqb_eq, Hp.
  - apply andb_true_iff in Hp as [_ Hp]. apply Z.eqb_eq, Hp.
Qed.

(** The example of the specification: [S = 100] with [R = 16] is restored
    as 111. *)
Example seq_restore_100_16 :
  seq (snd (seq_set_bin (with_seq_store_rate 16 sample_config) [100; 0; 0]
              (boot_state 1))) = 111.
Proof. reflexivity. Qed.

Lemma C1_witness :
  (is_byte 100 /\ is_byte 0) /\
  0 < CONFIG_BT_MESH_SEQ_STORE_RATE sample_config <= 2147483647 /\
  seq_set_bin sample_config [100; 0; 0] (boot_state 1)
  = (0, set_seq 127 (boot_state 1)).
Proof.
  split; [unfold is_byte; lia |]. split; [cbn; lia |].
  exact (proj1 (C1_seq_restore_law sample_config 100 0 0 (boot_state 1)
                  ltac:(unfold is_byte; lia) ltac:(unfold is_byte; lia)
                  ltac:(unfold is_byte; lia) ltac:(cbn; lia))).
Defined.

(** A timeout equal to the time left does rearm the timer: the flush is
    armed with 2000 ms left, and a sequence-number mark computes 2000 ms. *)
Lemma C2_equal_timeout_rearms :
  ~ (0 < pending_store (armed_state 2000) ->
     pending_store (armed_state 2000)
       <= store_timeout sample_config
            (atomic_set_bit sample_config BT_MESH_SEQ_PENDING (armed_state 2000)) ->
     trace (schedule_store sample_config BT_MESH_SEQ_PENDING (armed_state 2000))
     = trace (armed_state 2000)).
Proof.
  intros H. specialize (H ltac:(cbn; lia) ltac:(vm_compute; discriminate)).
  vm_compute in H. discriminate H.
Qed.

Lemma C2_witness :
  0 < pending_store (armed_state 5000) /\
  pending_store (schedule_store sample_config BT_MESH_SEQ_PENDING (armed_state 5000))
  = 2000 /\
  trace (schedule_store sample_config BT_MESH_SEQ_PENDING (armed_state 5000))
  = [DelayedWorkSubmit PENDING_STORE_TIMER 2000].
Proof.
  split; [cbn; lia |].
  exact (C2_earliest_deadline sample_config BT_MESH_SEQ_PENDING (armed_state 5000)
           ltac:(cbn; lia)).
Defined.

(** The later timeout of a replay-protection mark leaves the armed timer
    alone. *)
Example later_timeout_keeps_deadline :
  schedule_store sample_config BT_MESH_RPL_PENDING (armed_state 2000)
  = atomic_set_bit sample_config BT_MESH_RPL_PENDING (armed_state 2000).
Proof. reflexivity. Qed.

Lemma C4_witness :
  (lookup_by_index_ok sample_externals /\
   0 <= key_ref_idx (NetKeyRef (sample_subnet 5)) < 4096 /\
   Forall ku_wf (key_updates (boot_state 1)) /\
   (length (List.filter
              (ku_matches (key_ref_app (NetKeyRef (sample_subnet 5)))
                 (key_ref_idx (NetKeyRef (sample_subnet 5))))
              (key_updates (boot_state 1))) <= 1)%nat /\
   key_update_find (key_ref_app (NetKeyRef (sample_subnet 5)))
     (key_ref_idx (NetKeyRef (sample_subnet 5))) (boot_state 1) <> (None, None)) /\
  atomic_test_bit sample_config
    (clear_key sample_config (NetKeyRef (sample_subnet 5))
       (store_key sample_config (NetKeyRef (sample_subnet 5)) (boot_state 1)))
    BT_MESH_KEYS_PENDING = true /\
  List.filter
    (writes_to (key_path (key_ref_app (NetKeyRef (sample_subnet 5)))
                  (key_ref_idx (NetKeyRef (sample_subnet 5)))))
    (trace_since
       (clear_key sample_config (NetKeyRef (sample_subnet 5))
          (store_key sample_config (NetKeyRef (sample_subnet 5)) (boot_state 1)))
       (store_pending sample_config sample_externals
          (clear_key sample_config (NetKeyRef (sample_subnet 5))
             (store_key sample_config (NetKeyRef (sample_subnet 5)) (boot_state 1)))))
  = [StoreUpdate (key_path (key_ref_app (NetKeyRef (sample_subnet 5)))
                    (key_ref_idx (NetKeyRef (sample_subnet 5)))) 0 []].
Proof.
  assert (H1 : 0 <= key_ref_idx (NetKeyRef (sample_subnet 5)) < 4096) by (cbn; lia).
  assert (H2 : Forall ku_wf (key_updates (boot_state 1)))
    by (repeat constructor; cbn; lia).
  assert (H3 : (length (List.filter
                          (ku_matches (key_ref_app (NetKeyRef (sample_subnet 5)))
                             (key_ref_idx (NetKeyRef (sample_subnet 5))))
                          (key_updates (boot_state 1))) <= 1)%nat)
    by (cbn; lia).
  assert (H4 : key_update_find (key_ref_app (NetKeyRef (sample_subnet 5)))
                 (key_ref_idx (NetKeyRef (sample_subnet 5))) (boot_state 1)
               <> (None, None))
    by (vm_compute; discriminate).
  split; [exact (conj sample_lookup_ok (conj H1 (conj H2 (conj H3 H4)))) |].
  pose proof (C4_store_then_clear_coalesces sample_config sample_externals
                (NetKeyRef (sample_subnet 5)) (boot_state 1)) as H.
  cbv zeta in H. destruct H as [H _].
  destruct (H sample_lookup_ok H1 H2 H3 H4) as (_ & B & _ & _ & W & _).
  exact (conj B W).
Defined.

(** What that example leaves in the trace: each intent arms the flush, the
    flush writes the clear. *)
Example store_then_clear_netkey5 :
  trace (store_pending sample_config sample_externals
           (clear_key sample_config (NetKeyRef (sample_subnet 5))
              (store_key sample_config (NetKeyRef (sample_subnet 5)) (boot_state 1))))
  = [DelayedWorkSubmit PENDING_STORE_TIMER 2000;
     DelayedWorkSubmit PENDING_STORE_TIMER 2000; StoreUpdate "NetKey/5"%string 0 []].
Proof. vm_compute. reflexivity. Qed.

(** With every slot of the table taken by another key, a store intent
    followed by a clear intent for NetKey 3 is not coalesced: no entry for
    the key is in the table, the record was written and then cleared at the
    intents, and the flush that follows does nothing. *)
Lemma C4_full_table_not_coalesced :
  ~ (List.filter (ku_matches false 3)
       (key_updates
          (clear_key sample_config (NetKeyRef (sample_subnet 3))
             (store_key sample_config (NetKeyRef (sample_subnet 3))
                full_tables_state)))
     = [ku_entry false 3 true]) /\
  trace (clear_key sample_config (NetKeyRef (sample_subnet 3))
           (store_key sample_config (NetKeyRef (sample_subnet 3)) full_tables_state))
  = [StoreUpdate "NetKey/3"%string 1 (net_key_val_bytes (sample_subnet 3));
     StoreUpdate "NetKey/3"%string 0 []] /\
  ~ (List.filter (writes_to "NetKey/3"%string)
       (trace_since
          (clear_key sample_config (NetKeyRef (sample_subnet 3))
             (store_key sample_config (NetKeyRef (sample_subnet 3))
                full_tables_state))
          (store_pending sample_config sample_externals
             (clear_key sample_config (NetKeyRef (sample_subnet 3))
                (store_key sample_config (NetKeyRef (sample_subnet 3))
                   full_tables_state))))
     = [StoreUpdate "NetKey/3"%string 0 []]).
Proof.
  split; [vm_compute; discriminate |].
  split; [reflexivity | vm_compute; discriminate].
Qed.


(** A binding record longer than the key array runs over its end: with
    the subscriptions behind the keys, as in the layout of the examples, the
    fourth index lands in the first subscription. *)
Example bind_record_overrun :
  snd (mod_set_bind_bin sample_config sample_externals [1; 0; 2; 0; 3; 0; 4; 0]
         sample_model)
  = mod_set_groups [4; 49152] (mod_set_keys [1; 2; 3] sample_model).
Proof. reflexivity. Qed.


(** A zero-length payload for a label in use leaves it in use: its reference
    count is not zero afterwards. *)
Lemma C6_va_zero_length_keeps_label :
  ~ (exists l,
       labels (snd (va_set_bin "Va/0"%string [] labelled_state)) !! 0%nat
       = Some l /\ lab_ref l = 0).
Proof. intros (l & Hl & Hr). vm_compute in Hl. injection Hl as <-. discriminate Hr. Qed.

(** The same label is cleared by no other payload of the decoder either when
    the stored reference count is zero: the record is ignored. *)
Example va_zero_ref_ignored :
  va_set_bin "Va/0"%string (zeros 20) labelled_state = (0, labelled_state).
Proof. reflexivity. Qed.

Lemma sample_ext_quiet : ext_quiet sample_externals.
Proof. repeat split. Qed.

(** The scenario of the specification: the store holds the provisioner
    role, the node role is requested. *)
Lemma C7_witness :
  (ext_quiet sample_externals /\
   atomic_test_bit sample_config (boot_state 1) BT_MESH_NODE = false /\
   atomic_test_bit sample_config (boot_state 1) BT_MESH_PROVISIONER = false /\
   role_stored true [("Role"%string, [2])] = false) /\
  bt_mesh_settings_load sample_config sample_externals true
    [("Role"%string, [2])] 0 (boot_state 1)
  = (-2, atomic_set_bit sample_config BT_MESH_PROVISIONER (boot_state 1)) /\
  List.filter arms_timer
    (trace_since (boot_state 1)
       (snd (bt_mesh_settings_load sample_config sample_externals true
               [("Role"%string, [2])] 0 (boot_state 1)))) = [].
Proof.
  split; [split; [exact sample_ext_quiet | repeat split] |].
  pose proof (C7_role_mismatch_no_activation sample_config sample_externals true
                [("Role"%string, [2])] (boot_state 1)
                sample_ext_quiet eq_refl eq_refl) as H.
  cbv zeta in H. destruct H as [H _]. destruct (H eq_refl) as (H1 & H2 & _).
  exact (conj H1 H2).
Defined.

(** A store without any role record, and one whose role byte names no role,
    are refused in the same way, whichever role is requested. *)
Example settings_load_no_role :
  fst (bt_mesh_settings_load sample_config sample_externals true
         [("NetKey/1"%string, net_key_val_bytes (sample_subnet 1))] 0
         (boot_state 1)) = -2 /\
  fst (bt_mesh_settings_load sample_config sample_externals false
         [("Role"%string, [0])] 0 (boot_state 1)) = -2.
Proof. split; reflexivity. Qed.

(** With the matching role and a provisioned subnet the commit phase does
    run: keys are derived, the mesh becomes valid. *)
Example settings_load_match_commits :
  let r := bt_mesh_settings_load sample_config sample_externals false
             [("Role"%string, [2]);
              ("NetKey/1"%string, net_key_val_bytes (sample_subnet 1))] 0
             (boot_state 1) in
  fst r = 0 /\
  atomic_test_bit sample_config (snd r) BT_MESH_VALID = true /\
  trace (snd r) = [ProxyProvDisable; NetBeaconUpdate 0;
                   DelayedWorkSubmit IVU_TIMER 345600000].
Proof. vm_compute. repeat split. Qed.

(** The key table is full while the node table has a free slot: the key
    functions write through all the same. *)
Lemma C8_witness :
  (forallb ku_valid (key_updates full_keys_state) = true /\
   forallb (fun u => negb (ku_matches false 3 u))
     (key_updates full_keys_state) = true) /\
  written_through "NetKey/3"%string 1 (net_key_val_bytes (sample_subnet 3))
    full_keys_state
    (bt_mesh_store_subnet sample_config (sample_subnet 3) full_keys_state) /\
  written_through "NetKey/3"%string 0 [] full_keys_state
    (bt_mesh_clear_subnet sample_config (sample_subnet 3) full_keys_state).
Proof.
  split; [split; reflexivity |].
  exact (proj1 (C8_full_table_writes_through sample_config
                  (sample_subnet 3) (sample_app_key 4) (sample_node 6)
                  full_keys_state)
           eq_refl eq_refl).
Defined.

(** On the state with both tables full, the application key and the node
    are written through as well. *)
Example full_tables_write_through :
  trace (bt_mesh_clear_app_key sample_config (sample_app_key 4) full_tables_state)
  = [StoreUpdate "AppKey/4"%string 0 []] /\
  trace (bt_mesh_store_node sample_config (sample_node 6) full_tables_state)
  = [StoreUpdate "Node/6"%string 1 (node_val_bytes (sample_node 6))].
Proof. split; reflexivity. Qed.

Lemma C10_witness :
  0 < CONFIG_BT_MESH_SEQ_STORE_RATE sample_config /\
  bt_mesh_store_seq sample_config (set_seq 100 (boot_state 1))
  = set_seq 100 (boot_state 1) /\
  atomic_test_bit sample_config
    (bt_mesh_store_seq sample_config (set_seq 256 (boot_state 1)))
    BT_MESH_SEQ_PENDING = true.
Proof.
  assert (HR : 0 < CONFIG_BT_MESH_SEQ_STORE_RATE sample_config) by (cbn; lia).
  split; [exact HR |]. split.
  - apply (C10_store_seq_rate sample_config (set_seq 100 (boot_state 1)) HR).
    vm_compute. discriminate.
  - apply (C10_store_seq_rate sample_config (set_seq 256 (boot_state 1)) HR).
    reflexivity.
Defined.

(** A flush of an unprovisioned node with the network category pending
    clears the key; once the mesh is valid the record is written. *)
Example flush_net_unprovisioned :
  trace (store_pending sample_config sample_externals
           (bt_mesh_store_net sample_config (boot_state 1)))
  = [DelayedWorkSubmit PENDING_STORE_TIMER 500; StoreUpdate "Net"%string 0 []].
Proof. reflexivity. Qed.

(** ** The further properties on the reference configuration *)

(** A two-byte IV record is refused and changes nothing. *)
Lemma X1_witness :
  snd (mesh_set_bin sample_config sample_externals "IV" [1; 2] (boot_state 1))
  = boot_state 1.
Proof.
  apply (X1_wrong_length_rejected sample_config sample_externals "IV" "IV" 5 [1; 2]
           (boot_state 1)); [reflexivity | reflexivity | cbn; lia | cbn; lia].
Defined.

(** A two-byte replay record for source 7 claims the free entry. *)
Lemma X2_witness :
  rpl_set_bin "RPL/7" [1; 2] (boot_state 1)
  = (- EINVAL,
     set_rpl (alter (rpl_set_src (u16 (strtol16 (string_drop 4 "RPL/7")))) 0%nat
                (rpl (boot_state 1))) (boot_state 1)).
Proof.
  pose proof (X2_rpl_wrong_length_takes_slot "RPL/7" [1; 2] (boot_state 1)
                ltac:(cbn; lia) ltac:(cbn; lia)) as H.
  cbv zeta in H. destruct H as (_ & H & _).
  exact (proj1 (H eq_refl 0%nat eq_refl)).
Defined.

Lemma X3_witness :
  mesh_set_bin sample_config sample_externals "Foo/1" [1] (boot_state 1)
  = (- ENOENT, boot_state 1).
Proof.
  exact (proj1 (X3_unknown_key_skipped sample_config sample_externals "Foo/1" [1]
                  [] [] 0 (boot_state 1) ltac:(vm_compute; reflexivity))).
Defined.

Lemma X4_witness : u16 (strtol16 (string_drop 7 (key_path false 5))) = 5.
Proof.
  exact (proj2 (proj1 (X4_store_key_print_parse false 5 ltac:(lia)))).
Defined.

Lemma sample_subnet_valid (idx : Z) : subnet_valid (sample_subnet idx).
Proof. unfold subnet_valid. cbn. repeat split; lia. Qed.

Lemma X5_witness :
  trace (store_net_key (sample_subnet 5) (boot_state 1))
  = trace (boot_state 1)
    ++ [StoreUpdate (key_path false (net_idx (sample_subnet 5))) 1
          (net_key_val_bytes (sample_subnet 5))].
Proof.
  pose proof (X5_net_key_survives_reboot sample_config sample_externals
                (sample_subnet 5) (boot_state 1) (boot_state 1)
                (sample_subnet_valid 5) ltac:(cbn; lia)) as H.
  cbv zeta in H. exact (proj1 H).
Defined.

Lemma X7_witness :
  atomic_test_bit sample_config
    (schedule_store sample_config BT_MESH_SEQ_PENDING (boot_state 1))
    BT_MESH_SEQ_PENDING = true.
Proof.
  pose proof (X7_mark_arms_flush sample_config BT_MESH_SEQ_PENDING (boot_state 1)
                ltac:(cbn; lia) ltac:(cbn; lia) ltac:(cbn; lia)) as H.
  cbv zeta in H. exact (proj1 H).
Defined.

Lemma X8_witness :
  0 < pending_store (bt_mesh_store_net sample_config (armed_state 2000)) <= 500.
Proof.
  pose proof (X8_urgent_records_flush_soon sample_config false BT_MESH_NET_PENDING
                (armed_state 2000) ltac:(cbn; lia)) as H.
  exact (proj1 (proj2 H)).
Defined.

(** On the start-up tables a clear intent for node 6 is the same as a store
    intent. *)
Lemma X9_witness :
  bt_mesh_clear_node sample_config (sample_node 6) (boot_state 1)
  = bt_mesh_store_node sample_config (sample_node 6) (boot_state 1).
Proof.
  pose proof (X9_node_intent_into_free_slot sample_config sample_externals
                (sample_node 6) {| nu_addr := 0; nu_clear := false |} (boot_state 1)
                ltac:(repeat constructor) ltac:(reflexivity) ltac:(cbn; lia)) as H.
  cbv zeta in H. exact (proj1 H).
Defined.

(** A node is stored, cleared and flushed; the slot keeps its [clear] flag,
    so the next store intent for the node is flushed as a delete. *)
Example node_store_after_flushed_clear :
  let s1 := bt_mesh_store_node sample_config (sample_node 6)
              (set_nodes [sample_node 6] (boot_state 1)) in
  let s2 := bt_mesh_clear_node sample_config (sample_node 6) s1 in
  let s3 := store_pending_nodes sample_config sample_externals s2 in
  let s4 := bt_mesh_store_node sample_config (sample_node 6) s3 in
  trace_since s2 s3 = [StoreUpdate "Node/6" 0 []] /\
  trace_since s4 (store_pending_nodes sample_config sample_externals s4)
  = [StoreUpdate "Node/6" 0 []].
Proof. vm_compute. split; reflexivity. Qed.

Lemma X10_witness :
  exists junk,
    trace (store_rpl sample_externals sample_rpl (boot_state 1))
    = trace (boot_state 1)
      ++ [StoreUpdate (String.append "RPL/" (fmt_x (rpl_src sample_rpl))) 1
            (rpl_val_bytes junk sample_rpl)].
Proof.
  pose proof (X10_rpl_survives_reboot sample_config sample_externals sample_rpl
                (boot_state 1) (boot_state 1)
                ltac:(unfold rpl_valid; cbn; lia) ltac:(cbn; lia)) as H.
  cbv zeta in H. exact (proj1 H).
Defined.

Lemma X11_witness :
  rpl (snd (rpl_set_bin "RPL/100" [] (set_rpl [sample_rpl] (boot_state 1))))
  = <[0%nat := rpl_zero]> (rpl (set_rpl [sample_rpl] (boot_state 1))).
Proof.
  pose proof (X11_rpl_clear_frees_entry "RPL/100" 0%nat
                (set_rpl [sample_rpl] (boot_state 1)) ltac:(reflexivity)) as H.
  cbv zeta in H. exact (proj1 H).
Defined.

Lemma X15_witness :
  sub (snd (mesh_commit sample_config sample_externals
              (set_sub [sample_subnet 1] (boot_state 1))))
  = map (commit_subnet sample_config sample_externals)
      (sub (set_sub [sample_subnet 1] (boot_state 1))).
Proof.
  exact (proj1 (X15_commit_derives_keys sample_config sample_externals
                  (set_sub [sample_subnet 1] (boot_state 1)) eq_refl)).
Defined.

Lemma X16_witness :
  fst (bt_mesh_model_data_store sample_config 0 false [7] modelled_state) = 0.
Proof.
  pose proof (X16_model_data_store sample_config 0 false [7] sample_model
                modelled_state eq_refl ltac:(discriminate) ltac:(cbn; lia)) as H.
  cbv zeta in H. exact (proj1 H).
Defined.

Lemma X17_witness :
  exists keep,
    trace (store_pending_mod_bind sample_config sample_model false (boot_state 1))
    = trace (boot_state 1)
      ++ [StoreUpdate (encode_mod_path sample_model false "bind") keep
            (u16s_to_bytes
               (filter (fun k => k <> BT_MESH_KEY_UNUSED sample_config)
                  (mod_keys sample_model)))].
Proof.
  pose proof (X17_model_lists_round_trip sample_config sample_externals
                sample_model sample_model false (boot_state 1)
                ltac:(repeat (constructor; [cbn; lia |]); constructor)
                ltac:(repeat (constructor; [cbn; lia |]); constructor)
                ltac:(cbn; lia) eq_refl eq_refl) as H.
  cbv zeta in H. exact (proj1 H).
Defined.

Lemma X18_witness :
  fst (seq_set_bin sample_config (seq_val_bytes (set_seq 256 (boot_state 1)))
         (boot_state 1)) = 0.
Proof.
  pose proof (X18_seq_restore_forces_store sample_config
                (set_seq 256 (boot_state 1)) (boot_state 1)
                ltac:(cbn; lia) ltac:(cbn; lia)) as H.
  cbv zeta in H. exact (proj1 (proj2 H)).
Defined.

Lemma boot_key_table_ok (n : nat) : key_table_ok (boot_state n).
Proof.
  split.
  - apply Forall_forall. intros u Hu. cbn in Hu.
    apply elem_of_replicate in Hu as [-> _]. unfold ku_wf. cbn. lia.
  - intros a j. rewrite filter_none; [cbn; lia |].
    apply forallb_forall. intros u Hu. apply list_elem_of_In in Hu. cbn in Hu.
    apply elem_of_replicate in Hu as [-> _]. reflexivity.
Qed.

Lemma X22_witness :
  key_table_ok (store_key sample_config (NetKeyRef (sample_subnet 5)) (boot_state 1)).
Proof.
  exact (proj1 (X22_key_table_invariant sample_config sample_externals
                  (NetKeyRef (sample_subnet 5)) (boot_state 1)
                  ltac:(cbn; lia) (boot_key_table_ok 1))).
Defined.

Lemma X23_witness :
  trace (store_app_key (sample_app_key 4) (boot_state 1))
  = trace (boot_state 1)
    ++ [StoreUpdate (key_path true (ak_app_idx (sample_app_key 4))) 1
          (app_key_val_bytes (sample_app_key 4))].
Proof.
  pose proof (X23_app_key_survives_reboot sample_config sample_externals (sample_app_key 4)
                (boot_state 1) (boot_state 1)
                ltac:(unfold app_key_valid, is_byte; cbn; repeat split; lia)
                ltac:(cbn; lia)) as H.
  cbv zeta in H. exact (proj1 H).
Defined.

Lemma X24_witness :
  trace (store_node (sample_node 6) (boot_state 1))
  = trace (boot_state 1)
    ++ [StoreUpdate (String.append "Node/" (fmt_x (node_addr (sample_node 6)))) 1
          (node_val_bytes (sample_node 6))].
Proof.
  pose proof (X24_node_survives_reboot sample_config sample_externals (sample_node 6)
                (boot_state 1) (boot_state 1)
                ltac:(unfold node_valid, is_byte; cbn; repeat split; lia)
                ltac:(cbn; lia) eq_refl) as H.
  cbv zeta in H. exact (proj1 H).
Defined.

Lemma X25_witness :
  mod_set_pub_bin sample_config (mod_pub_val_bytes 0 sample_pub)
    (mod_set_pub (Some sample_pub) sample_model)
  = (0, mod_set_pub (Some (mod_pub_restored sample_pub sample_pub))
          (mod_set_pub (Some sample_pub) sample_model)).
Proof.
  exact (proj2 (X25_model_pub_round_trip sample_config sample_externals 0
                  sample_pub sample_pub
                  (mod_set_pub (Some sample_pub) sample_model)
                  (mod_set_pub (Some sample_pub) sample_model) false (boot_state 1)
                  ltac:(unfold mod_pub_valid, is_byte; cbn; repeat split; lia)
                  eq_refl eq_refl)).
Defined.

Lemma X26_witness :
  mesh_set_bin sample_config sample_externals
    (encode_mod_path sample_model false "bind") [1; 0] modelled_state
  = match bt_mesh_model_get sample_externals false (mod_elem_idx sample_model)
            (mod_idx sample_model) (models modelled_state) with
    | Some i =>
        on_model i (mod_set_bind_bin sample_config sample_externals [1; 0])
          modelled_state
    | None => (- ENOENT, modelled_state)
    end.
Proof.
  pose proof (X26_model_key_dispatch sample_config sample_externals sample_model
                false [1; 0] modelled_state
                ltac:(unfold is_byte; cbn; lia) ltac:(unfold is_byte; cbn; lia)) as H.
  cbv beta zeta in H. exact (proj1 H).
Defined.

Lemma X27_witness :
  Forall (fun x => Z.land (mod_flags x) (mod_pending_mask sample_config) = 0)
    (models (store_pending_models sample_config sample_externals modelled_state)).
Proof.
  exact (proj2 (proj2 (X27_flush_model sample_config sample_externals sample_model
                         modelled_state ltac:(repeat split; reflexivity)))).
Defined.

Lemma X28_witness :
  trace (store_pending_hb_pub sample_config sample_externals (boot_state 1))
  = trace (boot_state 1) ++ [StoreUpdate "HBPub" 1 (zeros 8)].
Proof.
  pose proof (X28_disabled_hb_pub_record sample_config sample_externals _ _
                (boot_state 1) (boot_state 1) eq_refl eq_refl eq_refl) as H.
  exact (proj1 H).
Defined.
